(** * easy_traffic: the microscopic traffic model (IDM + MOBIL)

    A shallow embedding of the class [TrafficModel]
    (services/TrafficPhysics) and of the records of [types.ts], followed by
    the properties of the model.

    Conventions of the embedding.
    - A JavaScript [number] that carries a physical quantity (position,
      speed, acceleration, time) is a real number [R]: rounding of IEEE
      doubles is not modelled, and a division is the division of [R].
      [Infinity], which the source uses as the start value of a minimum
      search, as the position of an empty lane and as the headway of a
      zero inflow, is explicit in [xnumber].  The IDM divides by the
      desired speed and by the square root of [maxAccel]: where the source
      has [NaN] or an infinity there (a desired speed of 0, a [maxAccel]
      that is not positive) the division of [R] has a number, so the
      theorems that rest on the speeds and positions a step computes are
      stated for a positive [maxAccel] and positive desired speeds.
    - [id], [lane] and [laneChangeDirection] only ever hold integers and
      are [Z].
    - [Math.random()] is an oracle [nat -> R] read at a cursor which every
      draw advances; the cursor is threaded through the [Rand] monad.
    - A method that mutates [this] is a function that returns the new model;
      a loop that mutates the vehicle it visits while reading
      [this.vehicles] is a recursion over the part of the array not visited
      yet, carrying the part already rewritten.
    - triggerAccident returns the timer it starts as data; the callback of
      the timer is a function of its own, applied at the place the vehicle
      it holds has in the array, if it is still there. *)

From Stdlib Require Import Reals Lra Lia ZArith List String Bool Arith.
From Stdlib Require Import Permutation Sorted.
Import ListNotations.

Open Scope R_scope.

(** ** Numbers *)

Definition Rltb (a b : R) : bool := if Rlt_dec a b then true else false.
Definition Rleb (a b : R) : bool := if Rle_dec a b then true else false.

(** [a > b] of the source is [Rltb b a]. *)
Definition Rgtb (a b : R) : bool := Rltb b a.

(** [Math.sign]. *)
Definition Math_sign (r : R) : R :=
  if Rltb 0 r then 1 else if Rltb r 0 then -1 else 0.

(** [Math.max]. *)
Definition Math_max (a b : R) : R := if Rltb a b then b else a.

(** [Math.abs]. *)
Definition Math_abs (r : R) : R := Rabs r.
Arguments Math_abs : simpl never.

(** Numbers that may be infinite: the few places where the source computes
    with [Infinity]. *)
Inductive xnumber : Type :=
| Fin (r : R)
| PInf
| NInf
| NaN.

(** [a < b] and [a > b] on possibly infinite numbers; a comparison with
    [NaN] is false. *)
Definition xltb (a b : xnumber) : bool :=
  match a, b with
  | NaN, _ | _, NaN => false
  | Fin r, Fin s => Rltb r s
  | Fin _, PInf => true
  | Fin _, NInf => false
  | PInf, _ => false
  | NInf, NInf => false
  | NInf, _ => true
  end.

Definition xgtb (a b : xnumber) : bool := xltb b a.

(** [1 / d]: [Infinity] when [d] is zero. *)
Definition xinv (d : R) : xnumber :=
  if Req_dec_T d 0 then PInf else Fin (1 / d).

(** [c * a] for a finite [c]. *)
Definition xscale (c : R) (a : xnumber) : xnumber :=
  match a with
  | Fin r => Fin (c * r)
  | PInf => if Rltb 0 c then PInf else if Rltb c 0 then NInf else NaN
  | NInf => if Rltb 0 c then NInf else if Rltb c 0 then PInf else NaN
  | NaN => NaN
  end.

(** ** The records of types.ts *)

Inductive VehicleType : Type := CAR | TRUCK.

Module Vehicle.
Record t : Type := mk {
  id : Z;
  x : R;
  y : R;
  lane : Z;
  v : R;
  a : R;
  length : R;
  width : R;
  color : string;
  type : VehicleType;
  laneChangeTimer : R;
  laneChangeDirection : Z;
  targetSpeed : R;
  (* the property [isCrashed] that triggerAccident attaches; absent
     (falsy) on a vehicle that was never crashed *)
  isCrashed : bool
}.

Definition set_v (veh : t) (n : R) : t :=
  mk (id veh) (x veh) (y veh) (lane veh) n (a veh) (length veh) (width veh)
     (color veh) (type veh) (laneChangeTimer veh) (laneChangeDirection veh)
     (targetSpeed veh) (isCrashed veh).

Definition set_a (veh : t) (n : R) : t :=
  mk (id veh) (x veh) (y veh) (lane veh) (v veh) n (length veh) (width veh)
     (color veh) (type veh) (laneChangeTimer veh) (laneChangeDirection veh)
     (targetSpeed veh) (isCrashed veh).

Definition set_x (veh : t) (n : R) : t :=
  mk (id veh) n (y veh) (lane veh) (v veh) (a veh) (length veh) (width veh)
     (color veh) (type veh) (laneChangeTimer veh) (laneChangeDirection veh)
     (targetSpeed veh) (isCrashed veh).

Definition set_y (veh : t) (n : R) : t :=
  mk (id veh) (x veh) n (lane veh) (v veh) (a veh) (length veh) (width veh)
     (color veh) (type veh) (laneChangeTimer veh) (laneChangeDirection veh)
     (targetSpeed veh) (isCrashed veh).

Definition set_lane (veh : t) (l : Z) : t :=
  mk (id veh) (x veh) (y veh) l (v veh) (a veh) (length veh) (width veh)
     (color veh) (type veh) (laneChangeTimer veh) (laneChangeDirection veh)
     (targetSpeed veh) (isCrashed veh).

Definition set_color (veh : t) (c : string) : t :=
  mk (id veh) (x veh) (y veh) (lane veh) (v veh) (a veh) (length veh)
     (width veh) c (type veh) (laneChangeTimer veh)
     (laneChangeDirection veh) (targetSpeed veh) (isCrashed veh).

Definition set_laneChangeTimer (veh : t) (n : R) : t :=
  mk (id veh) (x veh) (y veh) (lane veh) (v veh) (a veh) (length veh)
     (width veh) (color veh) (type veh) n (laneChangeDirection veh)
     (targetSpeed veh) (isCrashed veh).

Definition set_laneChangeDirection (veh : t) (d : Z) : t :=
  mk (id veh) (x veh) (y veh) (lane veh) (v veh) (a veh) (length veh)
     (width veh) (color veh) (type veh) (laneChangeTimer veh) d
     (targetSpeed veh) (isCrashed veh).

Definition set_isCrashed (veh : t) (b : bool) : t :=
  mk (id veh) (x veh) (y veh) (lane veh) (v veh) (a veh) (length veh)
     (width veh) (color veh) (type veh) (laneChangeTimer veh)
     (laneChangeDirection veh) (targetSpeed veh) b.
End Vehicle.

Abbreviation Vehicle := Vehicle.t.

Record FDPoint : Type := { k : R; q : R }.

Record SimulationStats : Type := {
  count : nat;
  avgSpeed : R;
  density : R;
  flow : R;
  points : list FDPoint
}.

Record SimulationConfig : Type := {
  inflowRate : R;
  timeScale : R;
  truckRatio : R;
  isPaused : bool;
  cfgRoadLength : R;
  politeness : R;
  safeTimeGap : R;
  maxAccel : R;
  accelerationNoise : R
}.

(** ** Physics constants *)

Definition LANE_WIDTH : R := 3.5.
Definition DT : R := 1 / 60.
Definition IDM_DELTA : nat := 4.
Definition JAM_DISTANCE : R := 2.
Definition COMFORT_DECEL : R := 2.0.
Definition MOBIL_THRESHOLD : R := 0.1.
Definition MOBIL_BIAS : R := 0.2.

(** ** The model *)

Record TrafficModel : Type := {
  vehicles : list Vehicle;
  roadLength : R;
  lanes : Z;
  nextId : Z;
  timeSinceLastSpawn : R;
  fdPoints : list FDPoint;
  statsTimer : R;
  blockedLane : option Z;
  blockedLocation : option R
}.

Definition set_vehicles (this : TrafficModel) (vs : list Vehicle) : TrafficModel :=
  {| vehicles := vs; roadLength := roadLength this; lanes := lanes this;
     nextId := nextId this; timeSinceLastSpawn := timeSinceLastSpawn this;
     fdPoints := fdPoints this; statsTimer := statsTimer this;
     blockedLane := blockedLane this; blockedLocation := blockedLocation this |}.

Definition set_timeSinceLastSpawn (this : TrafficModel) (n : R) : TrafficModel :=
  {| vehicles := vehicles this; roadLength := roadLength this; lanes := lanes this;
     nextId := nextId this; timeSinceLastSpawn := n;
     fdPoints := fdPoints this; statsTimer := statsTimer this;
     blockedLane := blockedLane this; blockedLocation := blockedLocation this |}.

Definition set_statsTimer (this : TrafficModel) (n : R) : TrafficModel :=
  {| vehicles := vehicles this; roadLength := roadLength this; lanes := lanes this;
     nextId := nextId this; timeSinceLastSpawn := timeSinceLastSpawn this;
     fdPoints := fdPoints this; statsTimer := n;
     blockedLane := blockedLane this; blockedLocation := blockedLocation this |}.

Definition set_fdPoints (this : TrafficModel) (ps : list FDPoint) : TrafficModel :=
  {| vehicles := vehicles this; roadLength := roadLength this; lanes := lanes this;
     nextId := nextId this; timeSinceLastSpawn := timeSinceLastSpawn this;
     fdPoints := ps; statsTimer := statsTimer this;
     blockedLane := blockedLane this; blockedLocation := blockedLocation this |}.

(** [new TrafficModel(roadLength)]: the field initialisers, then the
    constructor body. *)
Definition newTrafficModel (len : R) : TrafficModel :=
  {| vehicles := []; roadLength := len; lanes := 3; nextId := 1;
     timeSinceLastSpawn := 0; fdPoints := []; statsTimer := 0;
     blockedLane := None; blockedLocation := None |}.

Definition reset (this : TrafficModel) : TrafficModel :=
  {| vehicles := []; roadLength := roadLength this; lanes := lanes this;
     nextId := 1; timeSinceLastSpawn := 0; fdPoints := [];
     statsTimer := statsTimer this;
     blockedLane := None; blockedLocation := None |}.

(** ** Neighbour queries *)

(** The body of the [for] loop of getLeader, with the two loop variables
    [minDist] and [leader]. *)
Fixpoint getLeader_loop (vehicle : Vehicle) (targetLane : Z)
    (rest : list Vehicle) (minDist : xnumber) (leader : option Vehicle)
    : option Vehicle :=
  match rest with
  | [] => leader
  | other :: rest' =>
      if (Vehicle.id other =? Vehicle.id vehicle)%Z then
        getLeader_loop vehicle targetLane rest' minDist leader
      else if negb (Vehicle.lane other =? targetLane)%Z then
        getLeader_loop vehicle targetLane rest' minDist leader
      else
        let dist := Vehicle.x other - Vehicle.x vehicle in
        if Rgtb dist 0 && xltb (Fin dist) minDist then
          getLeader_loop vehicle targetLane rest' (Fin dist) (Some other)
        else
          getLeader_loop vehicle targetLane rest' minDist leader
  end.

Definition getLeader (this : TrafficModel) (vehicle : Vehicle)
    (targetLane : Z) : option Vehicle :=
  getLeader_loop vehicle targetLane (vehicles this) PInf None.

Fixpoint getFollower_loop (vehicle : Vehicle) (targetLane : Z)
    (rest : list Vehicle) (minDist : xnumber) (follower : option Vehicle)
    : option Vehicle :=
  match rest with
  | [] => follower
  | other :: rest' =>
      if (Vehicle.id other =? Vehicle.id vehicle)%Z then
        getFollower_loop vehicle targetLane rest' minDist follower
      else if negb (Vehicle.lane other =? targetLane)%Z then
        getFollower_loop vehicle targetLane rest' minDist follower
      else
        let dist := Vehicle.x vehicle - Vehicle.x other in
        if Rgtb dist 0 && xltb (Fin dist) minDist then
          getFollower_loop vehicle targetLane rest' (Fin dist) (Some other)
        else
          getFollower_loop vehicle targetLane rest' minDist follower
  end.

Definition getFollower (this : TrafficModel) (vehicle : Vehicle)
    (targetLane : Z) : option Vehicle :=
  getFollower_loop vehicle targetLane (vehicles this) PInf None.

(** ** Intelligent Driver Model *)

(** [vLeader] and [gap] are [number | null]. *)
Definition calculateAcceleration (v : R) (vLeader gap : option R)
    (desiredSpeed : R) (config : SimulationConfig) : R :=
  let maxAccel := maxAccel config in
  let safeTimeGap := safeTimeGap config in
  let a_free := maxAccel * (1 - (v / desiredSpeed) ^ IDM_DELTA) in
  match gap, vLeader with
  | Some gap, Some vLeader =>
      let delta_v := v - vLeader in
      let s_star :=
        JAM_DISTANCE + v * safeTimeGap
        + (v * delta_v) / (2 * sqrt (maxAccel * COMFORT_DECEL)) in
      let effectiveGap := Math_max 0.1 gap in
      let a_int := - maxAccel * (s_star / effectiveGap) ^ 2 in
      a_free + a_int
  | _, _ => a_free
  end.

(** ** The random source *)

(** A computation that may call [Math.random()]: it reads the oracle at the
    cursor and returns the advanced cursor with its result. *)
Definition Rand (A : Type) : Type := (nat -> R) -> nat -> A * nat.

Definition ret {A : Type} (a : A) : Rand A := fun _ pos => (a, pos).

Definition bind {A B : Type} (m : Rand A) (f : A -> Rand B) : Rand B :=
  fun rnd pos => let (a, pos') := m rnd pos in f a rnd pos'.

(** [Math.random()]. *)
Definition random : Rand R := fun rnd pos => (rnd pos, S pos).

Notation "x <- m ;; f" := (bind m (fun x => f))
  (at level 61, m at next level, right associativity).

(** ** MOBIL lane change *)

Definition candidateLanes (this : TrafficModel) (veh : Vehicle) : list Z :=
  (if (Vehicle.lane veh >? 0)%Z then [(Vehicle.lane veh - 1)%Z] else [])
  ++ (if (Vehicle.lane veh <? lanes this - 1)%Z
      then [(Vehicle.lane veh + 1)%Z] else []).

(** The loop over [candidates]; [continue] is the recursive call on the
    remaining candidates, [return] leaves with the rewritten vehicle. *)
Fixpoint checkLaneChange_loop (this : TrafficModel) (veh : Vehicle)
    (accCurrent : R) (config : SimulationConfig) (candidates : list Z)
    : Vehicle :=
  match candidates with
  | [] => veh
  | targetLane :: candidates' =>
      let newLeader := getLeader this veh targetLane in
      let newFollower := getFollower this veh targetLane in
      let oldFollower := getFollower this veh (Vehicle.lane veh) in
      let tooDangerous :=
        match newFollower with
        | Some newFollower =>
            let gapBack :=
              Vehicle.x veh - Vehicle.x newFollower - Vehicle.length veh in
            let accFollowerNew :=
              calculateAcceleration (Vehicle.v newFollower)
                (Some (Vehicle.v veh)) (Some gapBack)
                (Vehicle.targetSpeed newFollower) config in
            Rltb accFollowerNew (-3.0)
        | None => false
        end in
      if tooDangerous then
        checkLaneChange_loop this veh accCurrent config candidates'
      else
        let gapNew :=
          match newLeader with
          | Some newLeader =>
              Some (Vehicle.x newLeader - Vehicle.x veh
                    - Vehicle.length newLeader)
          | None => None
          end in
        let vNewLeader :=
          match newLeader with
          | Some newLeader => Some (Vehicle.v newLeader)
          | None => None
          end in
        let accNew :=
          calculateAcceleration (Vehicle.v veh) vNewLeader gapNew
            (Vehicle.targetSpeed veh) config in
        let egoBenefit := accNew - accCurrent in
        let politenessTerm :=
          match oldFollower with
          | Some oldFollower =>
              let gapOld :=
                Vehicle.x veh - Vehicle.x oldFollower - Vehicle.length veh in
              let accOldFollowerCurr :=
                calculateAcceleration (Vehicle.v oldFollower)
                  (Some (Vehicle.v veh)) (Some gapOld)
                  (Vehicle.targetSpeed oldFollower) config in
              let myLeader := getLeader this veh (Vehicle.lane veh) in
              let gapOldFuture :=
                match myLeader with
                | Some myLeader =>
                    Some (Vehicle.x myLeader - Vehicle.x oldFollower
                          - Vehicle.length myLeader)
                | None => None
                end in
              let vMyLeader :=
                match myLeader with
                | Some myLeader => Some (Vehicle.v myLeader)
                | None => None
                end in
              let accOldFollowerNew :=
                calculateAcceleration (Vehicle.v oldFollower) vMyLeader
                  gapOldFuture (Vehicle.targetSpeed oldFollower) config in
              accOldFollowerNew - accOldFollowerCurr
          | None => 0
          end in
        let totalIncentive := egoBenefit + politeness config * politenessTerm in
        let totalIncentive :=
          if (targetLane >? Vehicle.lane veh)%Z
          then totalIncentive + MOBIL_BIAS else totalIncentive in
        let totalIncentive :=
          if (targetLane <? Vehicle.lane veh)%Z
          then totalIncentive - MOBIL_BIAS else totalIncentive in
        if Rgtb totalIncentive MOBIL_THRESHOLD then
          let veh := Vehicle.set_lane veh targetLane in
          let veh := Vehicle.set_laneChangeTimer veh 3.0 in
          Vehicle.set_laneChangeDirection veh
            (if Rgtb (IZR targetLane) (Vehicle.y veh) then 1 else -1)%Z
        else
          checkLaneChange_loop this veh accCurrent config candidates'
  end.

Definition checkLaneChange (this : TrafficModel) (veh : Vehicle)
    (accCurrent : R) (config : SimulationConfig) : Vehicle :=
  checkLaneChange_loop this veh accCurrent config (candidateLanes this veh).

(** ** One simulation step *)

(** [this.vehicles.sort((a, b) => b.x - a.x)]: a stable sort by [x],
    descending.  [insertByX veh sorted] puts [veh], which preceded every
    element of [sorted] in the array, in front of the first element whose
    [x] is not greater. *)
Fixpoint insertByX (veh : Vehicle) (sorted : list Vehicle) : list Vehicle :=
  match sorted with
  | [] => [veh]
  | other :: sorted' =>
      if Rgtb (Vehicle.x other) (Vehicle.x veh)
      then other :: insertByX veh sorted'
      else veh :: other :: sorted'
  end.

Definition sortByXDescending (vs : list Vehicle) : list Vehicle :=
  fold_right insertByX [] vs.

(** The body of the first loop of step for the vehicle [veh], which sits in
    the array between the vehicles [visited] (already rewritten) and
    [pending]. *)
Definition decideVehicle (config : SimulationConfig) (dt : R)
    (this : TrafficModel) (visited : list Vehicle) (veh : Vehicle)
    (pending : list Vehicle) : Rand Vehicle :=
  let here (veh : Vehicle) := set_vehicles this (visited ++ veh :: pending) in
  if Vehicle.isCrashed veh then
    let veh := Vehicle.set_a veh 0 in
    let veh := Vehicle.set_v veh 0 in
    ret veh
  else
    let leader := getLeader (here veh) veh (Vehicle.lane veh) in
    let gap :=
      match leader with
      | Some leader =>
          Some (Vehicle.x leader - Vehicle.x veh - Vehicle.length leader)
      | None => None
      end in
    let vLeader :=
      match leader with
      | Some leader => Some (Vehicle.v leader)
      | None => None
      end in
    let accCurrent :=
      calculateAcceleration (Vehicle.v veh) vLeader gap
        (Vehicle.targetSpeed veh) config in
    accCurrent <-
      (if Rgtb (accelerationNoise config) 0 && Rgtb (Vehicle.v veh) 1 then
         r <- random ;;
         ret (accCurrent + (r - 0.5) * accelerationNoise config)
       else ret accCurrent) ;;
    let veh := Vehicle.set_a veh accCurrent in
    if Rleb (Vehicle.laneChangeTimer veh) 0 then
      ret (checkLaneChange (here veh) veh accCurrent config)
    else
      ret (Vehicle.set_laneChangeTimer veh (Vehicle.laneChangeTimer veh - dt)).

Fixpoint decideLoop (config : SimulationConfig) (dt : R)
    (this : TrafficModel) (visited pending : list Vehicle)
    : Rand (list Vehicle) :=
  match pending with
  | [] => ret visited
  | veh :: pending' =>
      veh' <- decideVehicle config dt this visited veh pending' ;;
      decideLoop config dt this (visited ++ [veh']) pending'
  end.

(** The body of the second loop of step, up to the despawn test. *)
Definition integrateVehicle (dt : R) (veh : Vehicle) : Vehicle :=
  let veh := Vehicle.set_v veh (Vehicle.v veh + Vehicle.a veh * dt) in
  let veh := if Rltb (Vehicle.v veh) 0 then Vehicle.set_v veh 0 else veh in
  let veh := Vehicle.set_x veh (Vehicle.x veh + Vehicle.v veh * dt) in
  if Rgtb (Math_abs (Vehicle.y veh - IZR (Vehicle.lane veh))) 0.05 then
    let dir := Math_sign (IZR (Vehicle.lane veh) - Vehicle.y veh) in
    Vehicle.set_y veh (Vehicle.y veh + dir * 2.5 * dt)
  else
    let veh := Vehicle.set_y veh (IZR (Vehicle.lane veh)) in
    Vehicle.set_laneChangeDirection veh 0%Z.

(** The second loop runs from the last index down and splices out the
    vehicle it has just moved: the tail is done before the head. *)
Fixpoint integrateLoop (roadLength dt : R) (vs : list Vehicle)
    : list Vehicle :=
  match vs with
  | [] => []
  | veh :: rest =>
      let rest' := integrateLoop roadLength dt rest in
      let veh := integrateVehicle dt veh in
      if Rgtb (Vehicle.x veh) roadLength then rest' else veh :: rest'
  end.

(** ** Spawning *)

Definition getCarColor (targetSpeed : R) : string :=
  if Rgtb targetSpeed 32 then "#06b6d4"%string
  else if Rgtb targetSpeed 28 then "#10b981"%string
  else "#f59e0b"%string.

Definition spawnVehicle (lane : Z) (truckRatio : R)
    (config : SimulationConfig) (this : TrafficModel) : Rand TrafficModel :=
  r1 <- random ;;
  let isTruck := Rltb r1 truckRatio in
  r2 <- random ;;
  let speedKmH :=
    if isTruck then 85 + (r2 - 0.5) * 10 else 110 + (r2 - 0.5) * 20 in
  let targetSpeed := speedKmH / 3.6 in
  let veh :=
    {| Vehicle.id := nextId this;
       Vehicle.x := 0;
       Vehicle.y := IZR lane;
       Vehicle.lane := lane;
       Vehicle.v := targetSpeed * 0.9;
       Vehicle.a := 0;
       Vehicle.length := if isTruck then 14 else 4.5;
       Vehicle.width := if isTruck then 2.6 else 2.0;
       Vehicle.type := if isTruck then TRUCK else CAR;
       Vehicle.color :=
         if isTruck then "#a78bfa"%string else getCarColor targetSpeed;
       Vehicle.laneChangeTimer := 0;
       Vehicle.laneChangeDirection := 0%Z;
       Vehicle.targetSpeed := targetSpeed;
       Vehicle.isCrashed := false |} in
  ret {| vehicles := vehicles this ++ [veh];
         roadLength := roadLength this; lanes := lanes this;
         nextId := (nextId this + 1)%Z;
         timeSinceLastSpawn := timeSinceLastSpawn this;
         fdPoints := fdPoints this; statsTimer := statsTimer this;
         blockedLane := blockedLane this;
         blockedLocation := blockedLocation this |}.

(** [reduce((prev, curr) => (prev && prev.x < curr.x) ? prev : curr, null)]. *)
Definition lastOf (vs : list Vehicle) : option Vehicle :=
  fold_left
    (fun (prev : option Vehicle) (curr : Vehicle) =>
       match prev with
       | Some p => if Rltb (Vehicle.x p) (Vehicle.x curr) then Some p else Some curr
       | None => Some curr
       end)
    vs None.

(** The array [lastPos]: for each lane of [[0, 1, 2]] the smallest [x] on
    it, [Infinity] for an empty lane. *)
Definition lastPos (this : TrafficModel) : list xnumber :=
  map
    (fun l : Z =>
       match lastOf (filter (fun v => (Vehicle.lane v =? l)%Z) (vehicles this)) with
       | Some last => Fin (Vehicle.x last)
       | None => PInf
       end)
    [0%Z; 1%Z; 2%Z].

(** Indexing [lastPos[i]]; an index outside the array gives [undefined],
    which compares like [NaN]. *)
Definition at_lane (ps : list xnumber) (i : Z) : xnumber :=
  nth (Z.to_nat i) ps NaN.

(** [lanes.reduce((i, j) => (lastPos[i] > lastPos[j] ? i : j))] over
    [[0, 1, 2]] without a start value. *)
Definition bestLaneOf (ps : list xnumber) : Z :=
  fold_left (fun i j => if xgtb (at_lane ps i) (at_lane ps j) then i else j)
    [1%Z; 2%Z] 0%Z.

Definition handleSpawning (dt : R) (config : SimulationConfig)
    (this : TrafficModel) : Rand TrafficModel :=
  let this := set_timeSinceLastSpawn this (timeSinceLastSpawn this + dt) in
  let spawnRatePerSec := inflowRate config / 3600 in
  let avgInterarrivalTime := xinv spawnRatePerSec in
  r <- random ;;
  if xgtb (Fin (timeSinceLastSpawn this))
          (xscale (r * 0.4 + 0.8) avgInterarrivalTime) then
    let ps := lastPos this in
    let bestLane := bestLaneOf ps in
    if xgtb (at_lane ps bestLane) (Fin 40) then
      this <- spawnVehicle bestLane (truckRatio config) config this ;;
      ret (set_timeSinceLastSpawn this 0)
    else ret this
  else ret this.

(** ** Statistics *)

Definition getStats (this : TrafficModel) : SimulationStats :=
  let count := List.length (vehicles this) in
  if (count =? 0)%nat then
    {| count := 0; avgSpeed := 0; density := 0; flow := 0;
       points := fdPoints this |}
  else
    let totalV := fold_left (fun sum v => sum + Vehicle.v v) (vehicles this) 0 in
    let avgV := (totalV / INR count) * 3.6 in
    let density := INR count / (roadLength this / 1000) in
    let flow := density * avgV in
    {| count := count; avgSpeed := avgV; density := density; flow := flow;
       points := fdPoints this |}.

(** Part 4 of step: the sample for the fundamental diagram. *)
Definition collectData (dt : R) (this : TrafficModel) : TrafficModel :=
  let this := set_statsTimer this (statsTimer this + dt) in
  if Rgtb (statsTimer this) 1.0 then
    let stats := getStats this in
    let this :=
      if (0 <? count stats)%nat then
        let this :=
          set_fdPoints this
            (fdPoints this ++ [{| k := density stats; q := flow stats |}]) in
        if (200 <? List.length (fdPoints this))%nat
        then set_fdPoints this (tl (fdPoints this)) else this
      else this in
    set_statsTimer this 0
  else this.

Definition step (config : SimulationConfig) (this : TrafficModel)
    : Rand TrafficModel :=
  let dt := DT * timeScale config in
  let this := set_vehicles this (sortByXDescending (vehicles this)) in
  vs <- decideLoop config dt this [] (vehicles this) ;;
  let this := set_vehicles this vs in
  let this :=
    set_vehicles this (integrateLoop (roadLength this) dt (vehicles this)) in
  this <- handleSpawning dt config this ;;
  ret (collectData dt this).

(** ** Incidents *)

(** The call [setTimeout(callback, 8000)] of triggerAccident: the vehicle
    the callback holds, named by its id, and the delay in milliseconds. *)
Record Timeout : Type := { held : Z; delay : Z }.

Definition isCandidate (v : Vehicle) : bool :=
  (Vehicle.lane v =? 1)%Z && Rgtb (Vehicle.x v) 1000 && Rltb (Vehicle.x v) 4000.

Definition crash (candidate : Vehicle) : Vehicle :=
  let candidate := Vehicle.set_v candidate 0 in
  let candidate := Vehicle.set_color candidate "#ef4444"%string in
  Vehicle.set_isCrashed candidate true.

(** The writes to the object that [find] returned: they change the first
    vehicle of the array that satisfies the test. *)
Fixpoint crashFirst (vs : list Vehicle) : list Vehicle :=
  match vs with
  | [] => []
  | v :: rest => if isCandidate v then crash v :: rest else v :: crashFirst rest
  end.

(** triggerAccident returns the model and the timer it has started, if
    any. *)
Definition triggerAccident (this : TrafficModel)
    : TrafficModel * option Timeout :=
  match find isCandidate (vehicles this) with
  | Some candidate =>
      ({| vehicles := crashFirst (vehicles this);
          roadLength := roadLength this; lanes := lanes this;
          nextId := nextId this;
          timeSinceLastSpawn := timeSinceLastSpawn this;
          fdPoints := fdPoints this; statsTimer := statsTimer this;
          blockedLane := Some (Vehicle.lane candidate);
          blockedLocation := Some (Vehicle.x candidate) |},
       Some {| held := Vehicle.id candidate; delay := 8000 |})
  | None => (this, None)
  end.

(** The callback of the timer.  It restores the vehicle it holds, which
    may have left the array since, and clears the blockage record. *)
Definition restore (candidate : Vehicle) : Vehicle :=
  let candidate := Vehicle.set_isCrashed candidate false in
  Vehicle.set_color candidate
    (match Vehicle.type candidate with
     | TRUCK => "#a78bfa"%string
     | CAR => getCarColor (Vehicle.targetSpeed candidate)
     end).

Fixpoint restoreAt (place : nat) (vs : list Vehicle) : list Vehicle :=
  match vs, place with
  | [], _ => []
  | v :: rest, O => restore v :: rest
  | v :: rest, S place' => v :: restoreAt place' rest
  end.

(** [place] is the index of the held vehicle in the array, or nothing when
    the vehicle has been removed. *)
Definition fireTimeout (place : option nat) (this : TrafficModel)
    : TrafficModel :=
  {| vehicles :=
       match place with
       | Some i => restoreAt i (vehicles this)
       | None => vehicles this
       end;
     roadLength := roadLength this; lanes := lanes this;
     nextId := nextId this;
     timeSinceLastSpawn := timeSinceLastSpawn this;
     fdPoints := fdPoints this; statsTimer := statsTimer this;
     blockedLane := None; blockedLocation := None |}.

(** Several steps in a row, one config per call: the model after each
    call, in order. *)
Fixpoint run (configs : list SimulationConfig) (this : TrafficModel)
    : Rand (list TrafficModel) :=
  match configs with
  | [] => ret []
  | config :: configs' =>
      this' <- step config this ;;
      rest <- run configs' this' ;;
      ret (this' :: rest)
  end.


(** ** The canvas and the application shell *)

(** [Math.min]. *)
Definition Math_min (a b : R) : R := if Rltb b a then b else a.

(** The state updater of handleWheel (SimulationCanvas): the viewport
    offset after a wheel event, for the road length of the model. *)
Definition handleWheel (roadLength : R) (deltaY deltaX : R) (prev : R) : R :=
  let delta := deltaY + deltaX in
  let next := prev + delta * 1.0 in
  Math_max 0 (Math_min next (roadLength - 100)).

(** [brakeIntensity] of the drawing loop, from the acceleration of the
    vehicle. *)
Definition brakeIntensity (a : R) : R :=
  if Rltb a (-0.1) then Math_min 1 (Math_abs a / 3) else 0.

(** The vehicles the drawing loop keeps: those within 20 m of the
    viewport. *)
Definition visibleVehicles (viewportOffset viewWidthMeters : R)
    (vs : list Vehicle) : list Vehicle :=
  filter
    (fun v =>
       Rleb (viewportOffset - 20) (Vehicle.x v)
       && Rleb (Vehicle.x v) (viewportOffset + viewWidthMeters + 20))
    vs.

(** An entry of the flow history of the application. *)
Record HistoryPoint : Type := { time : R; historyFlow : R }.

(** The state updater of handleStatsUpdate (App) for the history; [now] is
    [Date.now()]. *)
Definition handleStatsUpdate (now : R) (newStats : SimulationStats)
    (prev : list HistoryPoint) : list HistoryPoint :=
  let nw := prev ++ [{| time := now; historyFlow := flow newStats |}] in
  if (100 <? List.length nw)%nat then tl nw else nw.
(** * Specification-level definitions and scenarios *)

(** ** The IDM function *)

(** The acceleration as the specification writes it, from the two
    parameters [a_max] and [T] alone. *)
Definition idm_free (a_max v v0 : R) : R := a_max * (1 - (v / v0) ^ 4).

Definition idm_s_star (a_max T v vLeader : R) : R :=
  2 + v * T + v * (v - vLeader) / (2 * sqrt (a_max * 2.0)).

Definition idm_spec (a_max T v : R) (vLeader gap : option R) (v0 : R) : R :=
  match vLeader, gap with
  | Some vl, Some s =>
      idm_free a_max v v0
      - a_max * (idm_s_star a_max T v vl / Rmax s 0.1) ^ 2
  | _, _ => idm_free a_max v v0
  end.

(** The configuration the application starts with. *)
Definition baseline : SimulationConfig :=
  {| inflowRate := 2000; timeScale := 1.0; truckRatio := 0.15;
     isPaused := false; cfgRoadLength := 5000; politeness := 0.2;
     safeTimeGap := 1.5; maxAccel := 1.5; accelerationNoise := 0.3 |}.

(** ** Neighbour queries *)

(** [other] is a vehicle the query may return: another vehicle, on the
    lane asked for, at a strictly positive distance [dist other]. *)
Definition eligible (vehicle : Vehicle) (targetLane : Z)
    (dist : Vehicle -> R) (other : Vehicle) : Prop :=
  Vehicle.id other <> Vehicle.id vehicle
  /\ Vehicle.lane other = targetLane
  /\ 0 < dist other.

(** [result] is the nearest eligible vehicle of the array [vs], and among
    eligible vehicles at the same distance the one that comes first in the
    array; it is nothing when no vehicle is eligible. *)
Definition nearestFirst (vs : list Vehicle) (ok : Vehicle -> Prop)
    (dist : Vehicle -> R) (result : option Vehicle) : Prop :=
  match result with
  | None => forall o, In o vs -> ~ ok o
  | Some l =>
      exists before after,
        vs = before ++ l :: after
        /\ ok l
        /\ (forall o, In o before -> ok o -> dist l < dist o)
        /\ (forall o, In o after -> ok o -> dist l <= dist o)
  end.

(** Ties broken by the smallest id, as the specification has it. *)
Definition smallestIdAmongTies (vs : list Vehicle) (ok : Vehicle -> Prop)
    (dist : Vehicle -> R) (result : option Vehicle) : Prop :=
  match result with
  | None => True
  | Some l =>
      forall o, In o vs -> ok o -> dist o = dist l ->
                (Vehicle.id l <= Vehicle.id o)%Z
  end.

Definition distAhead (vehicle other : Vehicle) : R :=
  Vehicle.x other - Vehicle.x vehicle.

Definition distBehind (vehicle other : Vehicle) : R :=
  Vehicle.x vehicle - Vehicle.x other.

(** The common shape of the loops of getLeader and getFollower, for the
    distance [dist]. *)
Fixpoint nearest_loop (vehicle : Vehicle) (targetLane : Z)
    (dist : Vehicle -> R) (rest : list Vehicle) (minDist : xnumber)
    (best : option Vehicle) : option Vehicle :=
  match rest with
  | [] => best
  | other :: rest' =>
      if (Vehicle.id other =? Vehicle.id vehicle)%Z then
        nearest_loop vehicle targetLane dist rest' minDist best
      else if negb (Vehicle.lane other =? targetLane)%Z then
        nearest_loop vehicle targetLane dist rest' minDist best
      else if Rgtb (dist other) 0 && xltb (Fin (dist other)) minDist then
        nearest_loop vehicle targetLane dist rest' (Fin (dist other))
          (Some other)
      else nearest_loop vehicle targetLane dist rest' minDist best
  end.

(** What the loop variables hold after the vehicles [seen]. *)
Definition loop_inv (vehicle : Vehicle) (targetLane : Z)
    (dist : Vehicle -> R) (seen : list Vehicle) (minDist : xnumber)
    (best : option Vehicle) : Prop :=
  match best with
  | None =>
      minDist = PInf
      /\ forall o, In o seen -> ~ eligible vehicle targetLane dist o
  | Some l =>
      minDist = Fin (dist l)
      /\ nearestFirst seen (eligible vehicle targetLane dist) dist (Some l)
  end.

(** A car of the spawner's geometry, settled on its lane. *)
Definition car (id : Z) (x : R) (lane : Z) (v : R) : Vehicle :=
  {| Vehicle.id := id; Vehicle.x := x; Vehicle.y := IZR lane;
     Vehicle.lane := lane; Vehicle.v := v; Vehicle.a := 0;
     Vehicle.length := 4.5; Vehicle.width := 2.0;
     Vehicle.color := "#10b981"%string; Vehicle.type := CAR;
     Vehicle.laneChangeTimer := 0; Vehicle.laneChangeDirection := 0%Z;
     Vehicle.targetSpeed := 30; Vehicle.isCrashed := false |}.

(** Two cars side by side in list order 2, 1, and a third behind them. *)
Definition tieModel : TrafficModel :=
  set_vehicles (newTrafficModel 5000)
    [car 2 10 0 30; car 1 10 0 30; car 3 0 0 30].

(** Two cars level behind, in list order 2, 1, seen from a car ahead. *)
Definition tieModelBehind : TrafficModel :=
  set_vehicles (newTrafficModel 5000)
    [car 3 20 0 30; car 2 10 0 30; car 1 10 0 30].

(** ** MOBIL, as the specification words it *)

(** The candidate lanes [lane - 1] then [lane + 1], intersected with
    [[0, 2]]. *)
Definition mobil_candidates (lane : Z) : list Z :=
  filter (fun l => (0 <=? l)%Z && (l <=? 2)%Z) [(lane - 1)%Z; (lane + 1)%Z].

(** Safety: no new follower, or the new follower's IDM acceleration behind
    the subject is at least -3.0. *)
Definition mobil_safe (this : TrafficModel) (veh : Vehicle)
    (config : SimulationConfig) (target : Z) : bool :=
  match getFollower this veh target with
  | None => true
  | Some newFollower =>
      Rleb (-3.0)
        (calculateAcceleration (Vehicle.v newFollower) (Some (Vehicle.v veh))
           (Some (Vehicle.x veh - Vehicle.x newFollower - Vehicle.length veh))
           (Vehicle.targetSpeed newFollower) config)
  end.

(** The acceleration of [ego] behind [leader], or on a free road. *)
Definition accBehind (ego : Vehicle) (leader : option Vehicle)
    (config : SimulationConfig) : R :=
  match leader with
  | Some l =>
      calculateAcceleration (Vehicle.v ego) (Some (Vehicle.v l))
        (Some (Vehicle.x l - Vehicle.x ego - Vehicle.length l))
        (Vehicle.targetSpeed ego) config
  | None =>
      calculateAcceleration (Vehicle.v ego) None None
        (Vehicle.targetSpeed ego) config
  end.

(** [a_c_new]: the subject behind the leader of the target lane. *)
Definition mobil_a_c_new (this : TrafficModel) (veh : Vehicle)
    (config : SimulationConfig) (target : Z) : R :=
  accBehind veh (getLeader this veh target) config.

(** [Delta_o]: what the old follower gains when the subject leaves. *)
Definition mobil_delta_o (this : TrafficModel) (veh : Vehicle)
    (config : SimulationConfig) : R :=
  match getFollower this veh (Vehicle.lane veh) with
  | None => 0
  | Some oldFollower =>
      accBehind oldFollower (getLeader this veh (Vehicle.lane veh)) config
      - calculateAcceleration (Vehicle.v oldFollower) (Some (Vehicle.v veh))
          (Some (Vehicle.x veh - Vehicle.x oldFollower - Vehicle.length veh))
          (Vehicle.targetSpeed oldFollower) config
  end.

(** +0.2 toward a higher-index lane, -0.2 toward a lower-index lane. *)
Definition mobil_bias (lane target : Z) : R :=
  if (lane <? target)%Z then 0.2
  else if (target <? lane)%Z then -0.2 else 0.

Definition mobil_accepts (this : TrafficModel) (veh : Vehicle) (a_c : R)
    (config : SimulationConfig) (target : Z) : bool :=
  mobil_safe this veh config target
  && Rgtb ((mobil_a_c_new this veh config target - a_c)
           + politeness config * mobil_delta_o this veh config
           + mobil_bias (Vehicle.lane veh) target) 0.1.

(** The indicator, as the specification has it: [sign(newLane - y)]. *)
Definition direction_sign (newLane : Z) (y : R) : Z :=
  if Rltb 0 (IZR newLane - y) then 1%Z
  else if Rltb (IZR newLane - y) 0 then (-1)%Z else 0%Z.

(** The indicator, as the code has it: right when the new lane lies beyond
    [y], left otherwise. *)
Definition direction_beyond (newLane : Z) (y : R) : Z :=
  if Rgtb (IZR newLane) y then 1%Z else (-1)%Z.

(** The decision: the first accepted candidate is committed, later ones are
    not looked at; without an accepted candidate nothing changes. *)
Definition mobil_decision (direction : Z -> R -> Z) (this : TrafficModel)
    (veh : Vehicle) (a_c : R) (config : SimulationConfig) : Vehicle :=
  match find (mobil_accepts this veh a_c config)
             (mobil_candidates (Vehicle.lane veh)) with
  | Some newLane =>
      {| Vehicle.id := Vehicle.id veh; Vehicle.x := Vehicle.x veh;
         Vehicle.y := Vehicle.y veh; Vehicle.lane := newLane;
         Vehicle.v := Vehicle.v veh; Vehicle.a := Vehicle.a veh;
         Vehicle.length := Vehicle.length veh;
         Vehicle.width := Vehicle.width veh;
         Vehicle.color := Vehicle.color veh; Vehicle.type := Vehicle.type veh;
         Vehicle.laneChangeTimer := 3.0;
         Vehicle.laneChangeDirection := direction newLane (Vehicle.y veh);
         Vehicle.targetSpeed := Vehicle.targetSpeed veh;
         Vehicle.isCrashed := Vehicle.isCrashed veh |}
  | None => veh
  end.

(** A car alone on lane 0 whose lateral position is that of lane 1. *)
Definition drifted : Vehicle := Vehicle.set_y (car 1 100 0 30) 1.

Definition driftedModel : TrafficModel :=
  set_vehicles (newTrafficModel 5000) [drifted].

(** ** Spawning *)

(** The spawner makes an attempt in this call: the headway test of
    handleSpawning for the draw [r]. *)
Definition attempts (dt : R) (config : SimulationConfig)
    (this : TrafficModel) (r : R) : bool :=
  xgtb (Fin (timeSinceLastSpawn this + dt))
       (xscale (r * 0.4 + 0.8) (xinv (inflowRate config / 3600))).

(** The lane the spawner chooses has more than 40 m free at the entry. *)
Definition entryClear (this : TrafficModel) : bool :=
  xgtb (at_lane (lastPos this) (bestLaneOf (lastPos this))) (Fin 40).

(** The vehicle spawnVehicle builds from the draws [r1] and [r2]. *)
Definition spawned (lane : Z) (truckRatio : R) (this : TrafficModel)
    (r1 r2 : R) : Vehicle :=
  let isTruck := Rltb r1 truckRatio in
  let targetSpeed :=
    (if isTruck then 85 + (r2 - 0.5) * 10 else 110 + (r2 - 0.5) * 20) / 3.6 in
  {| Vehicle.id := nextId this; Vehicle.x := 0; Vehicle.y := IZR lane;
     Vehicle.lane := lane; Vehicle.v := targetSpeed * 0.9; Vehicle.a := 0;
     Vehicle.length := if isTruck then 14 else 4.5;
     Vehicle.width := if isTruck then 2.6 else 2.0;
     Vehicle.color :=
       if isTruck then "#a78bfa"%string else getCarColor targetSpeed;
     Vehicle.type := if isTruck then TRUCK else CAR;
     Vehicle.laneChangeTimer := 0; Vehicle.laneChangeDirection := 0%Z;
     Vehicle.targetSpeed := targetSpeed; Vehicle.isCrashed := false |}.

(** An empty road on which the spawner has waited two seconds. *)
Definition waitingModel : TrafficModel :=
  set_timeSinceLastSpawn (newTrafficModel 5000) 2.

(** A random source that always draws 0. *)
Definition zeros : nat -> R := fun _ => 0.

(** ** Scenarios for the step *)

(** The baseline without perceptual noise. *)
Definition quiet : SimulationConfig :=
  {| inflowRate := 2000; timeScale := 1.0; truckRatio := 0.15;
     isPaused := false; cfgRoadLength := 5000; politeness := 0.2;
     safeTimeGap := 1.5; maxAccel := 1.5; accelerationNoise := 0 |}.

(** A car on lane 2 whose cooldown has 0.01 s left. *)
Definition cooling : Vehicle :=
  Vehicle.set_laneChangeTimer (car 1 100 2 30) 0.01.

Definition coolingModel : TrafficModel :=
  set_vehicles (newTrafficModel 5000) [cooling].

(** ** The first loop of the step, by draw *)

(** The vehicle [veh] gets a noise term: a draw is consumed for it. *)
Definition usesNoise (config : SimulationConfig) (veh : Vehicle) : bool :=
  Rgtb (accelerationNoise config) 0 && Rgtb (Vehicle.v veh) 1.

(** [accCurrent] of the loop body when the draw, if one is made, is [r]. *)
Definition currentAcc (config : SimulationConfig) (this : TrafficModel)
    (visited : list Vehicle) (veh : Vehicle) (pending : list Vehicle)
    (r : R) : R :=
  let here := set_vehicles this (visited ++ veh :: pending) in
  let base := accBehind veh (getLeader here veh (Vehicle.lane veh)) config in
  if usesNoise config veh
  then base + (r - 0.5) * accelerationNoise config else base.

(** The vehicle the loop body leaves when the draw, if one is made, is
    [r]. *)
Definition decided (config : SimulationConfig) (dt : R)
    (this : TrafficModel) (visited : list Vehicle) (veh : Vehicle)
    (pending : list Vehicle) (r : R) : Vehicle :=
  if Vehicle.isCrashed veh then Vehicle.set_v (Vehicle.set_a veh 0) 0
  else
    let acc := currentAcc config this visited veh pending r in
    let veh1 := Vehicle.set_a veh acc in
    if Rleb (Vehicle.laneChangeTimer veh) 0 then
      checkLaneChange (set_vehicles this (visited ++ veh1 :: pending))
        veh1 acc config
    else Vehicle.set_laneChangeTimer veh1 (Vehicle.laneChangeTimer veh - dt).

(** The cursor after the loop body. *)
Definition afterDecide (config : SimulationConfig) (veh : Vehicle)
    (pos : nat) : nat :=
  if negb (Vehicle.isCrashed veh) && usesNoise config veh then S pos else pos.

(** The vehicles a step keeps after moving them: those not beyond the end
    of the road. *)
Definition onRoad (roadLength : R) (veh : Vehicle) : bool :=
  negb (Rgtb (Vehicle.x veh) roadLength).

(** ** Bounds *)

(** The bounds of the data model on one vehicle. *)
Definition withinBounds (roadLength : R) (veh : Vehicle) : Prop :=
  0 <= Vehicle.v veh
  /\ 0 <= Vehicle.x veh <= roadLength
  /\ (0 <= Vehicle.lane veh <= 2)%Z.

(** What a step needs of a vehicle it finds: a position on the road side
    of the entry and one of the three lanes. *)
Definition placed (veh : Vehicle) : Prop :=
  0 <= Vehicle.x veh /\ (0 <= Vehicle.lane veh <= 2)%Z.

(** The draws of [Math.random()] lie in [[0, 1)]. *)
Definition unitDraws (rnd : nat -> R) : Prop := forall n, 0 <= rnd n < 1.

(** The models the program can be in: a model built with a road length that
    is not negative, and what step (with a timeScale that is not negative),
    reset, triggerAccident and the callback of a timer make of such a
    model. *)
Inductive reachable : TrafficModel -> Prop :=
| reach_new (len : R) :
    0 <= len -> reachable (newTrafficModel len)
| reach_step (this : TrafficModel) (config : SimulationConfig)
    (rnd : nat -> R) (pos : nat) :
    reachable this -> 0 <= timeScale config -> unitDraws rnd ->
    reachable (fst (step config this rnd pos))
| reach_reset (this : TrafficModel) :
    reachable this -> reachable (reset this)
| reach_triggerAccident (this : TrafficModel) :
    reachable this -> reachable (fst (triggerAccident this))
| reach_fireTimeout (this : TrafficModel) (place : option nat) :
    reachable this -> reachable (fireTimeout place this).

(** The vehicles as they are at the end of the integration of a step,
    before any is removed. *)
Definition endOfIntegration (config : SimulationConfig)
    (this : TrafficModel) (rnd : nat -> R) (pos : nat) : list Vehicle :=
  let dt := DT * timeScale config in
  let sorted := set_vehicles this (sortByXDescending (vehicles this)) in
  map (integrateVehicle dt)
      (fst (decideLoop config dt sorted [] (vehicles sorted) rnd pos)).

(** ** Random sources that agree *)

(** Two random sources give the same draws at the cursors from [from] up
    to, not including, [to]. *)
Definition agree (rnd1 rnd2 : nat -> R) (from to : nat) : Prop :=
  forall n, (from <= n < to)%nat -> rnd1 n = rnd2 n.

(** The cursor only moves forward. *)
Definition forward {A : Type} (m : Rand A) : Prop :=
  forall rnd pos, (pos <= snd (m rnd pos))%nat.

(** The computation depends on the random source only through the draws it
    consumes. *)
Definition steady {A : Type} (m : Rand A) : Prop :=
  forall rnd1 rnd2 pos,
    agree rnd1 rnd2 pos (snd (m rnd1 pos)) -> m rnd1 pos = m rnd2 pos.

Definition tame {A : Type} (m : Rand A) : Prop := forward m /\ steady m.

(** A random source that draws 0 first and 0.5 ever after. *)
Definition zeroThenHalf : nat -> R :=
  fun n => match n with O => 0 | S _ => 0.5 end.

(** ** Incidents *)

(** The number of vehicles that are crashed. *)
Definition crashedCount (this : TrafficModel) : nat :=
  List.length (filter Vehicle.isCrashed (vehicles this)).

(** Car 2 on lane 0 ahead of car 1 on the middle lane. *)
Definition overtaking : TrafficModel :=
  set_vehicles (newTrafficModel 5000) [car 2 3000 0 30; car 1 2000 1 30].

(** Car 1 after the incident was triggered on it. *)
Definition stopped : Vehicle :=
  {| Vehicle.id := 1; Vehicle.x := 2000; Vehicle.y := 1; Vehicle.lane := 1;
     Vehicle.v := 0; Vehicle.a := 0; Vehicle.length := 4.5;
     Vehicle.width := 2.0; Vehicle.color := "#ef4444"%string;
     Vehicle.type := CAR; Vehicle.laneChangeTimer := 0;
     Vehicle.laneChangeDirection := 0%Z; Vehicle.targetSpeed := 30;
     Vehicle.isCrashed := true |}.

(** Car 2 one step later: it has moved on and started its change to the
    middle lane. *)
Definition merging : Vehicle :=
  {| Vehicle.id := 2; Vehicle.x := 3000 + 30 * (1 / 60);
     Vehicle.y := 2.5 * (1 / 60); Vehicle.lane := 1;
     Vehicle.v := 30; Vehicle.a := 0; Vehicle.length := 4.5;
     Vehicle.width := 2.0; Vehicle.color := "#10b981"%string;
     Vehicle.type := CAR; Vehicle.laneChangeTimer := 3.0;
     Vehicle.laneChangeDirection := 1%Z; Vehicle.targetSpeed := 30;
     Vehicle.isCrashed := false |}.

(** The model of [overtaking] after triggerAccident, and after one more
    step with the config [quiet]. *)
Definition blocked : TrafficModel :=
  {| vehicles := [car 2 3000 0 30; stopped]; roadLength := 5000; lanes := 3;
     nextId := 1; timeSinceLastSpawn := 0; fdPoints := []; statsTimer := 0;
     blockedLane := Some 1%Z; blockedLocation := Some 2000 |}.

Definition blockedLater : TrafficModel :=
  {| vehicles := [merging; stopped]; roadLength := 5000; lanes := 3;
     nextId := 1; timeSinceLastSpawn := 0 + 1 / 60; fdPoints := [];
     statsTimer := 0 + 1 / 60;
     blockedLane := Some 1%Z; blockedLocation := Some 2000 |}.

(** Car 2 of [overtaking] when the first loop of the step has decided on
    the change to the middle lane and before it has moved. *)
Definition turning : Vehicle :=
  {| Vehicle.id := 2; Vehicle.x := 3000; Vehicle.y := 0; Vehicle.lane := 1;
     Vehicle.v := 30; Vehicle.a := 0; Vehicle.length := 4.5;
     Vehicle.width := 2.0; Vehicle.color := "#10b981"%string;
     Vehicle.type := CAR; Vehicle.laneChangeTimer := 3.0;
     Vehicle.laneChangeDirection := 1%Z; Vehicle.targetSpeed := 30;
     Vehicle.isCrashed := false |}.

(** ** Reset *)

(** [n] calls of step with the same config: the model after the last. *)
Fixpoint after (n : nat) (config : SimulationConfig) (this : TrafficModel)
    : Rand TrafficModel :=
  match n with
  | O => ret this
  | S n' => this' <- step config this ;; after n' config this'
  end.

(** An empty road of 5000 m with the given timers. *)
Definition emptyRoad (sinceSpawn stats : R) : TrafficModel :=
  {| vehicles := []; roadLength := 5000; lanes := 3; nextId := 1;
     timeSinceLastSpawn := sinceSpawn; fdPoints := []; statsTimer := stats;
     blockedLane := None; blockedLocation := None |}.

(** The largest inflow and nearly the largest timeScale of the control
    panel, cars only, no noise. *)
Definition brisk : SimulationConfig :=
  {| inflowRate := 3000; timeScale := 4.9; truckRatio := 0;
     isPaused := false; cfgRoadLength := 5000; politeness := 0.2;
     safeTimeGap := 1.5; maxAccel := 1.5; accelerationNoise := 0 |}.

(** The config lies in the ranges of the control panel. *)
Definition inRange (config : SimulationConfig) : Prop :=
  500 <= inflowRate config <= 3000
  /\ 0.1 <= timeScale config <= 5.0
  /\ 0 <= truckRatio config <= 0.4
  /\ 0 <= politeness config <= 1
  /\ 0.5 <= safeTimeGap config <= 3.0
  /\ 0 <= accelerationNoise config <= 1.

(** ** Order of the array *)

(** The array is in descending order of [x]. *)
Definition descending (vs : list Vehicle) : Prop :=
  StronglySorted (fun a b => Vehicle.x b <= Vehicle.x a) vs.

(** The vehicle is at position [c]. *)
Definition atX (c : R) (v : Vehicle) : bool :=
  if Req_dec_T (Vehicle.x v) c then true else false.

(** ** Lane changes *)

(** Every field of the two vehicles but [lane], [laneChangeTimer] and
    [laneChangeDirection] is the same. *)
Definition sameButLane (veh veh' : Vehicle) : Prop :=
  Vehicle.id veh' = Vehicle.id veh
  /\ Vehicle.x veh' = Vehicle.x veh
  /\ Vehicle.y veh' = Vehicle.y veh
  /\ Vehicle.v veh' = Vehicle.v veh
  /\ Vehicle.a veh' = Vehicle.a veh
  /\ Vehicle.length veh' = Vehicle.length veh
  /\ Vehicle.width veh' = Vehicle.width veh
  /\ Vehicle.color veh' = Vehicle.color veh
  /\ Vehicle.type veh' = Vehicle.type veh
  /\ Vehicle.targetSpeed veh' = Vehicle.targetSpeed veh
  /\ Vehicle.isCrashed veh' = Vehicle.isCrashed veh.

(** The vehicle is the only one on the road: every entry of the array has
    its id. *)
Definition alone (this : TrafficModel) (veh : Vehicle) : Prop :=
  forall other, In other (vehicles this) -> Vehicle.id other = Vehicle.id veh.

(** A model that holds the one car given. *)
Definition roadWith (veh : Vehicle) : TrafficModel :=
  set_vehicles (newTrafficModel 5000) [veh].

(** ** What a step makes of a vehicle *)

(** The fields a step never writes are the same in the two vehicles. *)
Definition sameIdentity (veh veh' : Vehicle) : Prop :=
  Vehicle.id veh' = Vehicle.id veh
  /\ Vehicle.type veh' = Vehicle.type veh
  /\ Vehicle.length veh' = Vehicle.length veh
  /\ Vehicle.width veh' = Vehicle.width veh
  /\ Vehicle.color veh' = Vehicle.color veh
  /\ Vehicle.targetSpeed veh' = Vehicle.targetSpeed veh
  /\ Vehicle.isCrashed veh' = Vehicle.isCrashed veh.

(** The step relates the array before it to the array after it through
    [successor]: each vehicle, in the order the sort gives, has a successor
    at the end of the integration; the array after the step holds the
    successors that have not passed the end of the road, in order, followed
    by the vehicle spawned in this step, if any, which takes the id
    [nextId]. *)
Definition stepRelates (successor : Vehicle -> Vehicle -> Prop)
    (config : SimulationConfig) (this : TrafficModel) (rnd : nat -> R)
    (pos : nat) : Prop :=
  let this' := fst (step config this rnd pos) in
  let moved := endOfIntegration config this rnd pos in
  Forall2 successor (sortByXDescending (vehicles this)) moved
  /\ exists newcomers,
       vehicles this' = filter (onRoad (roadLength this)) moved ++ newcomers
       /\ nextId this' = (nextId this + Z.of_nat (List.length newcomers))%Z
       /\ (newcomers = []
           \/ exists veh,
                newcomers = [veh]
                /\ Vehicle.id veh = nextId this
                /\ Vehicle.x veh = 0
                /\ Vehicle.isCrashed veh = false
                /\ Vehicle.laneChangeTimer veh = 0).

(** How a step moves a vehicle along the road in the interval [dt]. *)
Definition movedAlong (dt : R) (veh veh' : Vehicle) : Prop :=
  0 <= Vehicle.v veh'
  /\ Vehicle.x veh' = Vehicle.x veh + Vehicle.v veh' * dt
  /\ (Vehicle.isCrashed veh = false ->
      Vehicle.v veh' = Rmax 0 (Vehicle.v veh + Vehicle.a veh' * dt)).

(** What a step may do to the lane of a vehicle. *)
Definition laneKept (dt : R) (veh veh' : Vehicle) : Prop :=
  (Vehicle.lane veh' = Vehicle.lane veh
   \/ (Vehicle.isCrashed veh = false
       /\ Vehicle.laneChangeTimer veh <= 0
       /\ Vehicle.laneChangeTimer veh' = 3.0
       /\ (Vehicle.lane veh' = Vehicle.lane veh - 1
           \/ Vehicle.lane veh' = Vehicle.lane veh + 1)%Z))
  /\ (Vehicle.isCrashed veh = false -> 0 < Vehicle.laneChangeTimer veh ->
      Vehicle.laneChangeTimer veh' = Vehicle.laneChangeTimer veh - dt).

(** A crashed vehicle through a step: stopped, in place, on its lane, its
    cooldown frozen. *)
Definition pinned (veh veh' : Vehicle) : Prop :=
  Vehicle.isCrashed veh = true ->
  Vehicle.v veh' = 0 /\ Vehicle.a veh' = 0
  /\ Vehicle.x veh' = Vehicle.x veh
  /\ Vehicle.lane veh' = Vehicle.lane veh
  /\ Vehicle.laneChangeTimer veh' = Vehicle.laneChangeTimer veh.

(** ** Identifiers *)

(** No two vehicles of the array share an id, and every id in use is below
    [nextId]. *)
Definition distinctIds (this : TrafficModel) : Prop :=
  NoDup (map Vehicle.id (vehicles this))
  /\ forall veh, In veh (vehicles this) ->
       (Vehicle.id veh < nextId this)%Z.

(** Two cars on the road, the next id being 3. *)
Definition convoy : TrafficModel :=
  {| vehicles := [car 2 3000 0 30; car 1 2000 1 30]; roadLength := 5000;
     lanes := 3; nextId := 3; timeSinceLastSpawn := 0; fdPoints := [];
     statsTimer := 0; blockedLane := None; blockedLocation := None |}.

(** ** Arrivals and samples *)

(** The baseline with the inflow shut off. *)
Definition shut : SimulationConfig :=
  {| inflowRate := 0; timeScale := 1.0; truckRatio := 0.15;
     isPaused := false; cfgRoadLength := 5000; politeness := 0.2;
     safeTimeGap := 1.5; maxAccel := 1.5; accelerationNoise := 0.3 |}.

(** The cursor of the random source when the step reaches handleSpawning. *)
Definition spawnCursor (config : SimulationConfig) (this : TrafficModel)
    (rnd : nat -> R) (pos : nat) : nat :=
  let dt := DT * timeScale config in
  let sorted := set_vehicles this (sortByXDescending (vehicles this)) in
  snd (decideLoop config dt sorted [] (vehicles sorted) rnd pos).

(** The model when the step reaches handleSpawning. *)
Definition beforeSpawning (config : SimulationConfig) (this : TrafficModel)
    (rnd : nat -> R) (pos : nat) : TrafficModel :=
  set_vehicles this
    (filter (onRoad (roadLength this)) (endOfIntegration config this rnd pos)).

(** The ring of samples holds at most 200 points and the statistics timer
    lies in [[0, 1]]. *)
Definition ringBounded (this : TrafficModel) : Prop :=
  (List.length (fdPoints this) <= 200)%nat /\ 0 <= statsTimer this <= 1.

(** [points'] is [points] with [p] pushed at the end and, when that makes
    more than 200, the oldest point shifted out. *)
Definition pushed (p : FDPoint) (points points' : list FDPoint) : Prop :=
  points' = (if (200 <? List.length (points ++ [p]))%nat
             then tl (points ++ [p]) else points ++ [p]).

(** ** The lateral interpolation *)

(** The lateral distance of a vehicle from the centre of its lane, in
    lanes. *)
Definition offset (veh : Vehicle) : R :=
  Rabs (Vehicle.y veh - IZR (Vehicle.lane veh)).

(** A vehicle whose offset lies strictly between 0.05 and the lateral move
    of a step less 0.05 and that keeps its lane is found in the same band
    after the step, its signal as it was. *)
Definition swaying (dt : R) (veh veh' : Vehicle) : Prop :=
  0.05 < offset veh < 2.5 * dt - 0.05 ->
  Vehicle.lane veh' = Vehicle.lane veh ->
  offset veh' = 2.5 * dt - offset veh
  /\ 0.05 < offset veh' < 2.5 * dt - 0.05
  /\ Vehicle.laneChangeDirection veh' = Vehicle.laneChangeDirection veh.

(** The baseline at four and a half times real time. *)
Definition hasty : SimulationConfig :=
  {| inflowRate := 2000; timeScale := 4.5; truckRatio := 0.15;
     isPaused := false; cfgRoadLength := 5000; politeness := 0.2;
     safeTimeGap := 1.5; maxAccel := 1.5; accelerationNoise := 0.3 |}.

(** A car on lane 2 that is a sixteenth of a lane short of its centre, its
    left signal on. *)
Definition offCentre : Vehicle :=
  Vehicle.set_laneChangeDirection (Vehicle.set_y (car 1 100 2 30) 1.9375) 1.

(** ** Incidents *)

(** The colour a vehicle is given: red while crashed, otherwise purple for
    a truck and the colour of its desired speed for a car. *)
Definition livery (veh : Vehicle) : string :=
  if Vehicle.isCrashed veh then "#ef4444"%string
  else match Vehicle.type veh with
       | TRUCK => "#a78bfa"%string
       | CAR => getCarColor (Vehicle.targetSpeed veh)
       end.

Definition liveried (this : TrafficModel) : Prop :=
  Forall (fun veh => Vehicle.color veh = livery veh) (vehicles this).

(** The index of the vehicle [find] returns in triggerAccident. *)
Fixpoint placeOf (vs : list Vehicle) : option nat :=
  match vs with
  | [] => None
  | v :: rest => if isCandidate v then Some O else option_map S (placeOf rest)
  end.

(** The array with the speed of the first candidate set to 0. *)
Fixpoint haltFirst (vs : list Vehicle) : list Vehicle :=
  match vs with
  | [] => []
  | v :: rest =>
      if isCandidate v then Vehicle.set_v v 0 :: rest else v :: haltFirst rest
  end.

(** No vehicle is crashed and no blockage is recorded. *)
Definition unobstructed (this : TrafficModel) : Prop :=
  Forall (fun veh => Vehicle.isCrashed veh = false) (vehicles this)
  /\ blockedLane this = None /\ blockedLocation this = None.

(** ** Models in use *)

(** A config a step can be run with: time does not run backwards and the
    comfortable acceleration, by whose square root the IDM divides, is
    positive. *)
Definition drivable (config : SimulationConfig) : Prop :=
  0 <= timeScale config /\ 0 < maxAccel config.

(** A config of the application: the sliders of the control panel in their
    ranges and [maxAccel], which has no slider, positive. *)
Definition panel (config : SimulationConfig) : Prop :=
  inRange config /\ 0 < maxAccel config.

(** The models the program can be in when every step it has made was run
    with an [allowed] config and draws in [[0, 1)]. *)
Inductive reachableBy (allowed : SimulationConfig -> Prop)
    : TrafficModel -> Prop :=
| by_new (len : R) :
    0 <= len -> reachableBy allowed (newTrafficModel len)
| by_step (this : TrafficModel) (config : SimulationConfig)
    (rnd : nat -> R) (pos : nat) :
    reachableBy allowed this -> allowed config -> unitDraws rnd ->
    reachableBy allowed (fst (step config this rnd pos))
| by_reset (this : TrafficModel) :
    reachableBy allowed this -> reachableBy allowed (reset this)
| by_triggerAccident (this : TrafficModel) :
    reachableBy allowed this ->
    reachableBy allowed (fst (triggerAccident this))
| by_fireTimeout (this : TrafficModel) (place : option nat) :
    reachableBy allowed this -> reachableBy allowed (fireTimeout place this).



(** A fresh model that has made one step of [brisk], was reset, and has
    made twelve more: the first car has just entered and the first sample
    was taken. *)
Definition restarted : TrafficModel :=
  fst (after 12 brisk
         (reset (fst (step brisk (newTrafficModel 5000) zeros 0%nat)))
         zeros 1%nat).

(** The car that has entered in [restarted]. *)
Definition entrant : Vehicle :=
  spawned 2 0 (emptyRoad 0 0) 0 0.


(** Cars close to the entry on lanes 0 and 2, the car of lane 1 further
    on, and two seconds since the last spawn. *)
Definition busyEntry : TrafficModel :=
  set_timeSinceLastSpawn
    (set_vehicles (newTrafficModel 5000)
       [car 3 100 1 30; car 2 30 2 30; car 1 10 0 30])
    2.

(** A car on the road, a ring of 200 samples and the statistics timer at
    one second. *)
Definition fullRing : TrafficModel :=
  {| vehicles := [car 1 2000 1 30]; roadLength := 5000;
     lanes := 3; nextId := 2; timeSinceLastSpawn := 0;
     fdPoints := repeat {| k := 0.4; q := 43.2 |} 200;
     statsTimer := 1; blockedLane := None; blockedLocation := None |}.

(** A history of the application that is full. *)
Definition fullHistory : list HistoryPoint :=
  {| time := 0; historyFlow := 1 |}
  :: repeat {| time := 1; historyFlow := 2 |} 99.

(** ** The vehicle an incident strikes *)

(** [struck] is [candidate] as triggerAccident leaves it: stopped, red and
    crashed, every other field as it was. *)
Definition struckFrom (candidate struck : Vehicle) : Prop :=
  Vehicle.v struck = 0
  /\ Vehicle.color struck = "#ef4444"%string
  /\ Vehicle.isCrashed struck = true
  /\ Vehicle.id struck = Vehicle.id candidate
  /\ Vehicle.x struck = Vehicle.x candidate
  /\ Vehicle.y struck = Vehicle.y candidate
  /\ Vehicle.lane struck = Vehicle.lane candidate
  /\ Vehicle.a struck = Vehicle.a candidate
  /\ Vehicle.length struck = Vehicle.length candidate
  /\ Vehicle.width struck = Vehicle.width candidate
  /\ Vehicle.type struck = Vehicle.type candidate
  /\ Vehicle.laneChangeTimer struck = Vehicle.laneChangeTimer candidate
  /\ Vehicle.laneChangeDirection struck
     = Vehicle.laneChangeDirection candidate
  /\ Vehicle.targetSpeed struck = Vehicle.targetSpeed candidate.

(** The vehicle on lane 1 with [1000 < x < 4000] that comes first in the
    array is struck; the array is otherwise as it was. *)
Definition strikesFirst (vs vs' : list Vehicle) (candidate : Vehicle)
    : Prop :=
  exists before after struck,
    vs = before ++ candidate :: after
    /\ (forall veh, In veh before ->
          ~ (Vehicle.lane veh = 1%Z /\ 1000 < Vehicle.x veh < 4000))
    /\ vs' = before ++ struck :: after
    /\ struckFrom candidate struck.
(** * Properties *)

(** ** Comparisons *)

Lemma Rltb_true (a b : R) : a < b -> Rltb a b = true.
Proof. intros H. unfold Rltb. destruct (Rlt_dec a b); [reflexivity | contradiction]. Qed.

Lemma Rltb_false (a b : R) : ~ a < b -> Rltb a b = false.
Proof. intros H. unfold Rltb. destruct (Rlt_dec a b); [contradiction | reflexivity]. Qed.

Lemma Rltb_iff (a b : R) : Rltb a b = true <-> a < b.
Proof.
  unfold Rltb. destruct (Rlt_dec a b); split; intros; try discriminate; tauto.
Qed.

Lemma Rltb_iff_false (a b : R) : Rltb a b = false <-> b <= a.
Proof.
  unfold Rltb. destruct (Rlt_dec a b); split; intros; try discriminate;
    try reflexivity; lra.
Qed.

Lemma Rleb_true (a b : R) : a <= b -> Rleb a b = true.
Proof. intros H. unfold Rleb. destruct (Rle_dec a b); [reflexivity | contradiction]. Qed.

Lemma Rleb_false (a b : R) : ~ a <= b -> Rleb a b = false.
Proof. intros H. unfold Rleb. destruct (Rle_dec a b); [contradiction | reflexivity]. Qed.

Lemma Rgtb_iff (a b : R) : Rgtb a b = true <-> a > b.
Proof. unfold Rgtb. rewrite Rltb_iff. lra. Qed.

Lemma Rgtb_iff_false (a b : R) : Rgtb a b = false <-> a <= b.
Proof. unfold Rgtb. apply Rltb_iff_false. Qed.

Lemma xinv_nonzero (d : R) : d <> 0 -> xinv d = Fin (1 / d).
Proof. intros H. unfold xinv. destruct (Req_dec_T d 0); [contradiction | reflexivity]. Qed.

Lemma xinv_zero : xinv 0 = PInf.
Proof. unfold xinv. destruct (Req_dec_T 0 0); [reflexivity | contradiction]. Qed.

Lemma Math_abs_within (r c : R) : - c <= r <= c -> Rltb c (Math_abs r) = false.
Proof.
  intros H. apply Rgtb_iff_false. unfold Math_abs. apply Rabs_le. lra.
Qed.

Lemma Math_abs_beyond (r c : R) : r < - c \/ c < r -> Rltb c (Math_abs r) = true.
Proof.
  intros H. apply Rgtb_iff. unfold Math_abs, Rabs.
  destruct (Rcase_abs r); lra.
Qed.

(** Settles every comparison of the goal whose operands are numerals or
    are ordered by the hypotheses. *)
Ltac Rdecide :=
  repeat match goal with
  | |- context [Rgtb ?a ?b] => unfold Rgtb
  | |- context [Rltb ?c (Math_abs ?r)] =>
      first [ rewrite (Math_abs_within r c) by lra
            | rewrite (Math_abs_beyond r c) by lra ]
  | |- context [Rltb ?a ?b] =>
      first [ rewrite (Rltb_true a b) by lra
            | rewrite (Rltb_false a b) by lra ]
  | |- context [Rleb ?a ?b] =>
      first [ rewrite (Rleb_true a b) by lra
            | rewrite (Rleb_false a b) by lra ]
  end.

Lemma Math_max_Rmax (a b : R) : Math_max a b = Rmax a b.
Proof.
  unfold Math_max, Rmax, Rltb.
  destruct (Rlt_dec a b), (Rle_dec a b); try reflexivity; lra.
Qed.

Lemma Math_max_floor (s : R) : 0.1 <= s -> Math_max 0.1 s = s.
Proof.
  intros H. unfold Math_max, Rltb. destruct (Rlt_dec 0.1 s); lra.
Qed.

(** ** The IDM function *)


(** C2: calculateAcceleration returns the free term when the leader's speed
    or the gap is absent, and the free term minus the interaction term
    otherwise; its value is a function of its arguments, and of the config
    only through [maxAccel] and [safeTimeGap]. *)
Theorem calculateAcceleration_formula :
  forall (v : R) (vLeader gap : option R) (v0 : R) (config : SimulationConfig),
    calculateAcceleration v vLeader gap v0 config
    = idm_spec (maxAccel config) (safeTimeGap config) v vLeader gap v0.
Proof.
  intros v vLeader gap v0 config.
  unfold calculateAcceleration, idm_spec, idm_free, idm_s_star.
  destruct vLeader as [vl|], gap as [s|]; try reflexivity.
  rewrite Math_max_Rmax, (Rmax_comm 0.1 s).
  unfold IDM_DELTA, JAM_DISTANCE, COMFORT_DECEL. ring.
Qed.

(** C9: the free acceleration vanishes at the desired speed, and when the
    gap equals the desired gap [s*] (and is at least the floor 0.1) the
    interaction term is [- a_max]. *)
Theorem idm_laws :
  forall config : SimulationConfig,
    (forall v0 : R, 0 < v0 ->
       calculateAcceleration v0 None None v0 config = 0)
    /\ (forall v vLeader s v0 : R,
          s = JAM_DISTANCE + v * safeTimeGap config
              + (v * (v - vLeader))
                / (2 * sqrt (maxAccel config * COMFORT_DECEL)) ->
          0.1 <= s ->
          calculateAcceleration v (Some vLeader) (Some s) v0 config
          = calculateAcceleration v None None v0 config - maxAccel config).
Proof.
  intros config. split.
  - intros v0 Hv0. unfold calculateAcceleration, IDM_DELTA.
    replace (v0 / v0) with 1 by (field; lra). ring.
  - intros v vLeader s v0 Hs Hfloor. unfold calculateAcceleration.
    rewrite <- Hs, (Math_max_floor s Hfloor).
    replace (s / s) with 1 by (field; lra). ring.
Qed.


Lemma idm_laws_witness :
  calculateAcceleration 30 None None 30 baseline = 0
  /\ calculateAcceleration 10 (Some 10) (Some 17) 30 baseline
     = calculateAcceleration 10 None None 30 baseline - 1.5.
Proof.
  destruct (idm_laws baseline) as [Hfree Hint]. split.
  - apply Hfree. lra.
  - apply (Hint 10 10 17 30).
    + unfold JAM_DISTANCE, baseline; simpl. lra.
    + lra.
Defined.

(** ** Neighbour queries *)

Section NearestLoop.
Variable vehicle : Vehicle.
Variable targetLane : Z.
Variable dist : Vehicle -> R.

Let ok := eligible vehicle targetLane dist.

Lemma eligible_dec_step (other : Vehicle) :
  (Vehicle.id other =? Vehicle.id vehicle)%Z = false ->
  negb (Vehicle.lane other =? targetLane)%Z = false ->
  (ok other <-> 0 < dist other).
Proof.
  intros Hid Hlane. unfold ok, eligible.
  apply Z.eqb_neq in Hid. apply negb_false_iff, Z.eqb_eq in Hlane. tauto.
Qed.

Lemma loop_inv_skip (seen : list Vehicle) (other : Vehicle)
    (minDist : xnumber) (best : option Vehicle) :
  ~ ok other -> loop_inv vehicle targetLane dist seen minDist best ->
  loop_inv vehicle targetLane dist (seen ++ [other]) minDist best.
Proof.
  intros Hno Hinv. unfold loop_inv in *. destruct best as [l|].
  - destruct Hinv as [Hmin (before & after & Hseen & Hok & Hb & Ha)].
    split; [exact Hmin|]. exists before, (after ++ [other]).
    split; [|split; [exact Hok|split; [exact Hb|]]].
    + rewrite Hseen, <- app_assoc. reflexivity.
    + intros o Hin Hoko. apply in_app_or in Hin. destruct Hin as [Hin|[<-|[]]].
      * now apply Ha.
      * contradiction.
  - destruct Hinv as [Hmin Hnone]. split; [exact Hmin|].
    intros o Hin. apply in_app_or in Hin. destruct Hin as [Hin|[<-|[]]].
    + now apply Hnone.
    + exact Hno.
Qed.

Lemma nearest_loop_spec (rest seen : list Vehicle) (minDist : xnumber)
    (best : option Vehicle) :
  loop_inv vehicle targetLane dist seen minDist best ->
  nearestFirst (seen ++ rest) ok dist
    (nearest_loop vehicle targetLane dist rest minDist best).
Proof.
  revert seen minDist best.
  induction rest as [|other rest IH]; intros seen minDist best Hinv.
  - rewrite app_nil_r. simpl. unfold loop_inv in Hinv.
    destruct best as [l|]; tauto.
  - replace (seen ++ other :: rest) with ((seen ++ [other]) ++ rest)
      by (rewrite <- app_assoc; reflexivity).
    cbn [nearest_loop].
    destruct (Vehicle.id other =? Vehicle.id vehicle)%Z eqn:Hid.
    { apply IH, loop_inv_skip; [|exact Hinv].
      unfold ok, eligible. apply Z.eqb_eq in Hid. tauto. }
    destruct (negb (Vehicle.lane other =? targetLane)%Z) eqn:Hlane.
    { apply IH, loop_inv_skip; [|exact Hinv].
      unfold ok, eligible. apply negb_true_iff, Z.eqb_neq in Hlane. tauto. }
    pose proof (eligible_dec_step other Hid Hlane) as Hok.
    destruct (Rgtb (dist other) 0) eqn:Hpos; cbn [andb].
    2:{ apply IH, loop_inv_skip; [|exact Hinv].
        apply Rgtb_iff_false in Hpos. rewrite Hok. lra. }
    apply Rgtb_iff in Hpos.
    destruct (xltb (Fin (dist other)) minDist) eqn:Hlt.
    + (* a strictly nearer vehicle: it becomes the best *)
      apply IH. unfold loop_inv. split; [reflexivity|].
      exists seen, []. split; [reflexivity|split; [|split]].
      * apply Hok; lra.
      * intros o Hin Hoko. unfold loop_inv in Hinv.
        destruct best as [l|].
        -- destruct Hinv as [-> (before & after & Hseen & _ & Hb & Ha)].
           simpl in Hlt. apply Rltb_iff in Hlt.
           rewrite Hseen in Hin. apply in_app_or in Hin.
           destruct Hin as [Hin|[<-|Hin]].
           ++ specialize (Hb o Hin Hoko). lra.
           ++ exact Hlt.
           ++ specialize (Ha o Hin Hoko). lra.
        -- destruct Hinv as [_ Hnone]. exfalso. now apply (Hnone o).
      * intros o [].
    + (* not nearer than the best so far: the best stays *)
      unfold loop_inv in Hinv. destruct best as [l|].
      * destruct Hinv as [-> (before & after & Hseen & Hokl & Hb & Ha)].
        simpl in Hlt. apply Rltb_iff_false in Hlt.
        apply IH. unfold loop_inv. split; [reflexivity|].
        exists before, (after ++ [other]).
      split; [|split; [exact Hokl|split; [exact Hb|]]].
        -- rewrite Hseen, <- app_assoc. reflexivity.
        -- intros o Hin Hoko. apply in_app_or in Hin.
           destruct Hin as [Hin|[<-|[]]]; [now apply Ha | exact Hlt].
      * destruct Hinv as [-> _]. simpl in Hlt. discriminate.
Qed.
End NearestLoop.

Lemma getLeader_nearest_loop (vehicle : Vehicle) (targetLane : Z)
    (rest : list Vehicle) (minDist : xnumber) (leader : option Vehicle) :
  getLeader_loop vehicle targetLane rest minDist leader
  = nearest_loop vehicle targetLane (distAhead vehicle) rest minDist leader.
Proof.
  revert minDist leader. induction rest as [|other rest IH]; intros; simpl.
  - reflexivity.
  - unfold distAhead at 1 2 3. rewrite !IH. reflexivity.
Qed.

Lemma getFollower_nearest_loop (vehicle : Vehicle) (targetLane : Z)
    (rest : list Vehicle) (minDist : xnumber) (follower : option Vehicle) :
  getFollower_loop vehicle targetLane rest minDist follower
  = nearest_loop vehicle targetLane (distBehind vehicle) rest minDist follower.
Proof.
  revert minDist follower. induction rest as [|other rest IH]; intros; simpl.
  - reflexivity.
  - unfold distBehind at 1 2 3. rewrite !IH. reflexivity.
Qed.

(** C7, as the code has it: getLeader returns the vehicle with the smallest
    strictly positive [other.x - v.x] among the vehicles on [targetLane]
    other than [v], or nothing when there is none; getFollower does the same
    for [v.x - other.x]; among vehicles at the same distance the one that
    comes first in the array is returned; [targetLane] is any lane. *)
Theorem neighbour_queries_nearest_first :
  forall (this : TrafficModel) (vehicle : Vehicle) (targetLane : Z),
    nearestFirst (vehicles this)
      (eligible vehicle targetLane (distAhead vehicle)) (distAhead vehicle)
      (getLeader this vehicle targetLane)
    /\ nearestFirst (vehicles this)
         (eligible vehicle targetLane (distBehind vehicle)) (distBehind vehicle)
         (getFollower this vehicle targetLane).
Proof.
  intros this vehicle targetLane. unfold getLeader, getFollower.
  rewrite getLeader_nearest_loop, getFollower_nearest_loop.
  split.
  - apply (nearest_loop_spec vehicle targetLane (distAhead vehicle)
             (vehicles this) [] PInf None).
    simpl. split; [reflexivity | intros o []].
  - apply (nearest_loop_spec vehicle targetLane (distBehind vehicle)
             (vehicles this) [] PInf None).
    simpl. split; [reflexivity | intros o []].
Qed.

(** Evaluates the model on numerals: unfolds one layer, settles the
    comparisons it finds, and starts over. *)
Ltac Reval := repeat (progress (simpl; Rdecide)).

Lemma Vehicle_eq (a b : Vehicle) :
  Vehicle.id a = Vehicle.id b -> Vehicle.x a = Vehicle.x b ->
  Vehicle.y a = Vehicle.y b -> Vehicle.lane a = Vehicle.lane b ->
  Vehicle.v a = Vehicle.v b -> Vehicle.a a = Vehicle.a b ->
  Vehicle.length a = Vehicle.length b -> Vehicle.width a = Vehicle.width b ->
  Vehicle.color a = Vehicle.color b -> Vehicle.type a = Vehicle.type b ->
  Vehicle.laneChangeTimer a = Vehicle.laneChangeTimer b ->
  Vehicle.laneChangeDirection a = Vehicle.laneChangeDirection b ->
  Vehicle.targetSpeed a = Vehicle.targetSpeed b ->
  Vehicle.isCrashed a = Vehicle.isCrashed b ->
  a = b.
Proof.
  destruct a, b. simpl. intros. subst. reflexivity.
Qed.

(** Two vehicles are the same when they agree field by field. *)
Ltac same_vehicle := apply Vehicle_eq; simpl; first [reflexivity | lra].

Lemma getLeader_tieModel :
  getLeader tieModel (car 3 0 0 30) 0 = Some (car 2 10 0 30).
Proof. unfold getLeader, tieModel, car. Reval. reflexivity. Qed.

Lemma getFollower_tieModelBehind :
  getFollower tieModelBehind (car 3 20 0 30) 0 = Some (car 2 10 0 30).
Proof. unfold getFollower, tieModelBehind, car. Reval. reflexivity. Qed.

(** C7 as stated fails: with the cars 2 and 1 level on the lane, in this
    order in the array, both queries return car 2, not the car with the
    smallest id. *)
Lemma ties_not_broken_by_smallest_id :
  ~ (forall this vehicle targetLane,
       smallestIdAmongTies (vehicles this)
         (eligible vehicle targetLane (distAhead vehicle))
         (distAhead vehicle) (getLeader this vehicle targetLane))
  /\ ~ (forall this vehicle targetLane,
          smallestIdAmongTies (vehicles this)
            (eligible vehicle targetLane (distBehind vehicle))
            (distBehind vehicle) (getFollower this vehicle targetLane)).
Proof.
  split; intros H.
  - specialize (H tieModel (car 3 0 0 30) 0%Z).
    rewrite getLeader_tieModel in H.
    assert (Hle : (Vehicle.id (car 2 10 0 30) <= Vehicle.id (car 1 10 0 30))%Z).
    { apply H.
      - simpl. auto.
      - unfold eligible, distAhead. simpl. repeat split; [discriminate | lra].
      - unfold distAhead. simpl. lra. }
    simpl in Hle. lia.
  - specialize (H tieModelBehind (car 3 20 0 30) 0%Z).
    rewrite getFollower_tieModelBehind in H.
    assert (Hle : (Vehicle.id (car 2 10 0 30) <= Vehicle.id (car 1 10 0 30))%Z).
    { apply H.
      - simpl. auto.
      - unfold eligible, distBehind. simpl. repeat split; [discriminate | lra].
      - unfold distBehind. simpl. lra. }
    simpl in Hle. lia.
Qed.

(** ** MOBIL *)

Lemma Rltb_negb_Rleb (a b : R) : Rltb a b = negb (Rleb b a).
Proof.
  unfold Rltb, Rleb. destruct (Rlt_dec a b), (Rle_dec b a); simpl;
    try reflexivity; lra.
Qed.

Lemma Rgtb_ext (a b c : R) : a = b -> Rgtb a c = Rgtb b c.
Proof. intros ->. reflexivity. Qed.

(** The incentive the loop body computes is the one of the
    specification. *)
Ltac same_incentive :=
  match goal with
  | |- context [Rgtb ?l MOBIL_THRESHOLD] =>
      match goal with
      | |- context [Rgtb ?r 0.1] =>
          replace (Rgtb l MOBIL_THRESHOLD) with (Rgtb r 0.1);
          [ destruct (Rgtb r 0.1) | ]
      end
  end.

Ltac incentive_cases this veh targetLane :=
  apply Rgtb_ext; unfold mobil_bias, MOBIL_BIAS; rewrite Z.gtb_ltb;
  destruct (getLeader this veh targetLane),
    (getFollower this veh (Vehicle.lane veh)),
    (getLeader this veh (Vehicle.lane veh)),
    (Vehicle.lane veh <? targetLane)%Z eqn:Hup,
    (targetLane <? Vehicle.lane veh)%Z eqn:Hdown;
  try lra;
  apply Z.ltb_lt in Hup; apply Z.ltb_lt in Hdown; lia.

(** The test of the loop body is the acceptance test of the
    specification. *)
Lemma checkLaneChange_loop_find (this : TrafficModel) (veh : Vehicle)
    (accCurrent : R) (config : SimulationConfig) (candidates : list Z) :
  checkLaneChange_loop this veh accCurrent config candidates
  = match find (mobil_accepts this veh accCurrent config) candidates with
    | Some newLane =>
        Vehicle.set_laneChangeDirection
          (Vehicle.set_laneChangeTimer (Vehicle.set_lane veh newLane) 3.0)
          (direction_beyond newLane (Vehicle.y veh))
    | None => veh
    end.
Proof.
  induction candidates as [|targetLane rest IH].
  - reflexivity.
  - cbn [checkLaneChange_loop find]. unfold mobil_accepts at 1.
    unfold mobil_safe, mobil_a_c_new, mobil_delta_o, accBehind.
    destruct (getFollower this veh targetLane) as [newFollower|].
    + rewrite Rltb_negb_Rleb.
      match goal with |- context [Rleb (-3.0) ?acc] =>
        destruct (Rleb (-3.0) acc) end; cbn [negb andb]; [|exact IH].
      same_incentive;
        [reflexivity | exact IH | incentive_cases this veh targetLane].
    + cbn [andb].
      same_incentive;
        [reflexivity | exact IH | incentive_cases this veh targetLane].
Qed.

Lemma candidateLanes_mobil_candidates (this : TrafficModel) (veh : Vehicle) :
  lanes this = 3%Z -> (0 <= Vehicle.lane veh <= 2)%Z ->
  candidateLanes this veh = mobil_candidates (Vehicle.lane veh).
Proof.
  intros Hlanes Hlane. unfold candidateLanes, mobil_candidates.
  rewrite Hlanes.
  assert (Hcases : Vehicle.lane veh = 0%Z \/ Vehicle.lane veh = 1%Z
                   \/ Vehicle.lane veh = 2%Z) by lia.
  destruct Hcases as [-> | [-> | ->]]; reflexivity.
Qed.

Lemma checkLaneChange_decision (this : TrafficModel) (veh : Vehicle)
    (accCurrent : R) (config : SimulationConfig) :
  lanes this = 3%Z -> (0 <= Vehicle.lane veh <= 2)%Z ->
  checkLaneChange this veh accCurrent config
  = mobil_decision direction_beyond this veh accCurrent config.
Proof.
  intros Hlanes Hlane. unfold checkLaneChange, mobil_decision.
  rewrite checkLaneChange_loop_find.
  rewrite (candidateLanes_mobil_candidates this veh Hlanes Hlane).
  destruct (find _ _); reflexivity.
Qed.


Lemma find_accepts_drifted (acc := calculateAcceleration 30 None None 30 baseline) :
  find (mobil_accepts driftedModel drifted acc baseline)
    (mobil_candidates (Vehicle.lane drifted)) = Some 1%Z.
Proof.
  unfold mobil_candidates, drifted, car. cbn [Vehicle.lane Vehicle.set_y filter].
  cbn [Z.leb Z.sub Z.add andb]. simpl filter. cbn [find].
  unfold mobil_accepts, mobil_safe, mobil_a_c_new, mobil_delta_o, accBehind.
  unfold getFollower, getLeader, driftedModel. simpl.
  subst acc. unfold mobil_bias. simpl. Rdecide. reflexivity.
Qed.

(** The indicator is [sign(newLane - y)] only for a vehicle that is not
    level with the new lane: for a car on lane 0 whose lateral position is
    1, a position no step of the application leaves a vehicle in when its
    cooldown is over, the change to lane 1 is committed with the indicator
    -1, where [sign(1 - 1)] is 0. *)
Lemma checkLaneChange_direction_not_sign :
  ~ (forall (this : TrafficModel) (veh : Vehicle) (accCurrent : R)
            (config : SimulationConfig),
       lanes this = 3%Z -> (0 <= Vehicle.lane veh <= 2)%Z ->
       Vehicle.laneChangeTimer veh <= 0 -> Vehicle.isCrashed veh = false ->
       checkLaneChange this veh accCurrent config
       = mobil_decision direction_sign this veh accCurrent config).
Proof.
  intros H.
  specialize (H driftedModel drifted
                (calculateAcceleration 30 None None 30 baseline) baseline).
  rewrite checkLaneChange_decision in H; [|reflexivity|simpl; lia].
  unfold mobil_decision in H. rewrite find_accepts_drifted in H.
  assert (Hdir : direction_beyond 1 (Vehicle.y drifted)
                 = direction_sign 1 (Vehicle.y drifted)).
  { apply (f_equal Vehicle.laneChangeDirection) in H; [exact H | | | |].
    - reflexivity.
    - simpl; lia.
    - simpl; lra.
    - reflexivity. }
  unfold direction_beyond, direction_sign, drifted in Hdir. simpl in Hdir.
  revert Hdir. Rdecide. discriminate.
Qed.

(** ** Spawning *)

Lemma spawnVehicle_eq (lane : Z) (truckRatio : R) (config : SimulationConfig)
    (this : TrafficModel) (rnd : nat -> R) (pos : nat) :
  spawnVehicle lane truckRatio config this rnd pos
  = ({| vehicles :=
          vehicles this
          ++ [spawned lane truckRatio this (rnd pos) (rnd (S pos))];
        roadLength := roadLength this; lanes := lanes this;
        nextId := (nextId this + 1)%Z;
        timeSinceLastSpawn := timeSinceLastSpawn this;
        fdPoints := fdPoints this; statsTimer := statsTimer this;
        blockedLane := blockedLane this;
        blockedLocation := blockedLocation this |}, S (S pos)).
Proof. reflexivity. Qed.

Lemma lastPos_set_timeSinceLastSpawn (this : TrafficModel) (n : R) :
  lastPos (set_timeSinceLastSpawn this n) = lastPos this.
Proof. reflexivity. Qed.

(** The three ways through handleSpawning. *)
Lemma handleSpawning_eq (dt : R) (config : SimulationConfig)
    (this : TrafficModel) (rnd : nat -> R) (pos : nat) :
  handleSpawning dt config this rnd pos
  = let waited := set_timeSinceLastSpawn this (timeSinceLastSpawn this + dt) in
    if attempts dt config this (rnd pos) then
      if entryClear this then
        (set_timeSinceLastSpawn
           (fst (spawnVehicle (bestLaneOf (lastPos this)) (truckRatio config)
                   config waited rnd (S pos))) 0,
         S (S (S pos)))
      else (waited, S pos)
    else (waited, S pos).
Proof.
  unfold handleSpawning, attempts, entryClear, bind, random, ret.
  cbn [timeSinceLastSpawn set_timeSinceLastSpawn].
  rewrite lastPos_set_timeSinceLastSpawn.
  destruct (xgtb _ (xscale _ _)); [|reflexivity].
  destruct (xgtb (at_lane _ _) _); reflexivity.
Qed.

(** Every entry of [lastPos] is a position or [Infinity]. *)
Lemma lastPos_shape (this : TrafficModel) :
  exists p0 p1 p2,
    lastPos this = [p0; p1; p2]
    /\ (forall p, In p [p0; p1; p2] -> p = PInf \/ exists r, p = Fin r).
Proof.
  unfold lastPos. cbn [map]. do 3 eexists. split; [reflexivity|].
  intros p [<-|[<-|[<-|[]]]];
    match goal with |- context [lastOf ?l] => destruct (lastOf l) end;
    eauto.
Qed.

Lemma bestLaneOf_three (p0 p1 p2 : xnumber) :
  bestLaneOf [p0; p1; p2]
  = if xgtb p0 p1 then (if xgtb p0 p2 then 0%Z else 2%Z)
    else (if xgtb p1 p2 then 1%Z else 2%Z).
Proof.
  unfold bestLaneOf. cbn [fold_left]. unfold at_lane. simpl.
  destruct (xgtb p0 p1); reflexivity.
Qed.

Lemma bestLaneOf_range (ps : list xnumber) :
  In (bestLaneOf ps) [0%Z; 1%Z; 2%Z].
Proof.
  unfold bestLaneOf. cbn [fold_left].
  repeat match goal with
         | |- context [if ?c then _ else _] => destruct c
         end; simpl; auto.
Qed.

(** The chosen lane has the largest entry of [lastPos]: when any lane has
    more than 40 m free, so has the chosen one. *)
Lemma entryClear_iff (this : TrafficModel) :
  entryClear this = true
  <-> exists l, In l [0%Z; 1%Z; 2%Z]
                /\ xgtb (at_lane (lastPos this) l) (Fin 40) = true.
Proof.
  unfold entryClear. split.
  - intros Hclear. exists (bestLaneOf (lastPos this)).
    split; [apply bestLaneOf_range | exact Hclear].
  - intros (l & Hin & Hl).
    destruct (lastPos_shape this) as (p0 & p1 & p2 & Hps & Hshape).
    rewrite Hps in *. rewrite bestLaneOf_three.
    assert (H0 := Hshape p0 (or_introl eq_refl)).
    assert (H1 := Hshape p1 (or_intror (or_introl eq_refl))).
    assert (H2 := Hshape p2 (or_intror (or_intror (or_introl eq_refl)))).
    clear Hshape Hps.
    destruct H0 as [->|[r0 ->]], H1 as [->|[r1 ->]], H2 as [->|[r2 ->]];
      destruct Hin as [<-|[<-|[<-|[]]]];
      unfold at_lane in *; simpl in Hl; simpl;
      try discriminate; try reflexivity;
      unfold xgtb, xltb in *;
      repeat match goal with
      | H : Rltb _ _ = true |- _ => apply Rltb_iff in H
      | |- context [if Rltb ?a ?b then _ else _] =>
          let E := fresh "E" in
          destruct (Rltb a b) eqn:E;
          [apply Rltb_iff in E | apply Rltb_iff_false in E]; simpl
      end;
      try reflexivity; try (apply Rltb_true; lra); try lra.
Qed.

Lemma attempts_positive_inflow (dt : R) (config : SimulationConfig)
    (this : TrafficModel) (r : R) :
  0 < inflowRate config ->
  attempts dt config this r
  = Rltb ((r * 0.4 + 0.8) * (1 / (inflowRate config / 3600)))
         (timeSinceLastSpawn this + dt).
Proof.
  intros Hq. unfold attempts. rewrite xinv_nonzero by lra. reflexivity.
Qed.

(** The chosen lane is an emptiest one at the entry: no lane has a larger
    smallest [x]. *)
Lemma bestLaneOf_emptiest (this : TrafficModel) (l : Z) :
  In l [0%Z; 1%Z; 2%Z] ->
  xgtb (at_lane (lastPos this) l)
       (at_lane (lastPos this) (bestLaneOf (lastPos this))) = false.
Proof.
  intros Hin.
  destruct (lastPos_shape this) as (p0 & p1 & p2 & Hps & Hshape).
  rewrite Hps in *. rewrite bestLaneOf_three.
  assert (H0 := Hshape p0 (or_introl eq_refl)).
  assert (H1 := Hshape p1 (or_intror (or_introl eq_refl))).
  assert (H2 := Hshape p2 (or_intror (or_intror (or_introl eq_refl)))).
  clear Hshape Hps.
  destruct H0 as [->|[r0 ->]], H1 as [->|[r1 ->]], H2 as [->|[r2 ->]];
    destruct Hin as [<-|[<-|[<-|[]]]];
    unfold at_lane, xgtb, xltb; simpl;
    repeat match goal with
    | |- context [if Rltb ?a ?b then _ else _] =>
        let E := fresh "E" in
        destruct (Rltb a b) eqn:E;
        [apply Rltb_iff in E | apply Rltb_iff_false in E]; simpl
    end;
    try reflexivity; try (apply Rltb_false; lra); try lra.
Qed.

(** With a zero inflow the headway is [Infinity] and the spawner never
    attempts. *)
Lemma attempts_zero_inflow (dt : R) (config : SimulationConfig)
    (this : TrafficModel) (r : R) :
  inflowRate config = 0 -> 0 <= r -> attempts dt config this r = false.
Proof.
  intros Hq Hr. unfold attempts. rewrite Hq.
  replace (0 / 3600) with 0 by lra. rewrite xinv_zero.
  unfold xscale. rewrite Rltb_true by lra. reflexivity.
Qed.

Lemma headway_positive (config : SimulationConfig) :
  0 < inflowRate config -> 0 < 1 / (inflowRate config / 3600).
Proof. intros Hq. apply Rdiv_lt_0_compat; lra. Qed.

Lemma app_one_neq {A : Type} (l : list A) (a : A) : l ++ [a] <> l.
Proof.
  intros H. apply (f_equal (@List.length A)) in H.
  rewrite length_app in H. simpl in H. lia.
Qed.

(** ** The step *)

Lemma decideVehicle_eq (config : SimulationConfig) (dt : R)
    (this : TrafficModel) (visited : list Vehicle) (veh : Vehicle)
    (pending : list Vehicle) (rnd : nat -> R) (pos : nat) :
  decideVehicle config dt this visited veh pending rnd pos
  = (decided config dt this visited veh pending (rnd pos),
     afterDecide config veh pos).
Proof.
  unfold decideVehicle, decided, afterDecide, currentAcc, usesNoise, accBehind.
  destruct (Vehicle.isCrashed veh); [reflexivity|]. cbn [negb andb].
  unfold bind, random, ret.
  destruct (Rgtb (accelerationNoise config) 0 && Rgtb (Vehicle.v veh) 1);
    cbn [Vehicle.laneChangeTimer Vehicle.set_a];
    destruct (Rleb (Vehicle.laneChangeTimer veh) 0);
    destruct (getLeader _ veh (Vehicle.lane veh)); reflexivity.
Qed.

Lemma decideLoop_cons (config : SimulationConfig) (dt : R)
    (this : TrafficModel) (visited : list Vehicle) (veh : Vehicle)
    (pending : list Vehicle) (rnd : nat -> R) (pos : nat) :
  decideLoop config dt this visited (veh :: pending) rnd pos
  = decideLoop config dt this
      (visited ++ [decided config dt this visited veh pending (rnd pos)])
      pending rnd (afterDecide config veh pos).
Proof.
  cbn [decideLoop]. unfold bind at 1. rewrite decideVehicle_eq. reflexivity.
Qed.

Lemma decideLoop_nil (config : SimulationConfig) (dt : R)
    (this : TrafficModel) (visited : list Vehicle) (rnd : nat -> R)
    (pos : nat) :
  decideLoop config dt this visited [] rnd pos = (visited, pos).
Proof. reflexivity. Qed.

Lemma integrateLoop_filter (roadLength dt : R) (vs : list Vehicle) :
  integrateLoop roadLength dt vs
  = filter (onRoad roadLength) (map (integrateVehicle dt) vs).
Proof.
  induction vs as [|veh rest IH]; [reflexivity|].
  cbn [integrateLoop map filter]. unfold onRoad at 1. rewrite IH.
  destruct (Rgtb _ roadLength); reflexivity.
Qed.

(** The step, phase by phase. *)
Lemma step_eq (config : SimulationConfig) (this : TrafficModel)
    (rnd : nat -> R) (pos : nat) :
  step config this rnd pos
  = let dt := DT * timeScale config in
    let sorted := set_vehicles this (sortByXDescending (vehicles this)) in
    let chosen := decideLoop config dt sorted [] (vehicles sorted) rnd pos in
    let moved :=
      set_vehicles this (integrateLoop (roadLength this) dt (fst chosen)) in
    let grown := handleSpawning dt config moved rnd (snd chosen) in
    (collectData dt (fst grown), snd grown).
Proof.
  unfold step, bind, ret. cbv zeta.
  destruct (decideLoop _ _ _ _ _ rnd pos) as [vs pos1].
  cbn [fst snd vehicles set_vehicles roadLength].
  match goal with
  | |- (let (_, _) := ?h in _) = _ => destruct h as [grown pos2] eqn:Hh
  end.
  unfold set_vehicles in *. cbn [roadLength lanes nextId timeSinceLastSpawn
    fdPoints statsTimer blockedLane blockedLocation vehicles] in *.
  rewrite Hh. reflexivity.
Qed.

(** *** What the phases do to single fields *)

Lemma checkLaneChange_cases (this : TrafficModel) (veh : Vehicle)
    (accCurrent : R) (config : SimulationConfig) :
  checkLaneChange this veh accCurrent config = veh
  \/ exists newLane,
       In newLane (candidateLanes this veh)
       /\ checkLaneChange this veh accCurrent config
          = Vehicle.set_laneChangeDirection
              (Vehicle.set_laneChangeTimer (Vehicle.set_lane veh newLane) 3.0)
              (direction_beyond newLane (Vehicle.y veh)).
Proof.
  unfold checkLaneChange. rewrite checkLaneChange_loop_find.
  destruct (find _ _) as [newLane|] eqn:Hfind; [right | left; reflexivity].
  exists newLane. split; [|reflexivity].
  now apply find_some in Hfind.
Qed.

Lemma candidateLanes_range (this : TrafficModel) (veh : Vehicle) (l : Z) :
  lanes this = 3%Z -> (0 <= Vehicle.lane veh <= 2)%Z ->
  In l (candidateLanes this veh) -> (0 <= l <= 2)%Z.
Proof.
  intros Hlanes Hlane. unfold candidateLanes. rewrite Hlanes. intros Hin.
  apply in_app_or in Hin.
  destruct (Vehicle.lane veh >? 0)%Z eqn:Hgt,
    (Vehicle.lane veh <? 3 - 1)%Z eqn:Hlt;
    destruct Hin as [Hin|Hin]; simpl in Hin; try tauto;
    destruct Hin as [<-|[]]; lia.
Qed.

(** The loop body leaves the position alone. *)
Lemma decided_x (config : SimulationConfig) (dt : R) (this : TrafficModel)
    (visited : list Vehicle) (veh : Vehicle) (pending : list Vehicle) (r : R) :
  Vehicle.x (decided config dt this visited veh pending r) = Vehicle.x veh.
Proof.
  unfold decided. destruct (Vehicle.isCrashed veh); [reflexivity|]. cbv zeta.
  destruct (Rleb _ 0); [|reflexivity].
  match goal with
  | |- context [checkLaneChange ?t ?v ?a ?c] =>
      destruct (checkLaneChange_cases t v a c) as [-> | (l & _ & ->)]
  end; reflexivity.
Qed.

(** The loop body keeps the vehicle on one of the three lanes. *)
Lemma decided_lane (config : SimulationConfig) (dt : R) (this : TrafficModel)
    (visited : list Vehicle) (veh : Vehicle) (pending : list Vehicle) (r : R) :
  lanes this = 3%Z -> (0 <= Vehicle.lane veh <= 2)%Z ->
  (0 <= Vehicle.lane (decided config dt this visited veh pending r) <= 2)%Z.
Proof.
  intros Hlanes Hlane. unfold decided.
  destruct (Vehicle.isCrashed veh); [exact Hlane|]. cbv zeta.
  destruct (Rleb _ 0); [|exact Hlane].
  match goal with
  | |- context [checkLaneChange ?t ?v ?a ?c] =>
      destruct (checkLaneChange_cases t v a c) as [-> | (l & Hin & ->)]
  end; [exact Hlane|].
  cbn [Vehicle.lane Vehicle.set_laneChangeDirection
         Vehicle.set_laneChangeTimer Vehicle.set_lane].
  eapply candidateLanes_range; [| |exact Hin]; [exact Hlanes | exact Hlane].
Qed.

(** The cooldown after the loop body: untouched, restarted at 3.0, or
    shortened by [dt] when it was running. *)
Lemma decided_laneChangeTimer (config : SimulationConfig) (dt : R)
    (this : TrafficModel) (visited : list Vehicle) (veh : Vehicle)
    (pending : list Vehicle) (r : R) :
  let timer' :=
    Vehicle.laneChangeTimer (decided config dt this visited veh pending r) in
  timer' = Vehicle.laneChangeTimer veh
  \/ timer' = 3.0
  \/ (0 < Vehicle.laneChangeTimer veh
      /\ timer' = Vehicle.laneChangeTimer veh - dt).
Proof.
  unfold decided. destruct (Vehicle.isCrashed veh); [left; reflexivity|].
  cbv zeta. destruct (Rleb _ 0) eqn:Htimer.
  - match goal with
    | |- context [checkLaneChange ?t ?v ?a ?c] =>
        destruct (checkLaneChange_cases t v a c) as [-> | (l & _ & ->)]
    end; [left | right; left]; reflexivity.
  - right; right. split; [|reflexivity].
    unfold Rleb in Htimer. destruct (Rle_dec _ 0); [discriminate | lra].
Qed.

Lemma integrateVehicle_fields (dt : R) (veh : Vehicle) :
  let veh' := integrateVehicle dt veh in
  Vehicle.lane veh' = Vehicle.lane veh
  /\ Vehicle.laneChangeTimer veh' = Vehicle.laneChangeTimer veh
  /\ 0 <= Vehicle.v veh'
  /\ Vehicle.x veh' = Vehicle.x veh + Vehicle.v veh' * dt.
Proof.
  unfold integrateVehicle.
  cbn [Vehicle.v Vehicle.a Vehicle.set_v].
  destruct (Rltb (Vehicle.v veh + Vehicle.a veh * dt) 0) eqn:Hneg;
    cbn [Vehicle.v Vehicle.x Vehicle.y Vehicle.lane Vehicle.set_v
           Vehicle.set_x];
    destruct (Rgtb _ 0.05);
    cbn [Vehicle.v Vehicle.x Vehicle.y Vehicle.lane Vehicle.laneChangeTimer
           Vehicle.set_v Vehicle.set_x Vehicle.set_y
           Vehicle.set_laneChangeDirection];
    repeat split; try reflexivity; try lra;
    apply Rltb_iff_false in Hneg; lra.
Qed.

(** *** The phases on every vehicle of the array *)

Lemma insertByX_Forall (P : Vehicle -> Prop) (veh : Vehicle)
    (sorted : list Vehicle) :
  P veh -> Forall P sorted -> Forall P (insertByX veh sorted).
Proof.
  intros Hveh Hsorted. induction Hsorted as [|other rest Hother Hrest IH].
  - simpl. auto.
  - cbn [insertByX]. destruct (Rgtb _ _); auto.
Qed.

Lemma sortByXDescending_Forall (P : Vehicle -> Prop) (vs : list Vehicle) :
  Forall P vs -> Forall P (sortByXDescending vs).
Proof.
  intros H. induction H as [|veh rest Hveh Hrest IH]; [constructor|].
  cbn [sortByXDescending fold_right]. now apply insertByX_Forall.
Qed.

Lemma decideLoop_Forall (P Q : Vehicle -> Prop) (config : SimulationConfig)
    (dt : R) (this : TrafficModel) :
  (forall visited veh pending r,
      P veh -> Q (decided config dt this visited veh pending r)) ->
  forall (pending visited : list Vehicle) (rnd : nat -> R) (pos : nat),
    Forall Q visited -> Forall P pending ->
    Forall Q (fst (decideLoop config dt this visited pending rnd pos)).
Proof.
  intros Hbody pending.
  induction pending as [|veh pending IH]; intros visited rnd pos Hvis Hpend.
  - exact Hvis.
  - rewrite decideLoop_cons. inversion Hpend as [|? ? Hveh Hrest]; subst.
    apply IH; [|exact Hrest].
    apply Forall_app. split; [exact Hvis|]. constructor; [|constructor].
    now apply Hbody.
Qed.

Lemma handleSpawning_vehicles (dt : R) (config : SimulationConfig)
    (this : TrafficModel) (rnd : nat -> R) (pos : nat) :
  let this' := fst (handleSpawning dt config this rnd pos) in
  roadLength this' = roadLength this
  /\ lanes this' = lanes this
  /\ (vehicles this' = vehicles this
      \/ vehicles this'
         = vehicles this
           ++ [spawned (bestLaneOf (lastPos this)) (truckRatio config) this
                 (rnd (S pos)) (rnd (S (S pos)))]).
Proof.
  rewrite handleSpawning_eq. cbv zeta.
  destruct (attempts _ _ _ _); [|cbn; auto].
  destruct (entryClear this); [|cbn; auto].
  rewrite spawnVehicle_eq. cbn. auto.
Qed.

Lemma collectData_frame (dt : R) (this : TrafficModel) :
  vehicles (collectData dt this) = vehicles this
  /\ roadLength (collectData dt this) = roadLength this
  /\ lanes (collectData dt this) = lanes this.
Proof.
  unfold collectData. cbn [statsTimer set_statsTimer].
  destruct (Rgtb _ 1.0); [|cbn; auto].
  destruct (0 <? count _)%nat; [|cbn; auto].
  cbn [fdPoints set_fdPoints].
  destruct (200 <? _)%nat; cbn; auto.
Qed.

Lemma spawned_withinBounds (lane : Z) (truckRatio : R) (this : TrafficModel)
    (r1 r2 roadLength : R) :
  0 <= roadLength -> 0 <= r2 -> In lane [0%Z; 1%Z; 2%Z] ->
  withinBounds roadLength (spawned lane truckRatio this r1 r2).
Proof.
  intros Hroad Hr2 Hlane. unfold withinBounds, spawned.
  cbn [Vehicle.v Vehicle.x Vehicle.lane]. repeat split; try lra.
  - destruct (Rltb r1 truckRatio); lra.
  - destruct Hlane as [<-|[<-|[<-|[]]]]; lia.
  - destruct Hlane as [<-|[<-|[<-|[]]]]; lia.
Qed.

Lemma decideLoop_placed (config : SimulationConfig) (dt : R)
    (this : TrafficModel) (vs : list Vehicle) (rnd : nat -> R) (pos : nat) :
  lanes this = 3%Z -> Forall placed vs ->
  Forall placed (fst (decideLoop config dt this [] vs rnd pos)).
Proof.
  intros Hlanes Hvs.
  apply (decideLoop_Forall placed placed); [|constructor|exact Hvs].
  intros visited veh pending r [Hx Hlane]. split.
  - now rewrite decided_x.
  - now apply decided_lane.
Qed.

Lemma integrateLoop_withinBounds (roadLength dt : R) (vs : list Vehicle) :
  0 <= dt -> Forall placed vs ->
  Forall (withinBounds roadLength) (integrateLoop roadLength dt vs).
Proof.
  intros Hdt Hvs. rewrite integrateLoop_filter.
  apply Forall_forall. intros veh' Hin.
  apply filter_In in Hin. destruct Hin as [Hin Hroad].
  apply in_map_iff in Hin. destruct Hin as (veh & <- & Hin).
  rewrite Forall_forall in Hvs. destruct (Hvs veh Hin) as [Hx Hlane].
  destruct (integrateVehicle_fields dt veh) as (Hl & _ & Hv & Hx').
  unfold onRoad in Hroad. apply negb_true_iff, Rgtb_iff_false in Hroad.
  unfold withinBounds. rewrite Hl. repeat split; try lia; try lra.
  rewrite Hx'. nra.
Qed.

(** *** The cooldown *)

Lemma integrateLoop_laneChangeTimer (P : R -> Prop) (roadLength dt : R)
    (vs : list Vehicle) :
  Forall (fun veh => P (Vehicle.laneChangeTimer veh)) vs ->
  Forall (fun veh => P (Vehicle.laneChangeTimer veh))
         (integrateLoop roadLength dt vs).
Proof.
  intros Hvs. rewrite integrateLoop_filter.
  apply Forall_forall. intros veh' Hin.
  apply filter_In in Hin. destruct Hin as [Hin _].
  apply in_map_iff in Hin. destruct Hin as (veh & <- & Hin).
  rewrite Forall_forall in Hvs.
  destruct (integrateVehicle_fields dt veh) as (_ & -> & _).
  now apply Hvs.
Qed.

(** C3, as the code has it: the cooldown can fall below zero, but by less
    than one integration interval.  Whenever every [laneChangeTimer] is
    above [- bound] before a step with positive timeScale whose
    [dt = DT * timeScale] is at most [bound], it is so after the step; in
    particular [laneChangeTimer > - dt] after a step that found every
    cooldown at zero or above. *)
Theorem cooldown_undershoot_bounded :
  forall (config : SimulationConfig) (this : TrafficModel)
         (rnd : nat -> R) (pos : nat) (bound : R),
    0 < timeScale config -> DT * timeScale config <= bound ->
    Forall (fun veh => - bound < Vehicle.laneChangeTimer veh) (vehicles this) ->
    Forall (fun veh => - bound < Vehicle.laneChangeTimer veh)
           (vehicles (fst (step config this rnd pos))).
Proof.
  intros config this rnd pos bound Hscale Hbound Hbefore.
  assert (Hdt : 0 < DT * timeScale config) by (unfold DT; nra).
  rewrite step_eq. cbv zeta. cbn [fst].
  set (dt := DT * timeScale config) in *.
  set (sorted := set_vehicles this (sortByXDescending (vehicles this))).
  set (chosen := decideLoop config dt sorted [] (vehicles sorted) rnd pos).
  set (moved := set_vehicles this
                  (integrateLoop (roadLength this) dt (fst chosen))).
  destruct (collectData_frame dt (fst (handleSpawning dt config moved rnd
                                         (snd chosen)))) as (-> & _ & _).
  assert (Hkept : Forall (fun veh => - bound < Vehicle.laneChangeTimer veh)
                    (vehicles moved)).
  { apply (integrateLoop_laneChangeTimer (fun t => - bound < t)).
    apply (decideLoop_Forall
             (fun veh => - bound < Vehicle.laneChangeTimer veh)
             (fun veh => - bound < Vehicle.laneChangeTimer veh));
      [|constructor|now apply sortByXDescending_Forall].
    intros visited veh pending r Hveh.
    destruct (decided_laneChangeTimer config dt sorted visited veh pending r)
      as [-> | [-> | [Hrunning ->]]]; lra. }
  destruct (handleSpawning_vehicles dt config moved rnd (snd chosen))
    as (_ & _ & [-> | ->]); [exact Hkept|].
  apply Forall_app. split; [exact Hkept|].
  constructor; [|constructor]. cbn [spawned Vehicle.laneChangeTimer]. lra.
Qed.

Lemma cooldown_undershoot_bounded_witness :
  Forall (fun veh => - (1 / 60) < Vehicle.laneChangeTimer veh)
         (vehicles (fst (step quiet coolingModel zeros 0%nat))).
Proof.
  apply (cooldown_undershoot_bounded quiet coolingModel zeros 0%nat (1 / 60)).
  - simpl. lra.
  - unfold DT. simpl. lra.
  - constructor; [|constructor]. simpl. lra.
Defined.

(** *** Steps that neither spawn nor sample *)

Lemma attempts_set_vehicles (dt : R) (config : SimulationConfig)
    (this : TrafficModel) (vs : list Vehicle) (r : R) :
  attempts dt config (set_vehicles this vs) r = attempts dt config this r.
Proof. reflexivity. Qed.

Lemma decideLoop_quiet_cursor (config : SimulationConfig) (dt : R)
    (this : TrafficModel) (pending visited : list Vehicle) (rnd : nat -> R)
    (pos : nat) :
  accelerationNoise config <= 0 ->
  snd (decideLoop config dt this visited pending rnd pos) = pos.
Proof.
  intros Hquiet. revert visited.
  induction pending as [|veh pending IH]; intros visited; [reflexivity|].
  rewrite decideLoop_cons. unfold afterDecide, usesNoise.
  rewrite (proj2 (Rgtb_iff_false (accelerationNoise config) 0) Hquiet).
  rewrite andb_false_r. apply IH.
Qed.

(** A step in which the spawner does not attempt and the statistics timer
    stays at or below one second only moves the vehicles and the two
    timers. *)
Lemma step_idle (config : SimulationConfig) (this : TrafficModel)
    (rnd : nat -> R) (pos : nat) :
  let dt := DT * timeScale config in
  let sorted := set_vehicles this (sortByXDescending (vehicles this)) in
  let chosen := decideLoop config dt sorted [] (vehicles sorted) rnd pos in
  attempts dt config this (rnd (snd chosen)) = false ->
  Rgtb (statsTimer this + dt) 1.0 = false ->
  step config this rnd pos
  = ({| vehicles := integrateLoop (roadLength this) dt (fst chosen);
        roadLength := roadLength this; lanes := lanes this;
        nextId := nextId this;
        timeSinceLastSpawn := timeSinceLastSpawn this + dt;
        fdPoints := fdPoints this; statsTimer := statsTimer this + dt;
        blockedLane := blockedLane this;
        blockedLocation := blockedLocation this |}, S (snd chosen)).
Proof.
  intros dt sorted chosen Hidle Hstats. rewrite step_eq. cbv zeta.
  fold dt. fold sorted. fold chosen.
  rewrite handleSpawning_eq. cbv zeta. rewrite attempts_set_vehicles, Hidle.
  cbn [fst snd]. unfold collectData.
  cbn [statsTimer set_statsTimer set_timeSinceLastSpawn set_vehicles].
  rewrite Hstats. reflexivity.
Qed.

Lemma calculateAcceleration_at_desired_speed (config : SimulationConfig) :
  calculateAcceleration 30 None None 30 config = 0.
Proof. unfold calculateAcceleration, IDM_DELTA. lra. Qed.


(** The step of the model with the one cooling car. *)
Lemma step_coolingModel :
  vehicles (fst (step quiet coolingModel zeros 0%nat))
  = [Vehicle.set_x
       (Vehicle.set_laneChangeTimer cooling (0.01 - 1 / 60))
       (100 + 30 * (1 / 60))].
Proof.
  rewrite step_idle.
  - cbn [fst vehicles]. unfold coolingModel. cbn [vehicles set_vehicles
      newTrafficModel roadLength sortByXDescending fold_right insertByX].
    rewrite decideLoop_cons, decideLoop_nil. cbn [fst app].
    unfold decided, currentAcc, usesNoise, accBehind, getLeader.
    cbn [vehicles set_vehicles app]. unfold cooling, car. Reval.
    unfold integrateVehicle, DT. Reval.
    f_equal. same_vehicle.
  - rewrite decideLoop_quiet_cursor by (simpl; lra).
    rewrite attempts_positive_inflow by (simpl; lra).
    unfold zeros, DT. simpl. Rdecide. reflexivity.
  - unfold DT. simpl. Rdecide. reflexivity.
Qed.

(** C3 as stated fails: the car whose cooldown has 0.01 s left ends the
    step with a cooldown of [0.01 - 1/60], below zero. *)
Lemma cooldown_goes_negative :
  ~ (forall (config : SimulationConfig) (this : TrafficModel)
            (rnd : nat -> R) (pos : nat),
       0 < timeScale config ->
       Forall (fun veh => 0 <= Vehicle.laneChangeTimer veh) (vehicles this) ->
       Forall (fun veh => 0 <= Vehicle.laneChangeTimer veh)
              (vehicles (fst (step config this rnd pos)))).
Proof.
  intros H. specialize (H quiet coolingModel zeros 0%nat).
  rewrite step_coolingModel in H.
  assert (Hafter : Forall (fun veh => 0 <= Vehicle.laneChangeTimer veh)
                     [Vehicle.set_x
                        (Vehicle.set_laneChangeTimer cooling (0.01 - 1 / 60))
                        (100 + 30 * (1 / 60))]).
  { apply H.
    - simpl. lra.
    - constructor; [|constructor]. simpl. lra. }
  inversion Hafter as [|? ? Hneg _]; subst. simpl in Hneg. lra.
Qed.

(** ** Incidents *)

Lemma isCandidate_crash (veh : Vehicle) : isCandidate (crash veh) = isCandidate veh.
Proof. reflexivity. Qed.

Lemma crash_crash (veh : Vehicle) : crash (crash veh) = crash veh.
Proof. reflexivity. Qed.

Lemma find_crashFirst (vs : list Vehicle) :
  find isCandidate (crashFirst vs) = option_map crash (find isCandidate vs).
Proof.
  induction vs as [|veh rest IH]; [reflexivity|].
  cbn [crashFirst find]. destruct (isCandidate veh) eqn:Hveh.
  - cbn [find]. rewrite isCandidate_crash, Hveh. reflexivity.
  - cbn [find]. rewrite Hveh. exact IH.
Qed.

Lemma crashFirst_crashFirst (vs : list Vehicle) :
  crashFirst (crashFirst vs) = crashFirst vs.
Proof.
  induction vs as [|veh rest IH]; [reflexivity|].
  cbn [crashFirst]. destruct (isCandidate veh) eqn:Hveh.
  - cbn [crashFirst]. rewrite isCandidate_crash, Hveh, crash_crash.
    reflexivity.
  - cbn [crashFirst]. rewrite Hveh, IH. reflexivity.
Qed.

Lemma isCandidate_iff (veh : Vehicle) :
  isCandidate veh = true
  <-> Vehicle.lane veh = 1%Z /\ 1000 < Vehicle.x veh < 4000.
Proof.
  unfold isCandidate. rewrite !andb_true_iff, Z.eqb_eq, Rgtb_iff, Rltb_iff.
  split; intros H; repeat split; try tauto; lra.
Qed.

Lemma crashedCount_crashFirst (vs : list Vehicle) :
  (List.length (filter Vehicle.isCrashed (crashFirst vs))
   <= List.length (filter Vehicle.isCrashed vs) + 1)%nat.
Proof.
  induction vs as [|veh rest IH]; [simpl; lia|].
  cbn [crashFirst]. destruct (isCandidate veh).
  - cbn [filter crash Vehicle.isCrashed Vehicle.set_isCrashed].
    destruct (Vehicle.isCrashed veh); simpl; lia.
  - cbn [filter]. destruct (Vehicle.isCrashed veh); simpl; lia.
Qed.

Lemma crashFirst_strikes (vs : list Vehicle) (candidate : Vehicle) :
  find isCandidate vs = Some candidate ->
  strikesFirst vs (crashFirst vs) candidate.
Proof.
  induction vs as [|veh rest IH]; [discriminate|].
  cbn [find crashFirst]. destruct (isCandidate veh) eqn:Hveh.
  - intros [= ->]. exists [], rest, (crash candidate).
    split; [reflexivity|]. split; [intros v []|].
    split; [reflexivity|]. unfold struckFrom. repeat split.
  - intros Hfind.
    destruct (IH Hfind) as (before & after & struck & -> & Hnone & -> & Hs).
    exists (veh :: before), after, struck.
    split; [reflexivity|]. split; [|split; [reflexivity | exact Hs]].
    intros v [<- | Hin]; [|now apply Hnone].
    intros Hcand. apply isCandidate_iff in Hcand. congruence.
Qed.

(** C5, as the code has it: without a vehicle on lane 1 with
    [1000 < x < 4000] triggerAccident changes nothing and starts no timer;
    otherwise, whether an incident is active or not, the first such
    vehicle of the array is stopped, painted red and marked crashed, the
    one blockage record is overwritten with its lane and position, whatever
    it held, and a timer of 8 s is started for it; the rest of the model is
    as it was.  A call repeated at once leaves the model as the first call
    left it and starts the same timer again; a call crashes at most one
    more vehicle. *)
Theorem triggerAccident_effect :
  forall this : TrafficModel,
    ((forall veh, In veh (vehicles this) ->
        ~ (Vehicle.lane veh = 1%Z /\ 1000 < Vehicle.x veh < 4000)) ->
     triggerAccident this = (this, None))
    /\ triggerAccident (fst (triggerAccident this))
       = (fst (triggerAccident this), snd (triggerAccident this))
    /\ (crashedCount (fst (triggerAccident this)) <= crashedCount this + 1)%nat
    /\ (forall candidate,
          find isCandidate (vehicles this) = Some candidate ->
          blockedLane (fst (triggerAccident this))
          = Some (Vehicle.lane candidate)
          /\ blockedLocation (fst (triggerAccident this))
             = Some (Vehicle.x candidate)
          /\ snd (triggerAccident this)
             = Some {| held := Vehicle.id candidate; delay := 8000 |})
    /\ (forall candidate,
          find isCandidate (vehicles this) = Some candidate ->
          strikesFirst (vehicles this) (vehicles (fst (triggerAccident this)))
            candidate
          /\ roadLength (fst (triggerAccident this)) = roadLength this
          /\ lanes (fst (triggerAccident this)) = lanes this
          /\ nextId (fst (triggerAccident this)) = nextId this
          /\ timeSinceLastSpawn (fst (triggerAccident this))
             = timeSinceLastSpawn this
          /\ fdPoints (fst (triggerAccident this)) = fdPoints this
          /\ statsTimer (fst (triggerAccident this)) = statsTimer this).
Proof.
  intros this. split; [|split; [|split; [|split]]].
  - intros Hnone. unfold triggerAccident.
    destruct (find isCandidate (vehicles this)) as [candidate|] eqn:Hfind;
      [|reflexivity].
    apply find_some in Hfind. destruct Hfind as [Hin Hcand].
    apply isCandidate_iff in Hcand. now apply Hnone in Hin.
  - unfold triggerAccident.
    destruct (find isCandidate (vehicles this)) as [candidate|] eqn:Hfind.
    + cbn [fst snd vehicles]. rewrite find_crashFirst, Hfind.
      cbn [option_map]. rewrite crashFirst_crashFirst. reflexivity.
    + cbn [fst snd]. rewrite Hfind. reflexivity.
  - unfold triggerAccident, crashedCount.
    destruct (find isCandidate (vehicles this)) as [candidate|];
      cbn [fst vehicles]; [apply crashedCount_crashFirst | lia].
  - intros candidate Hfind. unfold triggerAccident. rewrite Hfind.
    repeat split.
  - intros candidate Hfind.
    pose proof (crashFirst_strikes (vehicles this) candidate Hfind)
      as Hstrikes.
    unfold triggerAccident. rewrite Hfind.
    cbn [fst vehicles roadLength lanes nextId timeSinceLastSpawn fdPoints
           statsTimer].
    split; [exact Hstrikes | repeat split].
Qed.

Lemma find_blockedLater :
  find isCandidate (vehicles blockedLater) = Some merging.
Proof.
  unfold blockedLater. cbn [vehicles find].
  replace (isCandidate merging) with true; [reflexivity|].
  symmetry. apply isCandidate_iff. unfold merging.
  cbn [Vehicle.lane Vehicle.x]. split; [reflexivity | lra].
Qed.

Lemma triggerAccident_effect_witness :
  triggerAccident coolingModel = (coolingModel, None)
  /\ (blockedLane blockedLater = Some 1%Z
      /\ crashedCount blockedLater = 1%nat
      /\ strikesFirst (vehicles blockedLater)
           (vehicles (fst (triggerAccident blockedLater))) merging
      /\ blockedLocation (fst (triggerAccident blockedLater))
         = Some (Vehicle.x merging)
      /\ snd (triggerAccident blockedLater)
         = Some {| held := 2; delay := 8000 |}).
Proof.
  split.
  - destruct (triggerAccident_effect coolingModel) as (Hnone & _).
    apply Hnone. intros veh [<-|[]] [Hlane _]. simpl in Hlane. lia.
  - destruct (triggerAccident_effect blockedLater)
      as (_ & _ & _ & Hrecord & Hstrikes).
    destruct (Hrecord merging find_blockedLater) as (_ & Hlocation & Htimer).
    destruct (Hstrikes merging find_blockedLater) as (Hstruck & _).
    repeat split; assumption.
Defined.

Lemma triggerAccident_overtaking :
  triggerAccident overtaking = (blocked, Some {| held := 1; delay := 8000 |}).
Proof.
  unfold triggerAccident, overtaking, isCandidate, car. Reval.
  unfold isCandidate. Reval.
  unfold blocked, stopped, car, crash, newTrafficModel. simpl. reflexivity.
Qed.


(** The loop body on a vehicle whose cooldown is over. *)
Lemma decided_checking (config : SimulationConfig) (dt : R)
    (this : TrafficModel) (visited : list Vehicle) (veh : Vehicle)
    (pending : list Vehicle) (r acc : R) :
  Vehicle.isCrashed veh = false ->
  Vehicle.laneChangeTimer veh <= 0 ->
  currentAcc config this visited veh pending r = acc ->
  decided config dt this visited veh pending r
  = checkLaneChange
      (set_vehicles this (visited ++ Vehicle.set_a veh acc :: pending))
      (Vehicle.set_a veh acc) acc config.
Proof.
  intros Hok Htimer Hacc. unfold decided. rewrite Hok, Hacc. cbv zeta.
  now rewrite Rleb_true.
Qed.

Lemma decided_crashed (config : SimulationConfig) (dt : R)
    (this : TrafficModel) (visited : list Vehicle) (veh : Vehicle)
    (pending : list Vehicle) (r : R) :
  Vehicle.isCrashed veh = true ->
  decided config dt this visited veh pending r
  = Vehicle.set_v (Vehicle.set_a veh 0) 0.
Proof. intros Hcrashed. unfold decided. now rewrite Hcrashed. Qed.

(** The first loop of the step on car 2 of [overtaking], car 1 being
    stopped behind it on the middle lane. *)
Section Overtaking.
Variable this : TrafficModel.
Hypothesis three_lanes : lanes this = 3%Z.

Let ahead : Vehicle := car 2 3000 0 30.
Let here (veh : Vehicle) : TrafficModel := set_vehicles this [veh; stopped].

Lemma ahead_currentAcc (dt r : R) :
  currentAcc quiet this [] ahead [stopped] r = 0.
Proof.
  unfold currentAcc, usesNoise, accBehind, getLeader, ahead, car, stopped.
  Reval. lra.
Qed.

Lemma ahead_accepts :
  mobil_accepts (here (Vehicle.set_a ahead 0)) (Vehicle.set_a ahead 0) 0
    quiet 1 = true.
Proof.
  unfold mobil_accepts, mobil_safe, mobil_a_c_new, mobil_delta_o, accBehind,
    mobil_bias, getFollower, getLeader, here, ahead, car, stopped.
  Reval.
  unfold calculateAcceleration, Math_max, JAM_DISTANCE, COMFORT_DECEL.
  Reval. reflexivity.
Qed.

Lemma ahead_decided (dt r : R) :
  decided quiet dt this [] ahead [stopped] r = turning.
Proof.
  rewrite (decided_checking quiet dt this [] ahead [stopped] r 0);
    [|reflexivity|simpl; lra|apply ahead_currentAcc; exact dt].
  rewrite checkLaneChange_decision; [|exact three_lanes|simpl; lia].
  unfold mobil_decision.
  change (mobil_candidates (Vehicle.lane (Vehicle.set_a ahead 0))) with [1%Z].
  cbn [find app]. fold (here (Vehicle.set_a ahead 0)).
  rewrite ahead_accepts. unfold direction_beyond, ahead, car, turning.
  Reval. reflexivity.
Qed.
End Overtaking.

Lemma integrateVehicle_turning : integrateVehicle (DT * 1.0) turning = merging.
Proof.
  unfold integrateVehicle, turning, merging, DT, Math_sign. Reval.
  same_vehicle.
Qed.

Lemma integrateVehicle_stopped :
  integrateVehicle (DT * 1.0) (Vehicle.set_v (Vehicle.set_a stopped 0) 0)
  = stopped.
Proof.
  unfold integrateVehicle, stopped, DT. Reval. same_vehicle.
Qed.

Lemma step_blocked : fst (step quiet blocked zeros 0%nat) = blockedLater.
Proof.
  rewrite step_idle.
  - cbn [fst]. unfold blocked, blockedLater.
    cbn [vehicles roadLength lanes nextId timeSinceLastSpawn fdPoints
           statsTimer blockedLane blockedLocation set_vehicles].
    assert (Hsort : sortByXDescending [car 2 3000 0 30; stopped]
                    = [car 2 3000 0 30; stopped]).
    { unfold sortByXDescending, car, stopped. Reval. reflexivity. }
    rewrite Hsort. rewrite !decideLoop_cons, decideLoop_nil. cbn [fst app].
    rewrite ahead_decided by reflexivity.
    rewrite decided_crashed by reflexivity.
    cbn [integrateLoop timeScale quiet].
    rewrite integrateVehicle_turning, integrateVehicle_stopped.
    unfold merging at 1, stopped at 1. Reval.
    unfold DT. f_equal; lra.
  - rewrite decideLoop_quiet_cursor by (simpl; lra).
    rewrite attempts_positive_inflow by (simpl; lra).
    unfold zeros, DT. simpl. Rdecide. reflexivity.
  - unfold DT. simpl. Rdecide. reflexivity.
Qed.

(** C5 as stated fails: the incident on car 1 is active when, one step
    later, car 2 has moved to the middle lane ahead of it; a further call of
    triggerAccident then crashes car 2 as well and changes the model. *)
Lemma second_incident_while_blocked :
  let first := fst (triggerAccident overtaking) in
  let later := fst (step quiet first zeros 0%nat) in
  let second := fst (triggerAccident later) in
  crashedCount first = 1%nat
  /\ blockedLane later = Some 1%Z
  /\ crashedCount later = 1%nat
  /\ crashedCount second = 2%nat
  /\ second <> later.
Proof.
  cbv zeta. rewrite triggerAccident_overtaking. cbn [fst].
  rewrite step_blocked.
  assert (Hsecond : vehicles (fst (triggerAccident blockedLater))
                    = [crash merging; stopped]).
  { unfold triggerAccident, blockedLater, isCandidate, merging.
    Reval. unfold isCandidate. Reval. reflexivity. }
  repeat split; try reflexivity.
  - unfold crashedCount. rewrite Hsecond. reflexivity.
  - intros Hsame. apply (f_equal vehicles) in Hsame.
    rewrite Hsecond in Hsame. unfold blockedLater in Hsame.
    cbn [vehicles] in Hsame. inversion Hsame.
Qed.

(** *** The bounds through the other operations *)

Lemma crashFirst_Forall (P : Vehicle -> Prop) (vs : list Vehicle) :
  (forall veh, P veh -> P (crash veh)) ->
  Forall P vs -> Forall P (crashFirst vs).
Proof.
  intros Hcrash Hvs. induction Hvs as [|veh rest Hveh Hrest IH];
    [constructor|].
  cbn [crashFirst]. destruct (isCandidate veh); constructor; auto.
Qed.

(** The vehicles of a fresh model, of a model after reset and of a model
    after triggerAccident are placed as a step needs them. *)
Lemma placed_kept :
  (forall len, Forall placed (vehicles (newTrafficModel len)))
  /\ (forall this, Forall placed (vehicles (reset this)))
  /\ (forall this, Forall placed (vehicles this) ->
                   Forall placed (vehicles (fst (triggerAccident this))))
  /\ (forall len veh, withinBounds len veh -> placed veh).
Proof.
  split; [|split; [|split]].
  - intros len. constructor.
  - intros this. constructor.
  - intros this Hplaced. unfold triggerAccident.
    destruct (find isCandidate (vehicles this)); [|exact Hplaced].
    cbn [fst vehicles]. apply crashFirst_Forall; [|exact Hplaced].
    intros veh Hveh. exact Hveh.
  - intros len veh (_ & [Hx _] & Hlane). split; assumption.
Qed.

(** ** The bounds of the data model *)

(** When the vehicles a step finds lie at [x >= 0] on one of the three
    lanes, then after the step every vehicle of the array is within the
    bounds, and the array holds, in order, exactly the vehicles whose
    position at the end of the integration does not exceed [roadLength],
    followed by the vehicle spawned in this step, if any. *)
Lemma step_bounds_from_placed :
  forall (config : SimulationConfig) (this : TrafficModel)
         (rnd : nat -> R) (pos : nat),
    lanes this = 3%Z -> 0 <= roadLength this -> 0 <= timeScale config ->
    unitDraws rnd ->
    Forall placed (vehicles this) ->
    let this' := fst (step config this rnd pos) in
    let moved := endOfIntegration config this rnd pos in
    Forall (withinBounds (roadLength this)) (vehicles this')
    /\ roadLength this' = roadLength this
    /\ (forall veh, In veh moved ->
          (In veh (vehicles this') <-> ~ Vehicle.x veh > roadLength this))
    /\ exists newcomers,
         vehicles this' = filter (onRoad (roadLength this)) moved ++ newcomers
         /\ (List.length newcomers <= 1)%nat
         /\ Forall (fun veh => Vehicle.x veh = 0) newcomers.
Proof.
  intros config this rnd pos Hlanes Hroad Hscale Hrnd Hplaced this' moved.
  assert (Hdt : 0 <= DT * timeScale config) by (unfold DT; nra).
  subst this' moved. unfold endOfIntegration. rewrite step_eq. cbv zeta.
  set (dt := DT * timeScale config) in *.
  set (sorted := set_vehicles this (sortByXDescending (vehicles this))).
  set (chosen := decideLoop config dt sorted [] (vehicles sorted) rnd pos).
  set (moved := set_vehicles this
                  (integrateLoop (roadLength this) dt (fst chosen))).
  cbn [fst].
  destruct (collectData_frame dt (fst (handleSpawning dt config moved rnd
                                         (snd chosen)))) as (-> & -> & _).
  destruct (handleSpawning_vehicles dt config moved rnd (snd chosen))
    as (-> & _ & Hgrown).
  assert (Hkept : Forall (withinBounds (roadLength this)) (vehicles moved)).
  { apply integrateLoop_withinBounds; [exact Hdt|].
    apply decideLoop_placed; [exact Hlanes|].
    now apply sortByXDescending_Forall. }
  assert (Hnew : withinBounds (roadLength this)
                   (spawned (bestLaneOf (lastPos moved)) (truckRatio config)
                      moved (rnd (S (snd chosen))) (rnd (S (S (snd chosen)))))).
  { apply spawned_withinBounds;
      [exact Hroad | apply Hrnd | apply bestLaneOf_range]. }
  assert (Hshape : exists newcomers,
            vehicles (fst (handleSpawning dt config moved rnd (snd chosen)))
            = filter (onRoad (roadLength this))
                (map (integrateVehicle dt) (fst chosen)) ++ newcomers
            /\ (List.length newcomers <= 1)%nat
            /\ Forall (fun veh => Vehicle.x veh = 0) newcomers).
  { destruct Hgrown as [-> | ->]; cbn [vehicles moved set_vehicles];
      rewrite integrateLoop_filter.
    - exists []. rewrite app_nil_r. repeat split; [simpl; lia | constructor].
    - eexists. split; [reflexivity|]. split; [simpl; lia|].
      constructor; [reflexivity | constructor]. }
  split; [|split; [reflexivity|split; [|exact Hshape]]].
  - destruct Hgrown as [-> | ->]; [exact Hkept|].
    apply Forall_app. split; [exact Hkept|]. constructor; [exact Hnew|constructor].
  - intros veh Hin. destruct Hshape as (newcomers & -> & _ & Hzero).
    rewrite in_app_iff, filter_In. unfold onRoad.
    rewrite negb_true_iff, Rgtb_iff_false. split.
    + intros [[_ Hx] | Hnewcomer]; [lra|].
      rewrite Forall_forall in Hzero. rewrite (Hzero veh Hnewcomer). lra.
    + intros Hx. left. split; [exact Hin | lra].
Qed.


Lemma step_frame (config : SimulationConfig) (this : TrafficModel)
    (rnd : nat -> R) (pos : nat) :
  roadLength (fst (step config this rnd pos)) = roadLength this
  /\ lanes (fst (step config this rnd pos)) = lanes this.
Proof.
  rewrite step_eq. cbv zeta. cbn [fst].
  match goal with
  | |- context [collectData ?dt ?m] =>
      destruct (collectData_frame dt m) as (_ & -> & ->)
  end.
  match goal with
  | |- context [handleSpawning ?dt ?c ?m ?r ?p] =>
      destruct (handleSpawning_vehicles dt c m r p) as (-> & -> & _)
  end.
  split; reflexivity.
Qed.

Lemma restoreAt_Forall (P : Vehicle -> Prop) (place : nat)
    (vs : list Vehicle) :
  (forall veh, P veh -> P (restore veh)) ->
  Forall P vs -> Forall P (restoreAt place vs).
Proof.
  intros Hrestore Hvs. revert place.
  induction Hvs as [|veh rest Hveh Hrest IH]; intros place;
    [destruct place; constructor|].
  destruct place; cbn [restoreAt]; constructor; auto.
Qed.

(** In every model the program can be in there are three lanes, the road
    length is not negative and every vehicle is within the bounds. *)
Lemma reachable_bounds (this : TrafficModel) :
  reachable this ->
  lanes this = 3%Z
  /\ 0 <= roadLength this
  /\ Forall (withinBounds (roadLength this)) (vehicles this).
Proof.
  intros Hreach.
  induction Hreach
    as [len Hlen
       | this config rnd pos _ (Hlanes & Hroad & Hvs) Hscale Hrnd
       | this _ (Hlanes & Hroad & Hvs)
       | this _ (Hlanes & Hroad & Hvs)
       | this place _ (Hlanes & Hroad & Hvs)].
  - repeat split; [exact Hlen | constructor].
  - destruct (step_frame config this rnd pos) as [Hroad' Hlanes'].
    rewrite Hroad', Hlanes'. repeat split; [exact Hlanes | exact Hroad |].
    apply (step_bounds_from_placed config this rnd pos); try assumption.
    destruct placed_kept as (_ & _ & _ & Hplaced).
    eapply Forall_impl; [|exact Hvs]. intros veh. apply Hplaced.
  - repeat split; [exact Hlanes | exact Hroad | constructor].
  - unfold triggerAccident.
    destruct (find isCandidate (vehicles this));
      cbn [fst lanes roadLength vehicles];
      repeat split; try assumption.
    apply crashFirst_Forall; [|exact Hvs].
    intros veh (Hv & Hx & Hlane). repeat split; try assumption.
    all: simpl; first [lra | lia].
  - cbn [fireTimeout lanes roadLength vehicles].
    repeat split; try assumption.
    destruct place as [i|]; [|exact Hvs].
    apply restoreAt_Forall; [|exact Hvs].
    intros veh Hveh. exact Hveh.
Qed.

(** *** Models reached with allowed configs *)

Lemma reachableBy_weaken (allowed allowed' : SimulationConfig -> Prop)
    (this : TrafficModel) :
  (forall config, allowed config -> allowed' config) ->
  reachableBy allowed this -> reachableBy allowed' this.
Proof.
  intros Himp. induction 1; [now apply by_new | apply by_step; auto
                            | now apply by_reset
                            | now apply by_triggerAccident
                            | now apply by_fireTimeout].
Qed.

Lemma reachableBy_reachable (allowed : SimulationConfig -> Prop)
    (this : TrafficModel) :
  (forall config, allowed config -> 0 <= timeScale config) ->
  reachableBy allowed this -> reachable this.
Proof.
  intros Hscale. induction 1; [now apply reach_new | apply reach_step; auto
                              | now apply reach_reset
                              | now apply reach_triggerAccident
                              | now apply reach_fireTimeout].
Qed.

Lemma panel_drivable (config : SimulationConfig) :
  panel config -> drivable config.
Proof.
  intros [(_ & [Hscale _] & _) Haccel]. split; [lra | exact Haccel].
Qed.

Lemma reachableBy_after (allowed : SimulationConfig -> Prop) (n : nat)
    (config : SimulationConfig) (this : TrafficModel) (rnd : nat -> R)
    (pos : nat) :
  allowed config -> unitDraws rnd -> reachableBy allowed this ->
  reachableBy allowed (fst (after n config this rnd pos)).
Proof.
  intros Hallowed Hrnd. revert this pos.
  induction n as [|n IH]; intros this pos Hthis; [exact Hthis|].
  cbn [after]. unfold bind.
  pose proof (by_step allowed this config rnd pos Hthis Hallowed Hrnd)
    as Hstep.
  destruct (step config this rnd pos) as [this' pos']. now apply IH.
Qed.

(** ** Reset *)

Lemma after_plus (n m : nat) (config : SimulationConfig)
    (this : TrafficModel) (rnd : nat -> R) (pos : nat) :
  after (n + m) config this rnd pos
  = after m config (fst (after n config this rnd pos)) rnd
      (snd (after n config this rnd pos)).
Proof.
  revert this pos. induction n as [|n IH]; intros this pos; [reflexivity|].
  cbn [Nat.add after]. unfold bind.
  destruct (step config this rnd pos) as [this' pos']. apply IH.
Qed.

(** A step on the empty road in which the spawner does not attempt and the
    statistics timer stays at or below one second. *)
Lemma step_emptyRoad_idle (config : SimulationConfig) (sinceSpawn stats : R)
    (rnd : nat -> R) (pos : nat) :
  let dt := DT * timeScale config in
  attempts dt config (emptyRoad sinceSpawn stats) (rnd pos) = false ->
  stats + dt <= 1 ->
  step config (emptyRoad sinceSpawn stats) rnd pos
  = (emptyRoad (sinceSpawn + dt) (stats + dt), S pos).
Proof.
  intros dt Hidle Hstats. subst dt. rewrite step_idle.
  - reflexivity.
  - exact Hidle.
  - apply Rgtb_iff_false. cbn [statsTimer emptyRoad]. lra.
Qed.

Lemma attempts_brisk (dt sinceSpawn stats r : R) :
  attempts dt brisk (emptyRoad sinceSpawn stats) r
  = Rltb ((r * 0.4 + 0.8) * 1.2) (sinceSpawn + dt).
Proof.
  rewrite attempts_positive_inflow by (simpl; lra).
  cbn [inflowRate brisk timeSinceLastSpawn emptyRoad].
  f_equal. lra.
Qed.

(** Idle steps of [brisk] on the empty road, as long as less than 0.96 s
    have passed since the last spawn. *)
Lemma after_emptyRoad_idle (n : nat) (sinceSpawn stats : R) (pos : nat) :
  let dt := DT * timeScale brisk in
  sinceSpawn + INR n * dt <= 0.96 ->
  stats + INR n * dt <= 1 ->
  after n brisk (emptyRoad sinceSpawn stats) zeros pos
  = (emptyRoad (sinceSpawn + INR n * dt) (stats + INR n * dt),
     (pos + n)%nat).
Proof.
  intros dt. assert (Hdt : 0 < dt) by (unfold dt, DT; simpl; lra).
  revert sinceSpawn stats pos.
  induction n as [|n IH]; intros sinceSpawn stats pos Hspawn Hstats.
  - cbn [after INR]. unfold ret. rewrite Nat.add_0_r.
    f_equal. unfold emptyRoad. f_equal; lra.
  - rewrite S_INR in Hspawn, Hstats. pose proof (pos_INR n) as Hn.
    cbn [after]. unfold bind. rewrite step_emptyRoad_idle.
    + fold dt. rewrite IH by nra. rewrite S_INR.
      f_equal; [|lia]. unfold emptyRoad. f_equal; lra.
    + rewrite attempts_brisk. unfold zeros. apply Rltb_false.
      fold dt. nra.
    + fold dt. nra.
Qed.

(** A step of [brisk] on the empty road when 0.96 s have passed since the
    last spawn and the statistics timer passes one second: the spawner puts
    a car on the road and a sample is appended. *)
Lemma step_emptyRoad_sample (sinceSpawn stats : R) (pos : nat) :
  let dt := DT * timeScale brisk in
  0.96 < sinceSpawn + dt -> 1 < stats + dt ->
  List.length
    (fdPoints (fst (step brisk (emptyRoad sinceSpawn stats) zeros pos)))
  = 1%nat.
Proof.
  intros dt Hspawn Hstats. rewrite step_eq. cbv zeta. fold dt.
  cbn [vehicles emptyRoad set_vehicles sortByXDescending fold_right].
  rewrite decideLoop_nil. cbn [fst snd integrateLoop roadLength].
  rewrite handleSpawning_eq. cbv zeta.
  rewrite attempts_set_vehicles.
  change (attempts dt brisk _ (zeros pos))
    with (attempts dt brisk (emptyRoad sinceSpawn stats) (zeros pos)).
  rewrite attempts_brisk. unfold zeros at 1.
  rewrite Rltb_true by lra.
  assert (Hclear : entryClear (set_vehicles (emptyRoad sinceSpawn stats) [])
                   = true) by reflexivity.
  rewrite Hclear. rewrite spawnVehicle_eq. cbn [fst].
  unfold collectData.
  cbn [statsTimer set_statsTimer set_timeSinceLastSpawn vehicles].
  change (statsTimer (set_vehicles (emptyRoad sinceSpawn stats) []))
    with stats.
  rewrite (proj2 (Rgtb_iff (stats + dt) 1.0)) by lra.
  unfold getStats. simpl. reflexivity.
Qed.

(** C10: reset empties the vehicle list and the FD history, clears the
    blockage record, sets [nextId = 1] and [timeSinceLastSpawn = 0], and
    leaves [statsTimer] (and the road) as it was; so when a fresh model has
    made one step at timeScale 4.9 and is reset, twelve further steps at
    inflow 3000, which are 0.98 s of simulated time, end with a sample in
    the FD history. *)
Theorem reset_keeps_statsTimer :
  (forall this : TrafficModel,
      vehicles (reset this) = []
      /\ fdPoints (reset this) = []
      /\ blockedLane (reset this) = None
      /\ blockedLocation (reset this) = None
      /\ nextId (reset this) = 1%Z
      /\ timeSinceLastSpawn (reset this) = 0
      /\ statsTimer (reset this) = statsTimer this
      /\ roadLength (reset this) = roadLength this
      /\ lanes (reset this) = lanes this)
  /\ (exists (config : SimulationConfig) (rnd : nat -> R) (n : nat),
        inRange config
        /\ unitDraws rnd
        /\ INR n * (DT * timeScale config) < 1
        /\ let this := fst (step config (newTrafficModel 5000) rnd 0%nat) in
           fdPoints (reset this) = []
           /\ List.length
                (fdPoints (fst (after n config (reset this) rnd 1%nat)))
              = 1%nat).
Proof.
  split.
  - intros this. repeat split.
  - exists brisk, zeros, 12%nat.
    split; [unfold inRange; simpl; lra|].
    split; [intros i; unfold zeros; lra|].
    split; [unfold DT; simpl; lra|].
    change (newTrafficModel 5000) with (emptyRoad 0 0).
    rewrite step_emptyRoad_idle;
      [|rewrite attempts_brisk; unfold zeros, DT; simpl; Rdecide; reflexivity
       |unfold DT; simpl; lra].
    cbn [fst]. split; [reflexivity|].
    change (reset (emptyRoad (0 + DT * timeScale brisk)
                     (0 + DT * timeScale brisk)))
      with (emptyRoad 0 (0 + DT * timeScale brisk)).
    rewrite (after_plus 11 1).
    rewrite after_emptyRoad_idle by (unfold DT; simpl; lra).
    cbn [fst snd after]. unfold bind.
    match goal with
    | |- context [step brisk (emptyRoad ?t ?s) zeros ?p] =>
        pose proof (step_emptyRoad_sample t s p) as Hsample;
        destruct (step brisk (emptyRoad t s) zeros p) as [last pos']
    end.
    cbn [ret fst] in *. apply Hsample; unfold DT; simpl; lra.
Qed.

(** ** The first arrival *)

(** The step of [step_emptyRoad_sample] puts the car [entrant] on the
    road. *)
Lemma step_emptyRoad_arrival (sinceSpawn stats : R) (pos : nat) :
  let dt := DT * timeScale brisk in
  0.96 < sinceSpawn + dt ->
  vehicles (fst (step brisk (emptyRoad sinceSpawn stats) zeros pos))
  = [entrant].
Proof.
  intros dt Hspawn. rewrite step_eq. cbv zeta. fold dt.
  cbn [vehicles emptyRoad set_vehicles sortByXDescending fold_right].
  rewrite decideLoop_nil. cbn [fst snd integrateLoop roadLength].
  match goal with
  | |- context [collectData ?d ?m] =>
      destruct (collectData_frame d m) as (-> & _ & _)
  end.
  rewrite handleSpawning_eq. cbv zeta.
  rewrite attempts_set_vehicles.
  change (attempts dt brisk _ (zeros pos))
    with (attempts dt brisk (emptyRoad sinceSpawn stats) (zeros pos)).
  rewrite attempts_brisk. unfold zeros at 1.
  rewrite Rltb_true by lra.
  assert (Hclear : entryClear (set_vehicles (emptyRoad sinceSpawn stats) [])
                   = true) by reflexivity.
  rewrite Hclear. rewrite spawnVehicle_eq. reflexivity.
Qed.

Lemma restarted_eq :
  exists (sinceSpawn stats : R) (pos : nat),
    restarted = fst (step brisk (emptyRoad sinceSpawn stats) zeros pos)
    /\ 0.96 < sinceSpawn + DT * timeScale brisk
    /\ 1 < stats + DT * timeScale brisk.
Proof.
  unfold restarted.
  change (newTrafficModel 5000) with (emptyRoad 0 0).
  rewrite step_emptyRoad_idle;
    [|rewrite attempts_brisk; unfold zeros, DT; simpl; Rdecide; reflexivity
     |unfold DT; simpl; lra].
  cbn [fst].
  change (reset (emptyRoad (0 + DT * timeScale brisk)
                   (0 + DT * timeScale brisk)))
    with (emptyRoad 0 (0 + DT * timeScale brisk)).
  rewrite (after_plus 11 1).
  rewrite after_emptyRoad_idle by (unfold DT; simpl; lra).
  cbn [fst snd after]. unfold bind.
  do 3 eexists. split.
  - match goal with
    | |- context [step brisk (emptyRoad ?t ?s) zeros ?p] =>
        destruct (step brisk (emptyRoad t s) zeros p) as [last pos'] eqn:Hlast
    end.
    cbn [ret fst]. rewrite Hlast. reflexivity.
  - unfold DT. simpl. lra.
Qed.

(** What [restarted] holds: the one car, and the one sample. *)
Lemma restarted_holds :
  vehicles restarted = [entrant]
  /\ List.length (fdPoints restarted) = 1%nat.
Proof.
  destruct restarted_eq as (sinceSpawn & stats & pos & -> & Hspawn & Hstats).
  split.
  - now apply step_emptyRoad_arrival.
  - now apply step_emptyRoad_sample.
Qed.

Lemma panel_brisk : panel brisk.
Proof. unfold panel, inRange. simpl. lra. Qed.

Lemma unitDraws_zeros : unitDraws zeros.
Proof. intros n. unfold zeros. lra. Qed.

Lemma reachableBy_restarted (allowed : SimulationConfig -> Prop) :
  allowed brisk -> reachableBy allowed restarted.
Proof.
  intros Hbrisk. unfold restarted.
  apply reachableBy_after; [exact Hbrisk | exact unitDraws_zeros |].
  apply by_reset.
  apply by_step; [apply by_new; lra | exact Hbrisk | exact unitDraws_zeros].
Qed.

(** ** Determinism *)

Lemma tame_ret {A : Type} (a : A) : tame (ret a).
Proof. split; [intros rnd pos; simpl; lia | intros rnd1 rnd2 pos _; reflexivity]. Qed.

Lemma tame_random : tame random.
Proof.
  split.
  - intros rnd pos. simpl. lia.
  - intros rnd1 rnd2 pos Hagree. unfold random in *. simpl in Hagree.
    rewrite (Hagree pos) by lia. reflexivity.
Qed.

Lemma tame_bind {A B : Type} (m : Rand A) (f : A -> Rand B) :
  tame m -> (forall a, tame (f a)) -> tame (bind m f).
Proof.
  intros [Hfm Hsm] Hf. split.
  - intros rnd pos. unfold bind.
    specialize (Hfm rnd pos). destruct (m rnd pos) as [a pos1].
    destruct (Hf a) as [Hff _]. specialize (Hff rnd pos1).
    simpl in Hfm. lia.
  - intros rnd1 rnd2 pos Hagree. unfold bind in *.
    pose proof (Hfm rnd1 pos) as Hle.
    destruct (m rnd1 pos) as [a pos1] eqn:Hm1. simpl in Hle.
    destruct (Hf a) as [Hff Hsf]. pose proof (Hff rnd1 pos1) as Hle1.
    assert (Hm2 : m rnd2 pos = (a, pos1)).
    { rewrite <- Hm1. symmetry. apply Hsm. rewrite Hm1. simpl.
      intros n Hn. apply Hagree. lia. }
    rewrite Hm2. apply Hsf. intros n Hn. apply Hagree. lia.
Qed.

Lemma tame_if {A : Type} (b : bool) (m1 m2 : Rand A) :
  tame m1 -> tame m2 -> tame (if b then m1 else m2).
Proof. destruct b; auto. Qed.


Create HintDb tame.
#[local] Hint Resolve tame_ret tame_random tame_bind tame_if : tame.

Lemma tame_decideVehicle (config : SimulationConfig) (dt : R)
    (this : TrafficModel) (visited : list Vehicle) (veh : Vehicle)
    (pending : list Vehicle) :
  tame (decideVehicle config dt this visited veh pending).
Proof. unfold decideVehicle. auto 8 with tame. Qed.

Lemma tame_decideLoop (config : SimulationConfig) (dt : R)
    (this : TrafficModel) (pending visited : list Vehicle) :
  tame (decideLoop config dt this visited pending).
Proof.
  revert visited. induction pending as [|veh pending IH]; intros visited;
    cbn [decideLoop]; auto using tame_decideVehicle with tame.
Qed.

Lemma tame_spawnVehicle (lane : Z) (truckRatio : R)
    (config : SimulationConfig) (this : TrafficModel) :
  tame (spawnVehicle lane truckRatio config this).
Proof. unfold spawnVehicle. auto 8 with tame. Qed.

Lemma tame_handleSpawning (dt : R) (config : SimulationConfig)
    (this : TrafficModel) :
  tame (handleSpawning dt config this).
Proof.
  unfold handleSpawning. cbv zeta. auto 8 using tame_spawnVehicle with tame.
Qed.

Lemma tame_step (config : SimulationConfig) (this : TrafficModel) :
  tame (step config this).
Proof.
  unfold step. cbv zeta.
  auto 8 using tame_decideLoop, tame_handleSpawning with tame.
Qed.

Lemma tame_run (configs : list SimulationConfig) (this : TrafficModel) :
  tame (run configs this).
Proof.
  revert this. induction configs as [|config configs IH]; intros this.
  - apply tame_ret.
  - cbn [run]. apply tame_bind; [apply tame_step|]. intros this'.
    apply tame_bind; [apply IH | intros rest; apply tame_ret].
Qed.

(** The random source is read only at the cursors a run passes: two runs
    from the same model with the same sequence of configs, whose random
    sources give the same draws wherever the first run draws, pass through
    the same models, step after step, consume the same number of draws and
    report the same statistics after every step.  This is a property of the
    embedding, in which [Math.random()] is an oracle; the source has no seed
    to fix, and the bits of its doubles are not modelled. *)
Theorem run_deterministic :
  forall (configs : list SimulationConfig) (this : TrafficModel)
         (rnd1 rnd2 : nat -> R) (pos : nat),
    agree rnd1 rnd2 pos (snd (run configs this rnd1 pos)) ->
    run configs this rnd1 pos = run configs this rnd2 pos
    /\ map getStats (fst (run configs this rnd1 pos))
       = map getStats (fst (run configs this rnd2 pos)).
Proof.
  intros configs this rnd1 rnd2 pos Hagree.
  destruct (tame_run configs this) as [_ Hsteady].
  rewrite (Hsteady rnd1 rnd2 pos Hagree). split; reflexivity.
Qed.

Lemma run_coolingModel_cursor :
  snd (run [quiet] coolingModel zeros 0%nat) = 1%nat.
Proof.
  cbn [run]. unfold bind at 1. rewrite step_idle.
  - unfold bind, ret. cbn [run snd fst].
    now rewrite decideLoop_quiet_cursor by (simpl; lra).
  - rewrite decideLoop_quiet_cursor by (simpl; lra).
    rewrite attempts_positive_inflow by (simpl; lra).
    unfold zeros, DT. simpl. Rdecide. reflexivity.
  - unfold DT. simpl. Rdecide. reflexivity.
Qed.

Lemma run_deterministic_witness :
  run [quiet] coolingModel zeros 0%nat
  = run [quiet] coolingModel zeroThenHalf 0%nat
  /\ map getStats (fst (run [quiet] coolingModel zeros 0%nat))
     = map getStats (fst (run [quiet] coolingModel zeroThenHalf 0%nat)).
Proof.
  apply (run_deterministic [quiet] coolingModel zeros zeroThenHalf 0%nat).
  rewrite run_coolingModel_cursor. intros n Hn.
  assert (n = 0%nat) as -> by lia. reflexivity.
Defined.

(** * Further properties *)

(** ** The sort of the step *)

Lemma insertByX_Permutation (veh : Vehicle) (sorted : list Vehicle) :
  Permutation (veh :: sorted) (insertByX veh sorted).
Proof.
  induction sorted as [|other rest IH]; [reflexivity|].
  cbn [insertByX]. destruct (Rgtb _ _); [|reflexivity].
  rewrite perm_swap. now apply perm_skip.
Qed.

Lemma sortByXDescending_Permutation (vs : list Vehicle) :
  Permutation vs (sortByXDescending vs).
Proof.
  induction vs as [|veh rest IH]; [reflexivity|].
  cbn [sortByXDescending fold_right].
  rewrite <- insertByX_Permutation. now apply perm_skip.
Qed.

Lemma insertByX_descending (veh : Vehicle) (sorted : list Vehicle) :
  descending sorted -> descending (insertByX veh sorted).
Proof.
  unfold descending. intros Hsorted.
  induction Hsorted as [|other rest Hrest IH Hother].
  - repeat constructor.
  - cbn [insertByX]. destruct (Rgtb _ _) eqn:Hgt.
    + apply Rgtb_iff in Hgt. constructor; [exact IH|].
      eapply Permutation_Forall; [apply insertByX_Permutation|].
      constructor; [lra | exact Hother].
    + apply Rgtb_iff_false in Hgt. constructor.
      * constructor; assumption.
      * constructor; [exact Hgt|].
        eapply Forall_impl; [|exact Hother]. intros b Hb. simpl in Hb. lra.
Qed.

Lemma sortByXDescending_descending (vs : list Vehicle) :
  descending (sortByXDescending vs).
Proof.
  induction vs as [|veh rest IH]; [constructor|].
  cbn [sortByXDescending fold_right]. now apply insertByX_descending.
Qed.

Lemma insertByX_atX (c : R) (veh : Vehicle) (sorted : list Vehicle) :
  filter (atX c) (insertByX veh sorted) = filter (atX c) (veh :: sorted).
Proof.
  induction sorted as [|other rest IH]; [reflexivity|].
  cbn [insertByX]. destruct (Rgtb _ _) eqn:Hgt; [|reflexivity].
  apply Rgtb_iff in Hgt. cbn [filter] in *. rewrite IH.
  unfold atX.
  destruct (Req_dec_T (Vehicle.x veh) c), (Req_dec_T (Vehicle.x other) c);
    try reflexivity; lra.
Qed.

Lemma sortByXDescending_atX (c : R) (vs : list Vehicle) :
  filter (atX c) (sortByXDescending vs) = filter (atX c) vs.
Proof.
  induction vs as [|veh rest IH]; [reflexivity|].
  cbn [sortByXDescending fold_right]. rewrite insertByX_atX.
  cbn [filter]. fold (sortByXDescending rest). now rewrite IH.
Qed.

(** X1: the sort at the head of step rearranges the vehicles (none is
    lost, added or changed), leaves them in descending order of [x], and
    keeps vehicles at the same position in the order they had. *)
Theorem sortByXDescending_sorts :
  forall vs : list Vehicle,
    Permutation vs (sortByXDescending vs)
    /\ descending (sortByXDescending vs)
    /\ forall c : R,
         filter (atX c) (sortByXDescending vs) = filter (atX c) vs.
Proof.
  intros vs. split; [|split].
  - apply sortByXDescending_Permutation.
  - apply sortByXDescending_descending.
  - intros c. apply sortByXDescending_atX.
Qed.

Lemma sortByXDescending_fixed (vs : list Vehicle) :
  descending vs -> sortByXDescending vs = vs.
Proof.
  unfold descending. intros Hsorted.
  induction Hsorted as [|veh rest Hrest IH Hveh]; [reflexivity|].
  cbn [sortByXDescending fold_right]. fold (sortByXDescending rest).
  rewrite IH. destruct rest as [|other rest']; [reflexivity|].
  cbn [insertByX]. inversion Hveh as [|? ? Hother _]; subst.
  now rewrite (proj2 (Rgtb_iff_false (Vehicle.x other) (Vehicle.x veh))).
Qed.

(** X2: an array that is in descending order of [x] already is left as it
    is, ties included; so sorting twice is sorting once. *)
Theorem sortByXDescending_idempotent :
  (forall vs : list Vehicle, descending vs -> sortByXDescending vs = vs)
  /\ (forall vs : list Vehicle,
        sortByXDescending (sortByXDescending vs) = sortByXDescending vs).
Proof.
  split.
  - apply sortByXDescending_fixed.
  - intros vs. apply sortByXDescending_fixed, sortByXDescending_descending.
Qed.

Lemma sortByXDescending_idempotent_witness :
  sortByXDescending [car 2 10 0 30; car 1 10 0 30; car 3 0 0 30]
  = [car 2 10 0 30; car 1 10 0 30; car 3 0 0 30].
Proof.
  apply (proj1 sortByXDescending_idempotent).
  unfold descending.
  repeat (constructor; [|repeat constructor; simpl; lra]). constructor.
Defined.

(** ** The IDM function, continued *)

Lemma pow4_nonneg (r : R) : 0 <= r ^ 4.
Proof.
  replace (r ^ 4) with ((r * r) * (r * r)) by ring. apply Rle_0_sqr.
Qed.

Lemma Math_max_ge_floor (s : R) : 0.1 <= Math_max 0.1 s.
Proof. unfold Math_max, Rltb. destruct (Rlt_dec 0.1 s); lra. Qed.

Lemma Math_max_monotone (s1 s2 : R) :
  s1 <= s2 -> Math_max 0.1 s1 <= Math_max 0.1 s2.
Proof.
  intros H. unfold Math_max, Rltb.
  destruct (Rlt_dec 0.1 s1), (Rlt_dec 0.1 s2); lra.
Qed.

(** The interaction term shrinks, in absolute value, as the gap widens. *)
Lemma squared_ratio_antitone (s e1 e2 : R) :
  0 < e1 -> e1 <= e2 -> (s / e2) ^ 2 <= (s / e1) ^ 2.
Proof.
  intros Hpos Hle.
  assert (Hinv : / e2 <= / e1) by (apply Rinv_le_contravar; lra).
  assert (Hinv2 : 0 < / e2) by (apply Rinv_0_lt_compat; lra).
  unfold Rdiv. replace ((s * / e2) ^ 2) with (s * s * (/ e2 * / e2)) by ring.
  replace ((s * / e1) ^ 2) with (s * s * (/ e1 * / e1)) by ring.
  apply Rmult_le_compat_l; [apply Rle_0_sqr | nra].
Qed.

(** X3: for a positive [maxAccel] and a positive desired speed the
    acceleration never exceeds [maxAccel], whatever the speeds and the gap,
    and a leader only ever lowers it below the free-road value. *)
Theorem calculateAcceleration_bounded :
  forall (v : R) (vLeader gap : option R) (v0 : R) (config : SimulationConfig),
    0 < maxAccel config -> 0 < v0 ->
    calculateAcceleration v vLeader gap v0 config
    <= calculateAcceleration v None None v0 config
    /\ calculateAcceleration v None None v0 config <= maxAccel config.
Proof.
  intros v vLeader gap v0 config Hmax Hv0. split.
  - unfold calculateAcceleration.
    destruct gap as [s|], vLeader as [vl|]; try lra.
    match goal with
    | |- _ + - _ * ?q ^ 2 <= _ => pose proof (pow2_ge_0 q) as Hq
    end.
    nra.
  - unfold calculateAcceleration, IDM_DELTA.
    pose proof (pow4_nonneg (v / v0)) as Hp. nra.
Qed.

Lemma calculateAcceleration_bounded_witness :
  calculateAcceleration 20 (Some 10) (Some 5) 30 baseline
  <= calculateAcceleration 20 None None 30 baseline
  /\ calculateAcceleration 20 None None 30 baseline <= maxAccel baseline.
Proof.
  apply (calculateAcceleration_bounded 20 (Some 10) (Some 5) 30 baseline).
  - simpl. lra.
  - lra.
Defined.

(** X4: for a positive [maxAccel] and a positive desired speed the
    acceleration behind a leader does not decrease when the gap grows, and
    every gap of 0.1 m or less, negative ones included, gives the
    acceleration of a gap of 0.1 m. *)
Theorem calculateAcceleration_gap_monotone :
  forall (v vLeader gap1 gap2 v0 : R) (config : SimulationConfig),
    0 < maxAccel config -> 0 < v0 ->
    (gap1 <= gap2 ->
     calculateAcceleration v (Some vLeader) (Some gap1) v0 config
     <= calculateAcceleration v (Some vLeader) (Some gap2) v0 config)
    /\ (gap1 <= 0.1 ->
        calculateAcceleration v (Some vLeader) (Some gap1) v0 config
        = calculateAcceleration v (Some vLeader) (Some 0.1) v0 config).
Proof.
  intros v vLeader gap1 gap2 v0 config Hmax Hv0. split.
  - intros Hgap. unfold calculateAcceleration.
    pose proof (Math_max_ge_floor gap1) as Hfloor.
    pose proof (Math_max_monotone gap1 gap2 Hgap) as Hmono.
    match goal with
    | |- _ + - _ * (?s / _) ^ 2 <= _ =>
        pose proof (squared_ratio_antitone s (Math_max 0.1 gap1)
                      (Math_max 0.1 gap2)) as Hsq
    end.
    assert (0 < Math_max 0.1 gap1) by lra. nra.
  - intros Hgap. unfold calculateAcceleration.
    replace (Math_max 0.1 gap1) with (Math_max 0.1 0.1); [reflexivity|].
    unfold Math_max, Rltb.
    destruct (Rlt_dec 0.1 0.1), (Rlt_dec 0.1 gap1); lra.
Qed.

Lemma calculateAcceleration_gap_monotone_witness :
  calculateAcceleration 20 (Some 10) (Some (-3)) 30 baseline
  <= calculateAcceleration 20 (Some 10) (Some 50) 30 baseline
  /\ calculateAcceleration 20 (Some 10) (Some (-3)) 30 baseline
     = calculateAcceleration 20 (Some 10) (Some 0.1) 30 baseline.
Proof.
  destruct (calculateAcceleration_gap_monotone 20 10 (-3) 50 30 baseline)
    as [Hmono Hfloor]; [simpl; lra|lra|].
  split; [apply Hmono | apply Hfloor]; lra.
Defined.

(** ** MOBIL, continued *)

Lemma set_lane_sameButLane (veh : Vehicle) (l : Z) (t : R) (d : Z) :
  sameButLane veh
    (Vehicle.set_laneChangeDirection
       (Vehicle.set_laneChangeTimer (Vehicle.set_lane veh l) t) d).
Proof. unfold sameButLane. repeat split. Qed.

Lemma sameButLane_refl (veh : Vehicle) : sameButLane veh veh.
Proof. unfold sameButLane. repeat split. Qed.

Lemma candidateLanes_adjacent (this : TrafficModel) (veh : Vehicle) (l : Z) :
  In l (candidateLanes this veh) ->
  (l = Vehicle.lane veh - 1 /\ 0 <= l
   \/ l = Vehicle.lane veh + 1 /\ l <= lanes this - 1)%Z.
Proof.
  unfold candidateLanes. intros Hin. apply in_app_or in Hin.
  destruct (Vehicle.lane veh >? 0)%Z eqn:Hgt,
    (Vehicle.lane veh <? lanes this - 1)%Z eqn:Hlt;
    destruct Hin as [Hin|Hin]; simpl in Hin; try tauto;
    destruct Hin as [<-|[]]; lia.
Qed.

(** X5: checkLaneChange either leaves the vehicle as it is, or moves it by
    exactly one lane, restarts the cooldown at 3.0 and sets the indicator
    to 1 or -1; no other field of the vehicle changes, and a vehicle on a
    lane between 0 and [lanes - 1] stays between them. *)
Theorem checkLaneChange_frame :
  forall (this : TrafficModel) (veh : Vehicle) (accCurrent : R)
         (config : SimulationConfig),
    let veh' := checkLaneChange this veh accCurrent config in
    veh' = veh
    \/ (sameButLane veh veh'
        /\ (Vehicle.lane veh' = Vehicle.lane veh - 1
            \/ Vehicle.lane veh' = Vehicle.lane veh + 1)%Z
        /\ ((0 <= Vehicle.lane veh <= lanes this - 1)%Z ->
            (0 <= Vehicle.lane veh' <= lanes this - 1)%Z)
        /\ Vehicle.laneChangeTimer veh' = 3.0
        /\ (Vehicle.laneChangeDirection veh' = 1
            \/ Vehicle.laneChangeDirection veh' = -1)%Z).
Proof.
  intros this veh accCurrent config veh'. subst veh'.
  destruct (checkLaneChange_cases this veh accCurrent config)
    as [-> | (l & Hin & ->)]; [left; reflexivity | right].
  apply candidateLanes_adjacent in Hin.
  split; [apply set_lane_sameButLane|].
  cbn [Vehicle.lane Vehicle.laneChangeTimer Vehicle.laneChangeDirection
         Vehicle.set_laneChangeDirection Vehicle.set_laneChangeTimer
         Vehicle.set_lane].
  split; [lia|]. split; [lia|]. split; [reflexivity|].
  unfold direction_beyond. destruct (Rgtb _ _); auto.
Qed.

Lemma checkLaneChange_frame_witness :
  let veh := car 1 100 1 30 in
  let veh' := checkLaneChange (roadWith veh) veh 0 baseline in
  veh' = veh
  \/ (sameButLane veh veh'
      /\ (Vehicle.lane veh' = Vehicle.lane veh - 1
          \/ Vehicle.lane veh' = Vehicle.lane veh + 1)%Z
      /\ (0 <= Vehicle.lane veh' <= 2)%Z
      /\ Vehicle.laneChangeTimer veh' = 3.0
      /\ (Vehicle.laneChangeDirection veh' = 1
          \/ Vehicle.laneChangeDirection veh' = -1)%Z).
Proof.
  destruct (checkLaneChange_frame (roadWith (car 1 100 1 30))
              (car 1 100 1 30) 0 baseline)
    as [Hsame | (Hframe & Hstep & Hrange & Htimer & Hdir)];
    [left; exact Hsame | right].
  split; [exact Hframe|]. split; [exact Hstep|].
  split; [apply Hrange; simpl; lia|]. split; [exact Htimer | exact Hdir].
Defined.

(** Nothing is found around a vehicle that is alone. *)
Lemma alone_no_neighbour (vehicle : Vehicle) (targetLane : Z)
    (dist : Vehicle -> R) (rest : list Vehicle) (minDist : xnumber)
    (best : option Vehicle) :
  (forall other, In other rest -> Vehicle.id other = Vehicle.id vehicle) ->
  nearest_loop vehicle targetLane dist rest minDist best = best.
Proof.
  revert minDist best. induction rest as [|other rest IH];
    intros minDist best Halone; [reflexivity|].
  cbn [nearest_loop].
  rewrite (proj2 (Z.eqb_eq _ _) (Halone other (or_introl eq_refl))).
  apply IH. intros o Ho. apply Halone. now right.
Qed.

Lemma alone_getLeader (this : TrafficModel) (veh : Vehicle) (l : Z) :
  alone this veh -> getLeader this veh l = None.
Proof.
  intros Halone. unfold getLeader.
  rewrite getLeader_nearest_loop. now apply alone_no_neighbour.
Qed.

Lemma alone_getFollower (this : TrafficModel) (veh : Vehicle) (l : Z) :
  alone this veh -> getFollower this veh l = None.
Proof.
  intros Halone. unfold getFollower.
  rewrite getFollower_nearest_loop. now apply alone_no_neighbour.
Qed.

Lemma alone_accepts (this : TrafficModel) (veh : Vehicle) (a_c : R)
    (config : SimulationConfig) (target : Z) :
  alone this veh ->
  mobil_accepts this veh a_c config target
  = Rgtb (calculateAcceleration (Vehicle.v veh) None None
            (Vehicle.targetSpeed veh) config - a_c
          + mobil_bias (Vehicle.lane veh) target) 0.1.
Proof.
  intros Halone.
  unfold mobil_accepts, mobil_safe, mobil_a_c_new, mobil_delta_o, accBehind.
  rewrite !alone_getFollower, alone_getLeader by exact Halone.
  cbn [andb]. apply Rgtb_ext. lra.
Qed.

(** X6: a vehicle with a positive desired speed that is alone on a road of
    three lanes, below lane 2, moves one lane up (to the higher index) as
    soon as checkLaneChange is called with an acceleration within 0.3 below
    and 0.1 above its free-road acceleration; on lane 2 it stays. *)
Theorem checkLaneChange_alone_drifts_up :
  forall (this : TrafficModel) (veh : Vehicle) (accCurrent : R)
         (config : SimulationConfig),
    lanes this = 3%Z -> (0 <= Vehicle.lane veh <= 2)%Z -> alone this veh ->
    0 < Vehicle.targetSpeed veh ->
    let free :=
      calculateAcceleration (Vehicle.v veh) None None
        (Vehicle.targetSpeed veh) config in
    free - 0.3 <= accCurrent < free + 0.1 ->
    let veh' := checkLaneChange this veh accCurrent config in
    ((Vehicle.lane veh < 2)%Z ->
     Vehicle.lane veh' = (Vehicle.lane veh + 1)%Z
     /\ Vehicle.laneChangeTimer veh' = 3.0)
    /\ (Vehicle.lane veh = 2%Z -> veh' = veh).
Proof.
  intros this veh accCurrent config Hlanes Hlane Halone Hv0 free Hacc veh'.
  subst veh'. rewrite checkLaneChange_decision by assumption.
  unfold mobil_decision.
  assert (Haccepts : forall target,
            mobil_accepts this veh accCurrent config target
            = Rgtb (free - accCurrent + mobil_bias (Vehicle.lane veh) target)
                   0.1)
    by (intros target; now apply alone_accepts).
  clearbody free.
  assert (Hcases : Vehicle.lane veh = 0%Z \/ Vehicle.lane veh = 1%Z
                   \/ Vehicle.lane veh = 2%Z) by lia.
  destruct Hcases as [H | [H | H]]; rewrite H in *;
    unfold mobil_candidates; simpl filter; cbn [find];
    rewrite ?Haccepts; unfold mobil_bias; simpl; Rdecide; simpl;
    (split; [intros; try lia; split; reflexivity|]);
    intros; try lia; try discriminate; reflexivity.
Qed.

Lemma checkLaneChange_alone_drifts_up_witness :
  let veh := car 1 100 1 30 in
  let veh' := checkLaneChange (roadWith veh) veh 0 baseline in
  ((Vehicle.lane veh < 2)%Z ->
   Vehicle.lane veh' = (Vehicle.lane veh + 1)%Z
   /\ Vehicle.laneChangeTimer veh' = 3.0)
  /\ (Vehicle.lane veh = 2%Z -> veh' = veh).
Proof.
  apply (checkLaneChange_alone_drifts_up (roadWith (car 1 100 1 30))
           (car 1 100 1 30) 0 baseline).
  - reflexivity.
  - simpl. lia.
  - intros other [<-|[]]. reflexivity.
  - simpl. lra.
  - rewrite calculateAcceleration_at_desired_speed. lra.
Defined.

(** ** The step, vehicle by vehicle *)

Lemma Rleb_iff (a b : R) : Rleb a b = true <-> a <= b.
Proof.
  unfold Rleb. destruct (Rle_dec a b); split; intros; try discriminate; tauto.
Qed.

(** The four ways through the body of the first loop. *)
Lemma decided_cases (config : SimulationConfig) (dt : R)
    (this : TrafficModel) (visited : list Vehicle) (veh : Vehicle)
    (pending : list Vehicle) (r : R) :
  let veh' := decided config dt this visited veh pending r in
  (Vehicle.isCrashed veh = true
   /\ veh' = Vehicle.set_v (Vehicle.set_a veh 0) 0)
  \/ (Vehicle.isCrashed veh = false
      /\ exists acc,
           (0 < Vehicle.laneChangeTimer veh
            /\ veh' = Vehicle.set_laneChangeTimer (Vehicle.set_a veh acc)
                        (Vehicle.laneChangeTimer veh - dt))
           \/ (Vehicle.laneChangeTimer veh <= 0
               /\ (veh' = Vehicle.set_a veh acc
                   \/ exists l,
                        (l = Vehicle.lane veh - 1 \/ l = Vehicle.lane veh + 1)%Z
                        /\ veh'
                           = Vehicle.set_laneChangeDirection
                               (Vehicle.set_laneChangeTimer
                                  (Vehicle.set_lane (Vehicle.set_a veh acc) l)
                                  3.0)
                               (direction_beyond l (Vehicle.y veh))))).
Proof.
  unfold decided. destruct (Vehicle.isCrashed veh); [left; auto|right].
  split; [reflexivity|]. cbv zeta.
  exists (currentAcc config this visited veh pending r).
  destruct (Rleb _ 0) eqn:Htimer.
  - right. apply Rleb_iff in Htimer. split; [exact Htimer|].
    match goal with
    | |- context [checkLaneChange ?t ?v ?a ?c] =>
        destruct (checkLaneChange_cases t v a c) as [-> | (l & Hin & ->)]
    end; [left; reflexivity | right].
    exists l. split; [|reflexivity].
    apply candidateLanes_adjacent in Hin. cbn [Vehicle.lane Vehicle.set_a] in Hin.
    lia.
  - left. split; [|reflexivity].
    unfold Rleb in Htimer. destruct (Rle_dec _ 0); [discriminate | lra].
Qed.

Lemma decideLoop_Forall2 (Q : Vehicle -> Vehicle -> Prop)
    (config : SimulationConfig) (dt : R) (this : TrafficModel) :
  (forall visited veh pending r,
      Q veh (decided config dt this visited veh pending r)) ->
  forall (pending visited : list Vehicle) (rnd : nat -> R) (pos : nat),
    exists images,
      fst (decideLoop config dt this visited pending rnd pos)
      = visited ++ images
      /\ Forall2 Q pending images.
Proof.
  intros Hbody pending.
  induction pending as [|veh pending IH]; intros visited rnd pos.
  - exists []. rewrite app_nil_r. split; [reflexivity | constructor].
  - rewrite decideLoop_cons.
    destruct (IH (visited ++ [decided config dt this visited veh pending
                                (rnd pos)]) rnd (afterDecide config veh pos))
      as (images & -> & Himages).
    eexists. rewrite <- app_assoc. split; [reflexivity|].
    constructor; [apply Hbody | exact Himages].
Qed.

Lemma endOfIntegration_Forall2 (S : Vehicle -> Vehicle -> Prop)
    (config : SimulationConfig) (this : TrafficModel) (rnd : nat -> R)
    (pos : nat) :
  (forall this0 visited veh pending r,
      S veh (integrateVehicle (DT * timeScale config)
               (decided config (DT * timeScale config) this0 visited veh
                  pending r))) ->
  Forall2 S (sortByXDescending (vehicles this))
    (endOfIntegration config this rnd pos).
Proof.
  intros Hbody. unfold endOfIntegration. cbv zeta.
  cbn [vehicles set_vehicles].
  set (dt := DT * timeScale config) in *.
  set (sorted := set_vehicles this (sortByXDescending (vehicles this))).
  destruct (decideLoop_Forall2
              (fun veh veh' => S veh (integrateVehicle dt veh'))
              config dt sorted (Hbody sorted)
              (sortByXDescending (vehicles this)) [] rnd pos)
    as (images & -> & Himages).
  cbn [app]. induction Himages; cbn [map]; constructor; assumption.
Qed.

(** What a step appends to the array, and what it does to [nextId]. *)
Lemma step_newcomers (config : SimulationConfig) (this : TrafficModel)
    (rnd : nat -> R) (pos : nat) :
  let this' := fst (step config this rnd pos) in
  let moved := endOfIntegration config this rnd pos in
  exists newcomers,
    vehicles this' = filter (onRoad (roadLength this)) moved ++ newcomers
    /\ nextId this' = (nextId this + Z.of_nat (List.length newcomers))%Z
    /\ (newcomers = []
        \/ exists veh,
             newcomers = [veh]
             /\ Vehicle.id veh = nextId this
             /\ Vehicle.x veh = 0
             /\ Vehicle.isCrashed veh = false
             /\ Vehicle.laneChangeTimer veh = 0).
Proof.
  cbv zeta. unfold endOfIntegration. rewrite step_eq. cbv zeta. cbn [fst].
  set (dt := DT * timeScale config).
  set (sorted := set_vehicles this (sortByXDescending (vehicles this))).
  set (chosen := decideLoop config dt sorted [] (vehicles sorted) rnd pos).
  rewrite <- integrateLoop_filter.
  set (movedModel := set_vehicles this
                       (integrateLoop (roadLength this) dt (fst chosen))).
  assert (Hcollect : forall m,
            vehicles (collectData dt m) = vehicles m
            /\ nextId (collectData dt m) = nextId m).
  { intros m. unfold collectData. cbn [statsTimer set_statsTimer].
    destruct (Rgtb _ 1.0); [|cbn; auto].
    destruct (0 <? count _)%nat; [|cbn; auto].
    cbn [fdPoints set_fdPoints]. destruct (200 <? _)%nat; cbn; auto. }
  destruct (Hcollect (fst (handleSpawning dt config movedModel rnd
                             (snd chosen)))) as [-> ->].
  rewrite handleSpawning_eq. cbv zeta.
  destruct (attempts _ _ _ _);
    [destruct (entryClear movedModel)|].
  - rewrite spawnVehicle_eq. cbn [fst vehicles nextId set_timeSinceLastSpawn].
    eexists. split; [reflexivity|]. split; [reflexivity|]. right.
    eexists. split; [reflexivity|]. repeat split.
  - exists []. cbn. rewrite app_nil_r. split; [reflexivity|].
    split; [lia | left; reflexivity].
  - exists []. cbn. rewrite app_nil_r. split; [reflexivity|].
    split; [lia | left; reflexivity].
Qed.

Lemma step_relates (S : Vehicle -> Vehicle -> Prop)
    (config : SimulationConfig) (this : TrafficModel) (rnd : nat -> R)
    (pos : nat) :
  (forall this0 visited veh pending r,
      S veh (integrateVehicle (DT * timeScale config)
               (decided config (DT * timeScale config) this0 visited veh
                  pending r))) ->
  stepRelates S config this rnd pos.
Proof.
  intros Hbody. unfold stepRelates. cbv zeta. split.
  - now apply endOfIntegration_Forall2.
  - apply step_newcomers.
Qed.

Lemma integrateVehicle_sameIdentity (dt : R) (veh : Vehicle) :
  sameIdentity veh (integrateVehicle dt veh)
  /\ Vehicle.a (integrateVehicle dt veh) = Vehicle.a veh.
Proof.
  unfold integrateVehicle, sameIdentity.
  destruct (Rltb (Vehicle.v (Vehicle.set_v veh _)) 0);
    match goal with
    | |- context [Rgtb ?l 0.05] => destruct (Rgtb l 0.05)
    end; repeat split.
Qed.

(** Settles a statement about the fields of what the loop body leaves, in
    each of its four cases. *)
Ltac by_decided_cases config dt this0 visited veh pending r :=
  destruct (decided_cases config dt this0 visited veh pending r)
    as [[Hcrashed ->]
       | [Hsound [acc [[Hrunning ->]
                      | [Hover [-> | (l & Hl & ->)]]]]]].

Lemma integrateVehicle_v (dt : R) (veh : Vehicle) :
  Vehicle.v (integrateVehicle dt veh)
  = Rmax 0 (Vehicle.v veh + Vehicle.a veh * dt).
Proof.
  unfold integrateVehicle. cbn [Vehicle.v Vehicle.a Vehicle.set_v].
  destruct (Rltb (Vehicle.v veh + Vehicle.a veh * dt) 0) eqn:Hneg;
    match goal with
    | |- context [Rgtb ?l 0.05] => destruct (Rgtb l 0.05)
    end; cbn;
    [apply Rltb_iff in Hneg | apply Rltb_iff in Hneg
    | apply Rltb_iff_false in Hneg | apply Rltb_iff_false in Hneg];
    unfold Rmax; destruct (Rle_dec 0 _); lra.
Qed.

Lemma successor_sameIdentity (config : SimulationConfig) (dt : R)
    (this0 : TrafficModel) (visited : list Vehicle) (veh : Vehicle)
    (pending : list Vehicle) (r : R) :
  sameIdentity veh
    (integrateVehicle dt (decided config dt this0 visited veh pending r)).
Proof.
  destruct (integrateVehicle_sameIdentity dt
              (decided config dt this0 visited veh pending r))
    as [(Hid & Htype & Hlen & Hwid & Hcol & Hts & Hcr) _].
  unfold sameIdentity. rewrite Hid, Htype, Hlen, Hwid, Hcol, Hts, Hcr.
  by_decided_cases config dt this0 visited veh pending r; repeat split.
Qed.

(** X7: through a step every vehicle keeps its id, type, length, width,
    colour, desired speed and crashed flag; the array after the step holds
    the vehicles that have not passed the end of the road, in the order of
    the sort, followed by the vehicle spawned in this step, if any, which
    takes the id [nextId] and raises [nextId] by one. *)
Theorem step_keeps_identity :
  forall (config : SimulationConfig) (this : TrafficModel)
         (rnd : nat -> R) (pos : nat),
    stepRelates sameIdentity config this rnd pos.
Proof.
  intros config this rnd pos. apply step_relates.
  intros this0 visited veh pending r. apply successor_sameIdentity.
Qed.

Lemma successor_movedAlong (config : SimulationConfig) (dt : R)
    (this0 : TrafficModel) (visited : list Vehicle) (veh : Vehicle)
    (pending : list Vehicle) (r : R) :
  movedAlong dt veh
    (integrateVehicle dt (decided config dt this0 visited veh pending r)).
Proof.
  unfold movedAlong.
  destruct (integrateVehicle_fields dt
              (decided config dt this0 visited veh pending r))
    as (_ & _ & Hv & Hx).
  destruct (integrateVehicle_sameIdentity dt
              (decided config dt this0 visited veh pending r)) as [_ Ha].
  rewrite Hx, Ha, integrateVehicle_v, decided_x.
  split; [apply Rmax_l|]. split; [reflexivity|]. intros Hlive.
  by_decided_cases config dt this0 visited veh pending r;
    try congruence; reflexivity.
Qed.

(** X8: with a positive [maxAccel] and positive desired speeds (the values
    the IDM divides by) a step never moves a vehicle backwards when [dt] is
    not negative: the speed after the step is not negative and the new
    position is the old one plus that speed times [dt]; for a vehicle that
    is not crashed the new speed is the old one plus the new acceleration
    times [dt], or 0 when that is negative. *)
Theorem step_moves_forward :
  forall (config : SimulationConfig) (this : TrafficModel)
         (rnd : nat -> R) (pos : nat),
    0 < maxAccel config ->
    Forall (fun veh => 0 < Vehicle.targetSpeed veh) (vehicles this) ->
    stepRelates (movedAlong (DT * timeScale config)) config this rnd pos
    /\ (0 <= timeScale config ->
        stepRelates (fun veh veh' => Vehicle.x veh <= Vehicle.x veh')
          config this rnd pos).
Proof.
  intros config this rnd pos _ _. split.
  - apply step_relates. intros this0 visited veh pending r.
    apply successor_movedAlong.
  - intros Hscale. apply step_relates. intros this0 visited veh pending r.
    destruct (successor_movedAlong config (DT * timeScale config) this0
                visited veh pending r) as (Hv & -> & _).
    assert (0 <= DT * timeScale config)
      by (apply Rmult_le_pos; [unfold DT; lra | exact Hscale]).
    pose proof (Rmult_le_pos _ _ Hv H). lra.
Qed.

Lemma step_moves_forward_witness :
  stepRelates (movedAlong (DT * timeScale quiet)) quiet tieModel zeros 0%nat
  /\ stepRelates (fun veh veh' => Vehicle.x veh <= Vehicle.x veh')
       quiet tieModel zeros 0%nat.
Proof.
  destruct (step_moves_forward quiet tieModel zeros 0%nat)
    as [Hmoved Hforward].
  - simpl. lra.
  - unfold tieModel, car. cbn [vehicles set_vehicles].
    repeat constructor; cbn [Vehicle.targetSpeed]; lra.
  - split; [exact Hmoved | apply Hforward]. simpl. lra.
Defined.

Lemma successor_laneKept (config : SimulationConfig) (dt : R)
    (this0 : TrafficModel) (visited : list Vehicle) (veh : Vehicle)
    (pending : list Vehicle) (r : R) :
  laneKept dt veh
    (integrateVehicle dt (decided config dt this0 visited veh pending r)).
Proof.
  unfold laneKept.
  destruct (integrateVehicle_fields dt
              (decided config dt this0 visited veh pending r))
    as (-> & -> & _ & _).
  by_decided_cases config dt this0 visited veh pending r;
    cbn [Vehicle.lane Vehicle.laneChangeTimer Vehicle.set_laneChangeDirection
           Vehicle.set_laneChangeTimer Vehicle.set_lane Vehicle.set_a
           Vehicle.set_v].
  - split; [left; reflexivity | congruence].
  - split; [left; reflexivity | reflexivity].
  - split; [left; reflexivity | intros; lra].
  - split; [right | intros; lra]. repeat split; assumption.
Qed.

(** X9: in a step a vehicle keeps its lane or moves by exactly one lane,
    and it moves only when it is not crashed and its cooldown is at or
    below zero, the cooldown then restarting at 3.0; a vehicle that is not
    crashed and whose cooldown is running keeps its lane and has [dt] taken
    off the cooldown. *)
Theorem step_lane_discipline :
  forall (config : SimulationConfig) (this : TrafficModel)
         (rnd : nat -> R) (pos : nat),
    stepRelates (laneKept (DT * timeScale config)) config this rnd pos.
Proof.
  intros config this rnd pos. apply step_relates.
  intros this0 visited veh pending r. apply successor_laneKept.
Qed.

Lemma successor_pinned (config : SimulationConfig) (dt : R)
    (this0 : TrafficModel) (visited : list Vehicle) (veh : Vehicle)
    (pending : list Vehicle) (r : R) :
  pinned veh
    (integrateVehicle dt (decided config dt this0 visited veh pending r)).
Proof.
  unfold pinned. intros Hwreck.
  destruct (integrateVehicle_fields dt
              (decided config dt this0 visited veh pending r))
    as (-> & -> & _ & ->).
  destruct (integrateVehicle_sameIdentity dt
              (decided config dt this0 visited veh pending r)) as [_ ->].
  rewrite integrateVehicle_v, decided_x.
  by_decided_cases config dt this0 visited veh pending r; try congruence.
  cbn [Vehicle.v Vehicle.a Vehicle.lane Vehicle.laneChangeTimer
         Vehicle.set_v Vehicle.set_a].
  replace (0 + 0 * dt) with 0 by ring.
  rewrite Rmax_left by lra. repeat split. ring.
Qed.

(** X10: a crashed vehicle is pinned by a step, whatever the config: its
    speed and acceleration are 0 afterwards, and its position, its lane and
    its cooldown are what they were. *)
Theorem step_pins_crashed :
  forall (config : SimulationConfig) (this : TrafficModel)
         (rnd : nat -> R) (pos : nat),
    stepRelates pinned config this rnd pos.
Proof.
  intros config this rnd pos. apply step_relates.
  intros this0 visited veh pending r. apply successor_pinned.
Qed.

(** * Identifiers *)

Lemma sameIdentity_ids (before moved : list Vehicle) :
  Forall2 sameIdentity before moved ->
  map Vehicle.id moved = map Vehicle.id before.
Proof.
  induction 1 as [|veh veh' before moved Hsame _ IH]; [reflexivity|].
  cbn [map]. destruct Hsame as [-> _]. now rewrite IH.
Qed.

Lemma id_kept_listed (keep : Vehicle -> bool) (vs : list Vehicle) (i : Z) :
  In i (map Vehicle.id (filter keep vs)) -> In i (map Vehicle.id vs).
Proof.
  rewrite !in_map_iff. intros (veh & Hid & Hin).
  apply filter_In in Hin. exists veh. tauto.
Qed.

Lemma ids_kept_distinct (keep : Vehicle -> bool) (vs : list Vehicle) :
  NoDup (map Vehicle.id vs) -> NoDup (map Vehicle.id (filter keep vs)).
Proof.
  intros Hnodup. induction vs as [|veh rest IH]; [constructor|].
  cbn [map filter] in *.
  apply NoDup_cons_iff in Hnodup. destruct Hnodup as [Hfresh Hrest].
  destruct (keep veh); [|now apply IH].
  cbn [map]. apply NoDup_cons; [|now apply IH].
  intros Hin. apply Hfresh. eapply id_kept_listed. exact Hin.
Qed.

Lemma crashFirst_ids (vs : list Vehicle) :
  map Vehicle.id (crashFirst vs) = map Vehicle.id vs.
Proof.
  induction vs as [|v rest IH]; cbn [crashFirst map]; [reflexivity|].
  destruct (isCandidate v); cbn [map]; [reflexivity|now rewrite IH].
Qed.

Lemma restoreAt_ids (place : nat) (vs : list Vehicle) :
  map Vehicle.id (restoreAt place vs) = map Vehicle.id vs.
Proof.
  revert place. induction vs as [|v rest IH]; intros [|place];
    cbn [restoreAt map]; try reflexivity.
  now rewrite IH.
Qed.

Lemma ids_below (n : Z) (vs : list Vehicle) :
  (forall veh, In veh vs -> (Vehicle.id veh < n)%Z)
  <-> (forall i, In i (map Vehicle.id vs) -> (i < n)%Z).
Proof.
  split.
  - intros Hbelow i Hin. apply in_map_iff in Hin.
    destruct Hin as (veh & <- & Hin). now apply Hbelow.
  - intros Hbelow veh Hin. apply Hbelow. now apply in_map.
Qed.

Lemma distinctIds_same_ids (this this' : TrafficModel) :
  map Vehicle.id (vehicles this') = map Vehicle.id (vehicles this) ->
  nextId this' = nextId this ->
  distinctIds this -> distinctIds this'.
Proof.
  unfold distinctIds. intros Hids Hnext [Hnodup Hbelow].
  rewrite ids_below in *. rewrite Hids, Hnext. now split.
Qed.

Lemma distinctIds_step (config : SimulationConfig) (this : TrafficModel)
    (rnd : nat -> R) (pos : nat) :
  distinctIds this -> distinctIds (fst (step config this rnd pos)).
Proof.
  intros [Hnodup Hbelow]. rewrite ids_below in Hbelow.
  assert (Hrel : stepRelates sameIdentity config this rnd pos).
  { apply step_relates. intros this0 visited veh pending r.
    apply successor_sameIdentity. }
  destruct Hrel as [Hsucc (newcomers & Hvehicles & Hnext & Hnew)].
  apply sameIdentity_ids in Hsucc.
  pose proof (Permutation_map Vehicle.id
                (sortByXDescending_Permutation (vehicles this))) as Hperm.
  assert (Hmoved : NoDup (map Vehicle.id
                            (endOfIntegration config this rnd pos))).
  { rewrite Hsucc. eapply Permutation_NoDup; [|exact Hnodup].
    first [exact Hperm | exact (Permutation_sym Hperm)]. }
  assert (Hold : forall i,
             In i (map Vehicle.id
                     (filter (onRoad (roadLength this))
                        (endOfIntegration config this rnd pos))) ->
             (i < nextId this)%Z).
  { intros i Hin. apply id_kept_listed in Hin. rewrite Hsucc in Hin.
    apply Hbelow. eapply Permutation_in; [|exact Hin].
    first [exact Hperm | exact (Permutation_sym Hperm)]. }
  unfold distinctIds. rewrite ids_below, Hvehicles, Hnext.
  destruct Hnew as [-> | (veh & -> & Hid & _)].
  - rewrite app_nil_r. cbn [List.length]. split.
    + now apply ids_kept_distinct.
    + intros i Hin. apply Hold in Hin. lia.
  - rewrite map_app. cbn [map List.length]. split.
    + apply NoDup_app; [now apply ids_kept_distinct| |].
      * repeat constructor; simpl; tauto.
      * intros i Hin [Heq | []]. apply Hold in Hin. lia.
    + intros i Hin. apply in_app_or in Hin.
      destruct Hin as [Hin | [Heq | []]]; [apply Hold in Hin; lia | lia].
Qed.

(** X11: ids are never shared.  A model in which no two vehicles share an
    id and every id is below [nextId] stays so through step, whatever the
    config and the draws, through reset, triggerAccident and the callback
    of its timer; the model the constructor builds is such a model. *)
Theorem ids_stay_distinct :
  forall this : TrafficModel,
    distinctIds this ->
    (forall config rnd pos, distinctIds (fst (step config this rnd pos)))
    /\ distinctIds (reset this)
    /\ distinctIds (fst (triggerAccident this))
    /\ (forall place, distinctIds (fireTimeout place this))
    /\ forall len, distinctIds (newTrafficModel len).
Proof.
  intros this Hthis.
  split; [|split; [|split; [|split]]].
  - intros config rnd pos. now apply distinctIds_step.
  - split; [constructor | intros veh []].
  - apply (distinctIds_same_ids this); [| |exact Hthis];
      unfold triggerAccident; destruct (find isCandidate (vehicles this));
      cbn [fst vehicles nextId]; try reflexivity. apply crashFirst_ids.
  - intros [place|]; apply (distinctIds_same_ids this);
      cbn [fireTimeout vehicles nextId]; try reflexivity; try exact Hthis.
    apply restoreAt_ids.
  - intros len. split; [constructor | intros veh []].
Qed.

Lemma distinctIds_convoy : distinctIds convoy.
Proof.
  split.
  - cbn. repeat constructor; simpl; intuition lia.
  - cbn. intros veh [<- | [<- | []]]; cbn; lia.
Qed.

Lemma ids_stay_distinct_witness :
  distinctIds convoy
  /\ distinctIds (fst (step baseline convoy zeros 0%nat))
  /\ distinctIds (fst (triggerAccident convoy)).
Proof.
  pose proof (ids_stay_distinct convoy distinctIds_convoy)
    as (Hstep & _ & Htrigger & _).
  split; [exact distinctIds_convoy|]. split; [apply Hstep | exact Htrigger].
Defined.

(** * Arrivals, departures and the ring of samples *)

Lemma endOfIntegration_length (config : SimulationConfig)
    (this : TrafficModel) (rnd : nat -> R) (pos : nat) :
  List.length (endOfIntegration config this rnd pos)
  = List.length (vehicles this).
Proof.
  pose proof (endOfIntegration_Forall2 (fun _ _ => True) config this rnd pos
                (fun _ _ _ _ _ => I)) as Hall.
  apply Forall2_length in Hall. rewrite <- Hall.
  symmetry. apply Permutation_length, sortByXDescending_Permutation.
Qed.

Lemma filter_length_le {A : Type} (p : A -> bool) (l : list A) :
  (List.length (filter p l) <= List.length l)%nat.
Proof.
  induction l as [|a l IH]; cbn [filter List.length]; [lia|].
  destruct (p a); cbn [List.length]; lia.
Qed.

(** The step, seen from handleSpawning on. *)
Lemma step_from_spawning (config : SimulationConfig) (this : TrafficModel)
    (rnd : nat -> R) (pos : nat) :
  step config this rnd pos
  = let dt := DT * timeScale config in
    let grown := handleSpawning dt config
                   (beforeSpawning config this rnd pos) rnd
                   (spawnCursor config this rnd pos) in
    (collectData dt (fst grown), snd grown).
Proof.
  rewrite step_eq. unfold beforeSpawning, spawnCursor, endOfIntegration.
  cbv zeta. rewrite <- integrateLoop_filter. reflexivity.
Qed.

Lemma collectData_nextId (dt : R) (this : TrafficModel) :
  nextId (collectData dt this) = nextId this
  /\ timeSinceLastSpawn (collectData dt this) = timeSinceLastSpawn this.
Proof.
  unfold collectData. cbn [statsTimer set_statsTimer].
  destruct (Rgtb _ 1.0); [|cbn; auto].
  destruct (0 <? count _)%nat; [|cbn; auto].
  cbn [fdPoints set_fdPoints]. destruct (200 <? _)%nat; cbn; auto.
Qed.

(** X12: a step adds at most one vehicle and [nextId] counts the vehicles
    added: the array after the step is what is left on the road of the
    vehicles moved, which are as many as there were, followed by the
    newcomers, at most one, and [nextId] has grown by their number.  With
    the inflow at 0 and draws that are not negative the spawner never
    attempts: no vehicle is added, [nextId] stays and the spawn timer grows
    by [dt]. *)
Theorem step_vehicle_count :
  forall (config : SimulationConfig) (this : TrafficModel)
         (rnd : nat -> R) (pos : nat),
    let this' := fst (step config this rnd pos) in
    let moved := endOfIntegration config this rnd pos in
    let dt := DT * timeScale config in
    (exists newcomers,
       vehicles this' = filter (onRoad (roadLength this)) moved ++ newcomers
       /\ (List.length newcomers <= 1)%nat
       /\ nextId this' = (nextId this + Z.of_nat (List.length newcomers))%Z
       /\ List.length (vehicles this')
          = (List.length (filter (onRoad (roadLength this)) moved)
             + List.length newcomers)%nat)
    /\ List.length moved = List.length (vehicles this)
    /\ (List.length (vehicles this') <= List.length (vehicles this) + 1)%nat
    /\ (nextId this <= nextId this' <= nextId this + 1)%Z
    /\ (inflowRate config = 0 -> (forall n, 0 <= rnd n) ->
        vehicles this' = filter (onRoad (roadLength this)) moved
        /\ (List.length (vehicles this') <= List.length (vehicles this))%nat
        /\ nextId this' = nextId this
        /\ timeSinceLastSpawn this' = timeSinceLastSpawn this + dt).
Proof.
  intros config this rnd pos. cbv zeta.
  destruct (step_newcomers config this rnd pos)
    as (newcomers & Hvehicles & Hnext & Hnew). cbv zeta in *.
  pose proof (filter_length_le (onRoad (roadLength this))
                (endOfIntegration config this rnd pos)) as Hleft.
  rewrite endOfIntegration_length in Hleft.
  split; [|split; [|split; [|split]]].
  - exists newcomers. split; [exact Hvehicles|].
    split; [destruct Hnew as [-> | (veh & -> & _)]; cbn [List.length]; lia|].
    split; [exact Hnext|]. rewrite Hvehicles. apply length_app.
  - apply endOfIntegration_length.
  - rewrite Hvehicles, length_app.
    destruct Hnew as [-> | (veh & -> & _)]; cbn [List.length]; lia.
  - rewrite Hnext.
    destruct Hnew as [-> | (veh & -> & _)]; cbn [List.length]; lia.
  - intros Hshut Hdraws. rewrite step_from_spawning. cbv zeta. cbn [fst].
    destruct (collectData_frame (DT * timeScale config)
                (fst (handleSpawning (DT * timeScale config) config
                        (beforeSpawning config this rnd pos) rnd
                        (spawnCursor config this rnd pos))))
      as (-> & _ & _).
    destruct (collectData_nextId (DT * timeScale config)
                (fst (handleSpawning (DT * timeScale config) config
                        (beforeSpawning config this rnd pos) rnd
                        (spawnCursor config this rnd pos))))
      as (-> & ->).
    rewrite handleSpawning_eq. cbv zeta.
    rewrite attempts_zero_inflow by (trivial; apply Hdraws).
    cbn [fst vehicles nextId timeSinceLastSpawn set_timeSinceLastSpawn
           beforeSpawning set_vehicles].
    repeat split. exact Hleft.
Qed.

Lemma step_vehicle_count_witness :
  (vehicles (fst (step shut convoy zeros 0%nat))
   = filter (onRoad (roadLength convoy))
       (endOfIntegration shut convoy zeros 0%nat)
   /\ (List.length (vehicles (fst (step shut convoy zeros 0%nat)))
       <= List.length (vehicles convoy))%nat
   /\ nextId (fst (step shut convoy zeros 0%nat)) = nextId convoy
   /\ timeSinceLastSpawn (fst (step shut convoy zeros 0%nat))
      = timeSinceLastSpawn convoy + DT * timeScale shut)
  /\ vehicles (fst (step brisk (emptyRoad 0.9 0.95) zeros 0%nat))
     = [entrant]
  /\ nextId (fst (step brisk (emptyRoad 0.9 0.95) zeros 0%nat)) = 2%Z.
Proof.
  split.
  - apply (step_vehicle_count shut convoy zeros 0%nat).
    + reflexivity.
    + intros n. unfold zeros. lra.
  - assert (Harrival :
      vehicles (fst (step brisk (emptyRoad 0.9 0.95) zeros 0%nat))
      = [entrant])
      by (apply step_emptyRoad_arrival; unfold DT; simpl; lra).
    split; [exact Harrival|].
    destruct (step_vehicle_count brisk (emptyRoad 0.9 0.95) zeros 0%nat)
      as ((newcomers & Hvehicles & _ & Hnext & _) & Hmoved & _).
    cbn [vehicles emptyRoad List.length] in Hmoved.
    apply length_zero_iff_nil in Hmoved.
    rewrite Hmoved in Hvehicles. cbn [filter app] in Hvehicles.
    rewrite Harrival in Hvehicles. subst newcomers.
    rewrite Hnext. reflexivity.
Defined.

(** ** The ring of samples *)

Lemma collectData_cases (dt : R) (this : TrafficModel) :
  let this' := collectData dt this in
  (statsTimer this + dt > 1
   /\ statsTimer this' = 0
   /\ (vehicles this = [] /\ fdPoints this' = fdPoints this
       \/ vehicles this <> []
          /\ pushed {| k := density (getStats this); q := flow (getStats this) |}
               (fdPoints this) (fdPoints this')))
  \/ (statsTimer this + dt <= 1
      /\ statsTimer this' = statsTimer this + dt
      /\ fdPoints this' = fdPoints this).
Proof.
  cbv zeta. unfold collectData, pushed. cbn [statsTimer set_statsTimer].
  assert (Hcount : count (getStats (set_statsTimer this (statsTimer this + dt)))
                   = List.length (vehicles this)).
  { unfold getStats. cbn [vehicles set_statsTimer].
    destruct (vehicles this); reflexivity. }
  change (density (getStats (set_statsTimer this (statsTimer this + dt))))
    with (density (getStats this)).
  change (flow (getStats (set_statsTimer this (statsTimer this + dt))))
    with (flow (getStats this)).
  rewrite Hcount. clear Hcount.
  destruct (Rgtb (statsTimer this + dt) 1.0) eqn:Hdue.
  - apply Rgtb_iff in Hdue. left. split; [lra|].
    destruct (vehicles this) as [|veh rest] eqn:Hvs.
    + change (0 <? List.length (@nil Vehicle))%nat with false.
      cbn [statsTimer set_statsTimer fdPoints]. auto.
    + change (0 <? List.length (veh :: rest))%nat with true.
      cbn [fdPoints set_fdPoints set_statsTimer statsTimer].
      split; [reflexivity|].
      right. split; [discriminate|].
      destruct (_ <? _)%nat; reflexivity.
  - apply Rgtb_iff_false in Hdue. right.
    cbn [statsTimer set_statsTimer fdPoints]. repeat split; lra.
Qed.

Lemma pushed_length (p : FDPoint) (points points' : list FDPoint) :
  pushed p points points' ->
  (List.length points <= 200)%nat -> (List.length points' <= 200)%nat.
Proof.
  unfold pushed. intros -> Hlen.
  destruct (200 <? _)%nat eqn:Hfull.
  - destruct points as [|p0 points]; cbn [app tl List.length] in *; [lia|].
    rewrite length_app. cbn [List.length]. lia.
  - apply Nat.ltb_ge in Hfull. exact Hfull.
Qed.

Lemma handleSpawning_fdPoints (dt : R) (config : SimulationConfig)
    (this : TrafficModel) (rnd : nat -> R) (pos : nat) :
  fdPoints (fst (handleSpawning dt config this rnd pos)) = fdPoints this
  /\ statsTimer (fst (handleSpawning dt config this rnd pos))
     = statsTimer this.
Proof.
  rewrite handleSpawning_eq. cbv zeta.
  destruct (attempts _ _ _ _); [destruct (entryClear this)|];
    try rewrite spawnVehicle_eq; cbn; auto.
Qed.

(** X13: the sample for the fundamental diagram.  When the statistics timer
    plus [dt] exceeds one second the step sets the timer to 0 and, unless
    the road is empty at the end of the step, pushes the density and the
    flow of getStats as they are at the end of the step, shifting the
    oldest point out when that makes more than 200; otherwise it adds [dt]
    to the timer and leaves the points. *)
Theorem step_sample :
  forall (config : SimulationConfig) (this : TrafficModel)
         (rnd : nat -> R) (pos : nat),
    let this' := fst (step config this rnd pos) in
    let dt := DT * timeScale config in
    (statsTimer this + dt > 1
     /\ statsTimer this' = 0
     /\ (vehicles this' = [] /\ fdPoints this' = fdPoints this
         \/ vehicles this' <> []
            /\ pushed {| k := density (getStats this');
                         q := flow (getStats this') |}
                 (fdPoints this) (fdPoints this')))
    \/ (statsTimer this + dt <= 1
        /\ statsTimer this' = statsTimer this + dt
        /\ fdPoints this' = fdPoints this).
Proof.
  intros config this rnd pos. cbv zeta.
  rewrite step_from_spawning. cbv zeta. cbn [fst].
  set (dt := DT * timeScale config).
  set (grown := fst (handleSpawning dt config
                       (beforeSpawning config this rnd pos) rnd
                       (spawnCursor config this rnd pos))).
  destruct (handleSpawning_fdPoints dt config
              (beforeSpawning config this rnd pos) rnd
              (spawnCursor config this rnd pos)) as [Hpoints Htimer].
  fold grown in Hpoints, Htimer.
  change (fdPoints (beforeSpawning config this rnd pos))
    with (fdPoints this) in Hpoints.
  change (statsTimer (beforeSpawning config this rnd pos))
    with (statsTimer this) in Htimer.
  destruct (collectData_frame dt grown) as (Hvs & Hroad & _).
  assert (Hstats : density (getStats (collectData dt grown))
                   = density (getStats grown)
                   /\ flow (getStats (collectData dt grown))
                      = flow (getStats grown)).
  { unfold getStats. rewrite Hvs, Hroad.
    destruct (_ =? 0)%nat; split; reflexivity. }
  destruct Hstats as [Hk Hq]. rewrite Hk, Hq, Hvs.
  rewrite <- Hpoints, <- Htimer. apply collectData_cases.
Qed.

Lemma step_ringBounded (config : SimulationConfig) (this : TrafficModel)
    (rnd : nat -> R) (pos : nat) :
  0 <= timeScale config ->
  ringBounded this -> ringBounded (fst (step config this rnd pos)).
Proof.
  intros Hscale [Hlen Htimer].
  assert (Hdt : 0 <= DT * timeScale config)
    by (apply Rmult_le_pos; [unfold DT; lra | exact Hscale]).
  rewrite step_from_spawning. cbv zeta. cbn [fst].
  set (dt := DT * timeScale config) in *.
  destruct (handleSpawning_fdPoints dt config
              (beforeSpawning config this rnd pos) rnd
              (spawnCursor config this rnd pos)) as [Hpoints Hstats].
  change (fdPoints (beforeSpawning config this rnd pos))
    with (fdPoints this) in Hpoints.
  change (statsTimer (beforeSpawning config this rnd pos))
    with (statsTimer this) in Hstats.
  unfold ringBounded.
  destruct (collectData_cases dt
              (fst (handleSpawning dt config
                      (beforeSpawning config this rnd pos) rnd
                      (spawnCursor config this rnd pos))))
    as [(_ & -> & [[_ ->] | [_ Hpushed]]) | (Hnot & -> & ->)].
  - rewrite Hpoints. split; [exact Hlen | lra].
  - split; [|lra]. eapply pushed_length; [exact Hpushed|].
    now rewrite Hpoints.
  - rewrite Hpoints, Hstats in *. split; [exact Hlen | lra].
Qed.

(** ** A step of the first car *)

Lemma calculateAcceleration_le_maxAccel (v : R) (vLeader gap : option R)
    (v0 : R) (config : SimulationConfig) :
  0 < maxAccel config ->
  calculateAcceleration v vLeader gap v0 config <= maxAccel config.
Proof.
  intros Hmax. unfold calculateAcceleration, IDM_DELTA.
  pose proof (pow4_nonneg (v / v0)) as Hfree.
  destruct gap as [s|], vLeader as [vl|]; try nra.
  match goal with
  | |- _ + - _ * ?q ^ 2 <= _ => pose proof (pow2_ge_0 q) as Hq
  end.
  nra.
Qed.

Lemma decided_a (config : SimulationConfig) (dt : R) (this : TrafficModel)
    (visited : list Vehicle) (veh : Vehicle) (pending : list Vehicle)
    (r : R) :
  Vehicle.a (decided config dt this visited veh pending r)
  = if Vehicle.isCrashed veh then 0
    else currentAcc config this visited veh pending r.
Proof.
  unfold decided. destruct (Vehicle.isCrashed veh); [reflexivity|].
  cbv zeta. destruct (Rleb _ 0); [|reflexivity].
  match goal with
  | |- context [checkLaneChange ?t ?v ?a ?c] =>
      destruct (checkLaneChange_cases t v a c) as [-> | (l & _ & ->)]
  end; reflexivity.
Qed.

(** Without noise a vehicle that is not driving backwards gains at most
    [maxAccel * dt] of speed in a step. *)
Lemma successor_gains (config : SimulationConfig) (dt : R)
    (this0 : TrafficModel) (visited : list Vehicle) (veh : Vehicle)
    (pending : list Vehicle) (r : R) :
  0 < maxAccel config -> accelerationNoise config <= 0 -> 0 <= dt ->
  0 <= Vehicle.v veh ->
  Vehicle.x (integrateVehicle dt
               (decided config dt this0 visited veh pending r))
  <= Vehicle.x veh + (Vehicle.v veh + maxAccel config * dt) * dt.
Proof.
  intros Hmax Hquiet Hdt Hv.
  set (chosen := decided config dt this0 visited veh pending r).
  destruct (integrateVehicle_fields dt chosen) as (_ & _ & _ & Hx).
  cbv zeta in Hx. rewrite Hx, integrateVehicle_v.
  unfold chosen at 1. rewrite decided_x.
  assert (Hva : Vehicle.v chosen + Vehicle.a chosen * dt
                <= Vehicle.v veh + maxAccel config * dt).
  { unfold chosen. rewrite decided_a.
    by_decided_cases config dt this0 visited veh pending r;
      rewrite ?Hcrashed, ?Hsound;
      cbn [Vehicle.v Vehicle.set_v Vehicle.set_a Vehicle.set_laneChangeTimer
             Vehicle.set_lane Vehicle.set_laneChangeDirection];
      try nra;
      (assert (Hacc : currentAcc config this0 visited veh pending r
                      <= maxAccel config);
       [unfold currentAcc, usesNoise;
        rewrite (proj2 (Rgtb_iff_false (accelerationNoise config) 0) Hquiet);
        cbn [andb]; unfold accBehind;
        destruct (getLeader _ veh (Vehicle.lane veh));
        now apply calculateAcceleration_le_maxAccel
       | nra]). }
  assert (Hmaxv : Rmax 0 (Vehicle.v chosen + Vehicle.a chosen * dt)
                  <= Vehicle.v veh + maxAccel config * dt).
  { apply Rmax_lub; [nra | exact Hva]. }
  nra.
Qed.

(** A single vehicle that cannot reach the end of the road in a step
    without noise is still in the array after the step. *)
Lemma step_single_keeps (config : SimulationConfig) (this : TrafficModel)
    (veh : Vehicle) (rnd : nat -> R) (pos : nat) :
  let dt := DT * timeScale config in
  vehicles this = [veh] ->
  0 < maxAccel config -> accelerationNoise config <= 0 ->
  0 <= timeScale config -> 0 <= Vehicle.v veh ->
  Vehicle.x veh + (Vehicle.v veh + maxAccel config * dt) * dt
  <= roadLength this ->
  exists veh' newcomers,
    endOfIntegration config this rnd pos = [veh']
    /\ vehicles (fst (step config this rnd pos)) = veh' :: newcomers.
Proof.
  intros dt Hvs Hmax Hquiet Hscale Hv Hroom.
  assert (Hdt : 0 <= dt)
    by (apply Rmult_le_pos; [unfold DT; lra | exact Hscale]).
  pose proof (endOfIntegration_Forall2
                (fun veh veh' =>
                   0 <= Vehicle.v veh ->
                   Vehicle.x veh'
                   <= Vehicle.x veh
                      + (Vehicle.v veh + maxAccel config * dt) * dt)
                config this rnd pos) as Hsucc.
  destruct (step_newcomers config this rnd pos)
    as (newcomers & Hvehicles & _). cbv zeta in Hvehicles.
  rewrite Hvs in Hsucc.
  change (sortByXDescending [veh]) with [veh] in Hsucc.
  assert (Hmoved : Forall2
                     (fun veh veh' =>
                        0 <= Vehicle.v veh ->
                        Vehicle.x veh'
                        <= Vehicle.x veh
                           + (Vehicle.v veh + maxAccel config * dt) * dt)
                     [veh] (endOfIntegration config this rnd pos)).
  { apply Hsucc. intros this0 visited veh0 pending r Hv0.
    now apply successor_gains. }
  inversion Hmoved as [|veh1 veh' before moved Hgain Hrest Hbefore Hafter].
  inversion Hrest. subst.
  exists veh', newcomers. split; [reflexivity|].
  rewrite Hvehicles. rewrite <- Hafter. cbn [filter].
  replace (onRoad (roadLength this) veh') with true; [reflexivity|].
  symmetry. unfold onRoad. apply negb_true_iff, Rgtb_iff_false.
  specialize (Hgain Hv). fold dt in Hgain. lra.
Qed.

(** The car of [restarted] is still on the road after a step of the
    baseline without noise. *)
Lemma step_restarted_keeps :
  exists veh' newcomers,
    endOfIntegration quiet restarted zeros 40%nat = [veh']
    /\ vehicles (fst (step quiet restarted zeros 40%nat))
       = veh' :: newcomers.
Proof.
  assert (Hroad : roadLength restarted = 5000).
  { destruct restarted_eq as (sinceSpawn & stats & pos & -> & _).
    destruct (step_frame brisk (emptyRoad sinceSpawn stats) zeros pos)
      as [-> _]. reflexivity. }
  apply (step_single_keeps quiet restarted entrant);
    [exact (proj1 restarted_holds) | simpl; lra | simpl; lra | simpl; lra
    | | rewrite Hroad];
    unfold entrant, spawned; cbn [Vehicle.v Vehicle.x];
    rewrite (proj2 (Rltb_iff_false 0 0)) by lra; unfold DT; simpl; lra.
Qed.

(** A step in which the statistics timer passes one second and that does
    not leave the road empty pushes a sample. *)
Lemma step_pushes (config : SimulationConfig) (this : TrafficModel)
    (rnd : nat -> R) (pos : nat) :
  let this' := fst (step config this rnd pos) in
  statsTimer this + DT * timeScale config > 1 ->
  vehicles this' <> [] ->
  statsTimer this' = 0
  /\ exists p, pushed p (fdPoints this) (fdPoints this').
Proof.
  cbv zeta. rewrite step_from_spawning. cbv zeta. cbn [fst].
  set (dt := DT * timeScale config).
  set (grown := fst (handleSpawning dt config
                       (beforeSpawning config this rnd pos) rnd
                       (spawnCursor config this rnd pos))).
  destruct (handleSpawning_fdPoints dt config
              (beforeSpawning config this rnd pos) rnd
              (spawnCursor config this rnd pos)) as [Hpoints Htimer].
  fold grown in Hpoints, Htimer.
  change (fdPoints (beforeSpawning config this rnd pos))
    with (fdPoints this) in Hpoints.
  change (statsTimer (beforeSpawning config this rnd pos))
    with (statsTimer this) in Htimer.
  destruct (collectData_frame dt grown) as (Hvs & _ & _).
  rewrite Hvs, <- Hpoints, <- Htimer. intros Hdue Hsome.
  destruct (collectData_cases dt grown)
    as [(_ & Hzero & [[Hnone _] | [_ Hpushed]]) | (Hnot & _)];
    [contradiction | | lra].
  split; [exact Hzero | eexists; exact Hpushed].
Qed.

(** X14: in every model the program can be in, the ring of samples holds at
    most 200 points and the statistics timer lies between 0 and 1; a step
    with a timeScale that is not negative keeps any model so. *)
Theorem reachable_ring_bounded :
  (forall this : TrafficModel, reachable this -> ringBounded this)
  /\ (forall (this : TrafficModel) (config : SimulationConfig)
             (rnd : nat -> R) (pos : nat),
        0 <= timeScale config -> ringBounded this ->
        ringBounded (fst (step config this rnd pos))).
Proof.
  split; [|intros this config rnd pos; apply step_ringBounded].
  induction 1 as [len Hlen
                 | this config rnd pos _ IH Hscale _
                 | this _ IH | this _ IH | this place _ IH].
  - split; cbn; [lia | lra].
  - now apply step_ringBounded.
  - destruct IH as [_ Htimer]. split; cbn; [lia | exact Htimer].
  - unfold triggerAccident.
    destruct (find isCandidate (vehicles this)); exact IH.
  - exact IH.
Qed.

Lemma ringBounded_fullRing :
  ringBounded fullRing /\ List.length (fdPoints fullRing) = 200%nat.
Proof.
  unfold ringBounded, fullRing. cbn [fdPoints statsTimer].
  rewrite repeat_length. split; [split; [lia | lra] | reflexivity].
Qed.

(** The step of the full ring: the oldest sample leaves, the new one is
    the last. *)
Lemma step_fullRing :
  statsTimer (fst (step quiet fullRing zeros 0%nat)) = 0
  /\ exists p,
       fdPoints (fst (step quiet fullRing zeros 0%nat))
       = tl (fdPoints fullRing) ++ [p].
Proof.
  destruct (step_single_keeps quiet fullRing (car 1 2000 1 30) zeros 0%nat)
    as (veh' & newcomers & _ & Hvs);
    [reflexivity | simpl; lra | simpl; lra | simpl; lra | simpl; lra
    | unfold DT; simpl; lra |].
  destruct (step_pushes quiet fullRing zeros 0%nat) as [Hzero [p Hp]];
    [unfold DT; simpl; lra | rewrite Hvs; discriminate |].
  split; [exact Hzero|]. exists p. unfold pushed in Hp. rewrite Hp.
  rewrite length_app, (proj2 ringBounded_fullRing). cbn [List.length].
  change (200 <? 200 + 1)%nat with true.
  unfold fullRing. cbn [fdPoints].
  change (repeat {| k := 0.4; q := 43.2 |} 200)
    with ({| k := 0.4; q := 43.2 |} :: repeat {| k := 0.4; q := 43.2 |} 199).
  reflexivity.
Qed.

Lemma reachable_ring_bounded_witness :
  (ringBounded restarted /\ List.length (fdPoints restarted) = 1%nat)
  /\ (List.length (fdPoints fullRing) = 200%nat
      /\ ringBounded (fst (step quiet fullRing zeros 0%nat))
      /\ statsTimer (fst (step quiet fullRing zeros 0%nat)) = 0
      /\ exists p,
           fdPoints (fst (step quiet fullRing zeros 0%nat))
           = tl (fdPoints fullRing) ++ [p]).
Proof.
  destruct reachable_ring_bounded as [Hreachable Hstep].
  split; [split; [|exact (proj2 restarted_holds)]|].
  - apply Hreachable. apply (reachableBy_reachable panel).
    + intros config Hpanel.
      destruct (panel_drivable config Hpanel) as [Hscale _]. exact Hscale.
    + apply reachableBy_restarted, panel_brisk.
  - split; [exact (proj2 ringBounded_fullRing)|].
    split; [|exact step_fullRing].
    apply Hstep; [simpl; lra | exact (proj1 ringBounded_fullRing)].
Defined.

(** A property of the vehicles that the two loops of the step keep and
    that a vehicle spawned from draws of the random source has holds after
    the step when it held before. *)
Lemma step_keeps_Forall (P : Vehicle -> Prop) (config : SimulationConfig)
    (this : TrafficModel) (rnd : nat -> R) (pos : nat) :
  (forall this0 visited veh pending r,
      P veh ->
      P (integrateVehicle (DT * timeScale config)
           (decided config (DT * timeScale config) this0 visited veh
              pending r))) ->
  (forall lane ratio model n m,
      P (spawned lane ratio model (rnd n) (rnd m))) ->
  Forall P (vehicles this) ->
  Forall P (vehicles (fst (step config this rnd pos))).
Proof.
  intros Hkeeps Hspawned Hthis.
  assert (Hmoved : Forall P (endOfIntegration config this rnd pos)).
  { pose proof (endOfIntegration_Forall2 (fun veh veh' => P veh -> P veh')
                  config this rnd pos Hkeeps) as Hsucc.
    assert (Hsorted : Forall P (sortByXDescending (vehicles this))).
    { rewrite Forall_forall in *. intros veh Hin. apply Hthis.
      eapply Permutation_in; [|exact Hin].
      apply Permutation_sym, sortByXDescending_Permutation. }
    revert Hsorted. induction Hsucc as [|veh veh' l l' Hsame _ IH];
      intros Hsorted; constructor; inversion Hsorted; subst; eauto. }
  rewrite step_from_spawning. cbv zeta. cbn [fst].
  match goal with
  | |- context [collectData ?dt ?m] =>
      destruct (collectData_frame dt m) as (-> & _ & _)
  end.
  match goal with
  | |- context [handleSpawning ?dt ?c ?m ?r ?p] =>
      destruct (handleSpawning_vehicles dt c m r p) as (_ & _ & [-> | ->])
  end; cbn [beforeSpawning vehicles set_vehicles].
  - rewrite Forall_forall in *. intros veh Hin.
    apply filter_In in Hin. now apply Hmoved.
  - apply Forall_app. split; [|constructor; [apply Hspawned | constructor]].
    rewrite Forall_forall in *. intros veh Hin.
    apply filter_In in Hin. now apply Hmoved.
Qed.

(** The spawner gives every vehicle a positive desired speed, and nothing
    changes it: the IDM never divides by zero in a model reached with
    draws in [[0, 1)]. *)
Lemma reachableBy_targetSpeed (allowed : SimulationConfig -> Prop)
    (this : TrafficModel) :
  reachableBy allowed this ->
  Forall (fun veh => 0 < Vehicle.targetSpeed veh) (vehicles this).
Proof.
  induction 1 as [len Hlen
                 | this config rnd pos _ IH _ Hrnd
                 | this _ IH | this _ IH | this place _ IH].
  - constructor.
  - apply step_keeps_Forall; [| |exact IH].
    + intros this0 visited veh pending r Hveh.
      destruct (successor_sameIdentity config (DT * timeScale config) this0
                  visited veh pending r)
        as (_ & _ & _ & _ & _ & -> & _).
      exact Hveh.
    + intros lane ratio model n m. unfold spawned.
      cbn [Vehicle.targetSpeed]. destruct (Hrnd m) as [Hlow _].
      destruct (Rltb (rnd n) ratio); lra.
  - constructor.
  - unfold triggerAccident.
    destruct (find isCandidate (vehicles this)); [|exact IH].
    cbn [fst vehicles]. apply crashFirst_Forall; [|exact IH].
    intros veh Hveh. exact Hveh.
  - destruct place as [place|]; cbn [fireTimeout vehicles]; [|exact IH].
    apply restoreAt_Forall; [|exact IH]. intros veh Hveh. exact Hveh.
Qed.

(** ** The bounds of the data model *)

(** C6: in every model the program can be in when its steps were run with
    a timeScale that is not negative, a positive [maxAccel] and draws in
    [[0, 1)], every vehicle has a positive desired speed, and after such a
    step every vehicle of the array has [v >= 0], [0 <= x <= roadLength]
    and a lane in [[0, 2]]; a vehicle is removed in the step exactly when
    its position at the end of the integration exceeds [roadLength]: the
    array holds, in order, the other vehicles, followed by the vehicle
    spawned in this step, if any. *)
Theorem step_keeps_bounds :
  forall this : TrafficModel,
    reachableBy drivable this ->
    forall (config : SimulationConfig) (rnd : nat -> R) (pos : nat),
      drivable config -> unitDraws rnd ->
      let this' := fst (step config this rnd pos) in
      let moved := endOfIntegration config this rnd pos in
      Forall (withinBounds (roadLength this)) (vehicles this')
      /\ roadLength this' = roadLength this
      /\ (forall veh, In veh moved ->
            (In veh (vehicles this') <-> ~ Vehicle.x veh > roadLength this))
      /\ (exists newcomers,
            vehicles this'
            = filter (onRoad (roadLength this)) moved ++ newcomers
            /\ (List.length newcomers <= 1)%nat
            /\ Forall (fun veh => Vehicle.x veh = 0) newcomers)
      /\ Forall (fun veh => 0 < Vehicle.targetSpeed veh) (vehicles this)
      /\ Forall (fun veh => 0 < Vehicle.targetSpeed veh) (vehicles this').
Proof.
  intros this Hreach config rnd pos Hconfig Hrnd.
  assert (Hreach' : reachable this).
  { apply (reachableBy_reachable drivable); [|exact Hreach].
    intros c [Hc _]. exact Hc. }
  destruct (reachable_bounds this Hreach') as (Hlanes & Hroad & Hvs).
  pose proof (reachableBy_targetSpeed drivable this Hreach) as Hspeeds.
  pose proof (reachableBy_targetSpeed drivable _
                (by_step drivable this config rnd pos Hreach Hconfig Hrnd))
    as Hspeeds'.
  destruct Hconfig as [Hscale _].
  destruct (step_bounds_from_placed config this rnd pos)
    as (Hbounds & Hlen & Hremoved & Hnew); try assumption.
  { destruct placed_kept as (_ & _ & _ & Hplaced).
    eapply Forall_impl; [|exact Hvs]. intros veh. apply Hplaced. }
  cbv zeta. repeat split; try assumption; now apply Hremoved.
Qed.

Lemma step_keeps_bounds_witness :
  vehicles restarted = [entrant]
  /\ (exists veh' newcomers,
        endOfIntegration quiet restarted zeros 40%nat = [veh']
        /\ vehicles (fst (step quiet restarted zeros 40%nat))
           = veh' :: newcomers)
  /\ (let this' := fst (step quiet restarted zeros 40%nat) in
      let moved := endOfIntegration quiet restarted zeros 40%nat in
      Forall (withinBounds (roadLength restarted)) (vehicles this')
      /\ roadLength this' = roadLength restarted
      /\ (forall veh, In veh moved ->
            (In veh (vehicles this')
             <-> ~ Vehicle.x veh > roadLength restarted))
      /\ (exists newcomers,
            vehicles this'
            = filter (onRoad (roadLength restarted)) moved ++ newcomers
            /\ (List.length newcomers <= 1)%nat
            /\ Forall (fun veh => Vehicle.x veh = 0) newcomers)
      /\ Forall (fun veh => 0 < Vehicle.targetSpeed veh) (vehicles restarted)
      /\ Forall (fun veh => 0 < Vehicle.targetSpeed veh) (vehicles this')).
Proof.
  split; [exact (proj1 restarted_holds)|].
  split; [exact step_restarted_keeps|].
  apply (step_keeps_bounds restarted).
  - apply reachableBy_restarted. apply panel_drivable, panel_brisk.
  - unfold drivable. simpl. lra.
  - exact unitDraws_zeros.
Defined.

(** * The spawner, in terms of the vehicles on the road *)

Lemma lastOf_loop (vs : list Vehicle) (acc : option Vehicle) :
  match
    fold_left
      (fun (prev : option Vehicle) (curr : Vehicle) =>
         match prev with
         | Some p =>
             if Rltb (Vehicle.x p) (Vehicle.x curr) then Some p else Some curr
         | None => Some curr
         end) vs acc
  with
  | None => acc = None /\ vs = []
  | Some p =>
      (acc = Some p \/ In p vs)
      /\ (forall q, acc = Some q -> Vehicle.x p <= Vehicle.x q)
      /\ forall v, In v vs -> Vehicle.x p <= Vehicle.x v
  end.
Proof.
  revert acc. induction vs as [|curr rest IH]; intros acc; cbn [fold_left].
  - destruct acc as [p|]; [|auto].
    split; [auto|]. split; [intros q [= <-]; lra | intros v []].
  - match goal with
    | |- match fold_left _ _ ?acc' with _ => _ end =>
        specialize (IH acc'); destruct (fold_left _ rest acc') as [p|]
    end.
    + destruct IH as (Hfrom & Hacc & Hrest).
      destruct acc as [q0|].
      * destruct (Rltb (Vehicle.x q0) (Vehicle.x curr)) eqn:Hlt;
          [apply Rltb_iff in Hlt | apply Rltb_iff_false in Hlt];
          specialize (Hacc _ eq_refl).
        -- split; [destruct Hfrom as [Hp|Hp]; [auto | right; now right]|].
           split; [intros q [= <-]; exact Hacc|].
           intros v [<-|Hin]; [lra | now apply Hrest].
        -- split; [destruct Hfrom as [[= <-]|Hp];
                   [right; now left | right; now right]|].
           split; [intros q [= <-]; lra|].
           intros v [<-|Hin]; [exact Hacc | now apply Hrest].
      * specialize (Hacc _ eq_refl).
        split; [destruct Hfrom as [[= <-]|Hp];
                [right; now left | right; now right]|].
        split; [discriminate|].
        intros v [<-|Hin]; [exact Hacc | now apply Hrest].
    + destruct IH as [Hacc _]. destruct acc as [q0|];
        [destruct (Rltb _ _)|]; discriminate.
Qed.

(** What the reduction of handleSpawning returns: nothing for an empty
    array, otherwise a vehicle of the array with the smallest [x]. *)
Lemma lastOf_least (vs : list Vehicle) :
  match lastOf vs with
  | None => vs = []
  | Some last => In last vs /\ forall v, In v vs -> Vehicle.x last <= Vehicle.x v
  end.
Proof.
  unfold lastOf. pose proof (lastOf_loop vs None) as Hloop.
  destruct (fold_left _ vs None) as [last|]; [|tauto].
  destruct Hloop as ([Hnone|Hin] & _ & Hmin); [discriminate | tauto].
Qed.

Lemma at_lane_lastPos (this : TrafficModel) (l : Z) :
  In l [0%Z; 1%Z; 2%Z] ->
  at_lane (lastPos this) l
  = match lastOf (filter (fun v => (Vehicle.lane v =? l)%Z)
                    (vehicles this)) with
    | Some last => Fin (Vehicle.x last)
    | None => PInf
    end.
Proof. intros [<-|[<-|[<-|[]]]]; reflexivity. Qed.

Lemma on_lane (this : TrafficModel) (l : Z) (v : Vehicle) :
  In v (filter (fun v => (Vehicle.lane v =? l)%Z) (vehicles this))
  <-> In v (vehicles this) /\ Vehicle.lane v = l.
Proof. rewrite filter_In, Z.eqb_eq. tauto. Qed.

(** X15: the array [lastPos] of handleSpawning holds, for each of the three
    lanes, [Infinity] when no vehicle is on the lane and otherwise the
    smallest [x] of the vehicles on the lane, which is the [x] of one of
    them. *)
Theorem lastPos_smallest :
  forall (this : TrafficModel) (l : Z),
    In l [0%Z; 1%Z; 2%Z] ->
    (at_lane (lastPos this) l = PInf
     /\ forall v, In v (vehicles this) -> Vehicle.lane v <> l)
    \/ exists last,
         at_lane (lastPos this) l = Fin (Vehicle.x last)
         /\ In last (vehicles this) /\ Vehicle.lane last = l
         /\ forall v, In v (vehicles this) -> Vehicle.lane v = l ->
              Vehicle.x last <= Vehicle.x v.
Proof.
  intros this l Hl. rewrite (at_lane_lastPos this l Hl).
  pose proof (lastOf_least (filter (fun v => (Vehicle.lane v =? l)%Z)
                              (vehicles this))) as Hleast.
  destruct (lastOf _) as [last|].
  - right. destruct Hleast as [Hin Hmin]. apply on_lane in Hin.
    exists last. split; [reflexivity|]. split; [tauto|]. split; [tauto|].
    intros v Hv Hvlane. apply Hmin, on_lane. tauto.
  - left. split; [reflexivity|]. intros v Hv Hvlane.
    assert (Hin : In v (filter (fun v => (Vehicle.lane v =? l)%Z)
                          (vehicles this))) by (apply on_lane; tauto).
    rewrite Hleast in Hin. destruct Hin.
Qed.

Lemma lastPos_smallest_witness :
  (at_lane (lastPos convoy) 1 = PInf
   /\ forall v, In v (vehicles convoy) -> Vehicle.lane v <> 1%Z)
  \/ exists last,
       at_lane (lastPos convoy) 1 = Fin (Vehicle.x last)
       /\ In last (vehicles convoy) /\ Vehicle.lane last = 1%Z
       /\ forall v, In v (vehicles convoy) -> Vehicle.lane v = 1%Z ->
            Vehicle.x last <= Vehicle.x v.
Proof.
  apply (lastPos_smallest convoy 1). simpl. auto.
Defined.

(** The entry of a lane is more than [c] away exactly when every vehicle on
    the lane is. *)
Lemma entry_beyond (this : TrafficModel) (l : Z) (c : R) :
  In l [0%Z; 1%Z; 2%Z] ->
  (xgtb (at_lane (lastPos this) l) (Fin c) = true
   <-> forall v, In v (vehicles this) -> Vehicle.lane v = l ->
         c < Vehicle.x v).
Proof.
  intros Hl. rewrite (at_lane_lastPos this l Hl).
  pose proof (lastOf_least (filter (fun v => (Vehicle.lane v =? l)%Z)
                              (vehicles this))) as Hleast.
  destruct (lastOf _) as [last|]; unfold xgtb, xltb.
  - destruct Hleast as [Hin Hmin]. rewrite Rltb_iff. split.
    + intros Hc v Hv Hvl.
      assert (Vehicle.x last <= Vehicle.x v)
        by (apply Hmin, on_lane; tauto).
      lra.
    + intros Hall. apply on_lane in Hin. now apply Hall.
  - split; [|reflexivity]. intros _ v Hv Hvl.
    assert (Hin : In v (filter (fun v => (Vehicle.lane v =? l)%Z)
                          (vehicles this))) by (apply on_lane; tauto).
    rewrite Hleast in Hin. destruct Hin.
Qed.

(** The entry of lane 2 when no vehicle is on it. *)
Lemma top_lane_empty (this : TrafficModel) :
  (forall v, In v (vehicles this) -> Vehicle.lane v <> 2%Z) ->
  at_lane (lastPos this) 2 = PInf.
Proof.
  intros Hempty. rewrite at_lane_lastPos by (simpl; auto).
  pose proof (lastOf_least (filter (fun v => (Vehicle.lane v =? 2)%Z)
                              (vehicles this))) as Hleast.
  destruct (lastOf _) as [last|]; [|reflexivity].
  destruct Hleast as [Hin _]. apply on_lane in Hin.
  destruct Hin as [Hin Hlane]. now apply Hempty in Hin.
Qed.

(** X16: handleSpawning leaves the array as it is or appends one vehicle at
    [x = 0] on one of the three lanes, and then every vehicle that was on
    that lane is more than 40 m beyond the entry. *)
Theorem handleSpawning_entry_is_clear :
  forall (dt : R) (config : SimulationConfig) (this : TrafficModel)
         (rnd : nat -> R) (pos : nat),
    let this' := fst (handleSpawning dt config this rnd pos) in
    vehicles this' = vehicles this
    \/ exists veh,
         vehicles this' = vehicles this ++ [veh]
         /\ Vehicle.x veh = 0
         /\ In (Vehicle.lane veh) [0%Z; 1%Z; 2%Z]
         /\ Vehicle.y veh = IZR (Vehicle.lane veh)
         /\ forall v, In v (vehicles this) ->
              Vehicle.lane v = Vehicle.lane veh -> 40 < Vehicle.x v.
Proof.
  intros dt config this rnd pos. cbv zeta.
  rewrite handleSpawning_eq. cbv zeta.
  destruct (attempts _ _ _ _); [|left; reflexivity].
  destruct (entryClear this) eqn:Hclear; [|left; reflexivity].
  right. rewrite spawnVehicle_eq.
  cbn [fst vehicles set_timeSinceLastSpawn].
  eexists. split; [reflexivity|].
  cbn [spawned Vehicle.x Vehicle.lane Vehicle.y].
  split; [reflexivity|]. split; [apply bestLaneOf_range|].
  split; [reflexivity|].
  apply entry_beyond; [apply bestLaneOf_range | exact Hclear].
Qed.

(** X17: among the lanes whose entry is equally free the spawner prefers
    the one with the highest index: the chosen lane is strictly freer at
    the entry than every lane of a higher index.  When lane 2 is empty it
    is the one chosen. *)
Theorem bestLaneOf_prefers_higher :
  forall (this : TrafficModel),
    (forall l, In l [0%Z; 1%Z; 2%Z] ->
       (bestLaneOf (lastPos this) < l)%Z ->
       xgtb (at_lane (lastPos this) (bestLaneOf (lastPos this)))
            (at_lane (lastPos this) l) = true)
    /\ ((forall v, In v (vehicles this) -> Vehicle.lane v <> 2%Z) ->
        bestLaneOf (lastPos this) = 2%Z).
Proof.
  intros this. split.
  - intros l Hl Hbelow.
    destruct (lastPos_shape this) as (p0 & p1 & p2 & Hps & _).
    rewrite Hps in *. rewrite bestLaneOf_three in *.
    destruct (xgtb p0 p1) eqn:H01.
    + destruct (xgtb p0 p2) eqn:H02.
      * destruct Hl as [<-|[<-|[<-|[]]]]; try lia; assumption.
      * destruct Hl as [<-|[<-|[<-|[]]]]; lia.
    + destruct (xgtb p1 p2) eqn:H12.
      * destruct Hl as [<-|[<-|[<-|[]]]]; try lia; assumption.
      * destruct Hl as [<-|[<-|[<-|[]]]]; lia.
  - intros Hempty.
    pose proof (top_lane_empty this Hempty) as Htop.
    destruct (lastPos_shape this) as (p0 & p1 & p2 & Hps & _).
    rewrite Hps in *. rewrite bestLaneOf_three.
    change (at_lane [p0; p1; p2] 2) with p2 in Htop. subst p2.
    assert (Hinf : forall p, xgtb p PInf = false) by (intros [ | | | ]; reflexivity).
    rewrite !Hinf. destruct (xgtb p0 p1); reflexivity.
Qed.

Lemma bestLaneOf_prefers_higher_witness :
  bestLaneOf (lastPos convoy) = 2%Z.
Proof.
  apply (bestLaneOf_prefers_higher convoy).
  intros v [<-|[<-|[]]]; cbn; lia.
Defined.

(** X18: what spawnVehicle builds.  For a second draw in [[0, 1)] the
    vehicle appended is a truck exactly when the first draw is below
    [truckRatio]; a truck is 14 by 2.6 m, purple, and desires between 80
    and 90 km/h; a car is 4.5 by 2.0 m, coloured by getCarColor, and
    desires between 100 and 120 km/h; the vehicle enters at nine tenths of
    its desired speed, at rest laterally on its lane, with the id [nextId],
    which is then raised by one. *)
Theorem spawnVehicle_attributes :
  forall (lane : Z) (ratio : R) (config : SimulationConfig)
         (this : TrafficModel) (rnd : nat -> R) (pos : nat),
    0 <= rnd (S pos) < 1 ->
    let this' := fst (spawnVehicle lane ratio config this rnd pos) in
    exists veh,
      vehicles this' = vehicles this ++ [veh]
      /\ nextId this' = (nextId this + 1)%Z
      /\ Vehicle.id veh = nextId this
      /\ Vehicle.x veh = 0 /\ Vehicle.lane veh = lane
      /\ Vehicle.y veh = IZR lane /\ Vehicle.a veh = 0
      /\ Vehicle.v veh = Vehicle.targetSpeed veh * 0.9
      /\ (Vehicle.type veh = TRUCK <-> rnd pos < ratio)
      /\ (Vehicle.type veh = TRUCK ->
          80 <= Vehicle.targetSpeed veh * 3.6 < 90
          /\ Vehicle.length veh = 14 /\ Vehicle.width veh = 2.6
          /\ Vehicle.color veh = "#a78bfa"%string)
      /\ (Vehicle.type veh = CAR ->
          100 <= Vehicle.targetSpeed veh * 3.6 < 120
          /\ Vehicle.length veh = 4.5 /\ Vehicle.width veh = 2.0
          /\ Vehicle.color veh = getCarColor (Vehicle.targetSpeed veh)).
Proof.
  intros lane ratio config this rnd pos Hdraw. cbv zeta.
  rewrite spawnVehicle_eq. cbn [fst vehicles nextId].
  eexists. split; [reflexivity|]. split; [reflexivity|].
  unfold spawned.
  cbn [Vehicle.id Vehicle.x Vehicle.lane Vehicle.y Vehicle.a Vehicle.v
         Vehicle.targetSpeed Vehicle.type Vehicle.length Vehicle.width
         Vehicle.color].
  do 6 (split; [reflexivity|]).
  destruct (Rltb (rnd pos) ratio) eqn:Htruck;
    [apply Rltb_iff in Htruck | apply Rltb_iff_false in Htruck].
  - split; [tauto|]. split; [|discriminate].
    intros _. split; [lra|]. repeat split.
  - split; [split; [discriminate | lra]|]. split; [discriminate|].
    intros _. split; [lra|]. repeat split.
Qed.

Lemma spawnVehicle_attributes_witness :
  exists veh,
    vehicles (fst (spawnVehicle 2 0.15 baseline convoy zeros 0%nat))
    = vehicles convoy ++ [veh]
    /\ Vehicle.type veh = TRUCK
    /\ 80 <= Vehicle.targetSpeed veh * 3.6 < 90.
Proof.
  destruct (spawnVehicle_attributes 2 0.15 baseline convoy zeros 0%nat)
    as (veh & Hvs & _ & _ & _ & _ & _ & _ & _ & Htype & Htruck & _).
  - unfold zeros. lra.
  - exists veh. split; [exact Hvs|].
    assert (Ht : Vehicle.type veh = TRUCK)
      by (apply Htype; unfold zeros; lra).
    split; [exact Ht | apply Htruck, Ht].
Defined.

(** X19: the headway of the spawner.  With a positive inflow [Q] and a draw
    in [[0, 1)], handleSpawning adds no vehicle while the time since the
    last one, this call's [dt] included, is at most 0.8 times the mean
    headway [3600 / Q], and only adds [dt] to the timer; once it exceeds
    1.2 times the mean headway a vehicle is added whenever a lane has its
    entry clear, and the timer restarts at 0. *)
Theorem handleSpawning_headway :
  forall (dt : R) (config : SimulationConfig) (this : TrafficModel)
         (rnd : nat -> R) (pos : nat),
    0 < inflowRate config -> 0 <= rnd pos < 1 ->
    let this' := fst (handleSpawning dt config this rnd pos) in
    let waited := timeSinceLastSpawn this + dt in
    let headway := 3600 / inflowRate config in
    (waited <= 0.8 * headway ->
     vehicles this' = vehicles this /\ timeSinceLastSpawn this' = waited)
    /\ (1.2 * headway <= waited -> entryClear this = true ->
        (exists veh, vehicles this' = vehicles this ++ [veh])
        /\ timeSinceLastSpawn this' = 0).
Proof.
  intros dt config this rnd pos Hq Hdraw. cbv zeta.
  rewrite handleSpawning_eq. cbv zeta.
  rewrite attempts_positive_inflow by exact Hq.
  assert (Hhead : 1 / (inflowRate config / 3600) = 3600 / inflowRate config)
    by (field; lra).
  rewrite Hhead.
  assert (Hpos : 0 < 3600 / inflowRate config)
    by (apply Rdiv_lt_0_compat; lra).
  split.
  - intros Hearly. rewrite (proj2 (Rltb_iff_false _ _)) by nra.
    split; reflexivity.
  - intros Hlate Hclear. rewrite (proj2 (Rltb_iff _ _)) by nra.
    rewrite Hclear, spawnVehicle_eq.
    cbn [fst vehicles timeSinceLastSpawn set_timeSinceLastSpawn].
    split; [eexists; reflexivity | reflexivity].
Qed.

Lemma handleSpawning_headway_witness :
  (exists veh,
     vehicles (fst (handleSpawning DT baseline
                      (set_timeSinceLastSpawn (newTrafficModel 5000) 3)
                      zeros 0%nat))
     = [] ++ [veh])
  /\ timeSinceLastSpawn
       (fst (handleSpawning DT baseline
               (set_timeSinceLastSpawn (newTrafficModel 5000) 3)
               zeros 0%nat)) = 0.
Proof.
  apply (handleSpawning_headway DT baseline
           (set_timeSinceLastSpawn (newTrafficModel 5000) 3) zeros 0%nat).
  - simpl. lra.
  - unfold zeros. lra.
  - unfold DT. simpl. lra.
  - reflexivity.
Defined.

(** ** The spawn attempt *)

(** The chosen lane is an emptiest one, in terms of the vehicles: whatever
    distance from the entry is free of vehicles on some lane is free of
    vehicles on the chosen lane. *)
Lemma bestLaneOf_freest (this : TrafficModel) (l : Z) (c : R) :
  In l [0%Z; 1%Z; 2%Z] ->
  (forall v, In v (vehicles this) -> Vehicle.lane v = l -> c < Vehicle.x v) ->
  forall v, In v (vehicles this) ->
    Vehicle.lane v = bestLaneOf (lastPos this) -> c < Vehicle.x v.
Proof.
  intros Hl Hfree.
  apply (entry_beyond this (bestLaneOf (lastPos this)) c);
    [apply bestLaneOf_range|].
  apply (entry_beyond this l c Hl) in Hfree.
  pose proof (bestLaneOf_emptiest this l Hl) as Hbest.
  rewrite (at_lane_lastPos this l Hl) in *.
  rewrite (at_lane_lastPos this _ (bestLaneOf_range (lastPos this))) in *.
  destruct (lastOf (filter (fun v => (Vehicle.lane v =? l)%Z)
                      (vehicles this))) as [la|];
    destruct (lastOf (filter
                        (fun v => (Vehicle.lane v =? bestLaneOf (lastPos this))%Z)
                        (vehicles this))) as [lb|];
    unfold xgtb, xltb in *; try reflexivity; try discriminate.
  apply Rltb_iff in Hfree. apply Rltb_iff_false in Hbest.
  apply Rltb_iff. lra.
Qed.

(** C8: in a call in which the spawner makes an attempt, the timer
    [timeSinceLastSpawn] is reset to 0 exactly when a vehicle is appended,
    which happens exactly when the chosen lane, an emptiest one at the
    entry, has more than 40 m free, that is when any lane has; the vehicle
    enters on the chosen lane at [x = 0].  In terms of the vehicles: a
    vehicle is appended exactly when on some lane every vehicle is more
    than 40 m beyond the entry, and then so is every vehicle on the chosen
    lane, which is free as far as any lane is.  Otherwise only the elapsed
    time is added to the timer, and the next call attempts again for any
    draw that is not greater. *)
Theorem spawn_attempt_resets_iff_spawned :
  forall (dt : R) (config : SimulationConfig) (this : TrafficModel)
         (rnd : nat -> R) (pos : nat),
    0 < inflowRate config -> 0 <= rnd pos ->
    attempts dt config this (rnd pos) = true ->
    let this' := fst (handleSpawning dt config this rnd pos) in
    let chosen := bestLaneOf (lastPos this) in
    let appended :=
      exists veh, vehicles this' = vehicles this ++ [veh]
                  /\ Vehicle.lane veh = chosen /\ Vehicle.x veh = 0 in
    (timeSinceLastSpawn this' = 0 <-> appended)
    /\ (appended <-> entryClear this = true)
    /\ (forall l, In l [0%Z; 1%Z; 2%Z] ->
          xgtb (at_lane (lastPos this) l) (at_lane (lastPos this) chosen)
          = false)
    /\ (entryClear this = true
        <-> exists l, In l [0%Z; 1%Z; 2%Z]
                      /\ xgtb (at_lane (lastPos this) l) (Fin 40) = true)
    /\ (entryClear this = false ->
        this' = set_timeSinceLastSpawn this (timeSinceLastSpawn this + dt)
        /\ forall (dt' r' : R), 0 <= dt' -> r' <= rnd pos ->
             attempts dt' config this' r' = true)
    /\ (appended
        <-> exists l, In l [0%Z; 1%Z; 2%Z]
                      /\ forall v, In v (vehicles this) ->
                           Vehicle.lane v = l -> 40 < Vehicle.x v)
    /\ (appended ->
        forall v, In v (vehicles this) ->
          Vehicle.lane v = chosen -> 40 < Vehicle.x v)
    /\ (forall (l : Z) (c : R), In l [0%Z; 1%Z; 2%Z] ->
          (forall v, In v (vehicles this) ->
             Vehicle.lane v = l -> c < Vehicle.x v) ->
          forall v, In v (vehicles this) ->
            Vehicle.lane v = chosen -> c < Vehicle.x v).
Proof.
  intros dt config this rnd pos Hq Hr Hattempt this' chosen appended.
  assert (Hfreest := bestLaneOf_freest this).
  assert (Hvehicles :
    entryClear this = true
    <-> exists l, In l [0%Z; 1%Z; 2%Z]
                  /\ forall v, In v (vehicles this) ->
                       Vehicle.lane v = l -> 40 < Vehicle.x v).
  { pose proof (entryClear_iff this) as Hany. rewrite Hany.
    split; intros (l & Hl & Hfree); exists l; (split; [exact Hl|]);
      now apply (entry_beyond this l 40 Hl). }
  assert (Hchosen :
    entryClear this = true ->
    forall v, In v (vehicles this) ->
      Vehicle.lane v = bestLaneOf (lastPos this) -> 40 < Vehicle.x v).
  { intros Hclear.
    apply (entry_beyond this _ 40 (bestLaneOf_range (lastPos this))).
    exact Hclear. }
  subst this' chosen appended. rewrite handleSpawning_eq. cbv zeta.
  rewrite Hattempt.
  pose proof (headway_positive config Hq) as Hhead.
  rewrite attempts_positive_inflow in Hattempt by exact Hq.
  apply Rltb_iff in Hattempt.
  assert (Hwaited : 0 < timeSinceLastSpawn this + dt) by nra.
  pose proof (entryClear_iff this) as Hiff.
  pose proof (bestLaneOf_emptiest this) as Hemptiest.
  destruct (entryClear this) eqn:Hclear.
  - rewrite spawnVehicle_eq. cbn [fst vehicles timeSinceLastSpawn
      set_timeSinceLastSpawn].
    assert (Happended :
      exists veh,
        vehicles this
        ++ [spawned (bestLaneOf (lastPos this)) (truckRatio config)
              (set_timeSinceLastSpawn this (timeSinceLastSpawn this + dt))
              (rnd (S pos)) (rnd (S (S pos)))]
        = vehicles this ++ [veh]
        /\ Vehicle.lane veh = bestLaneOf (lastPos this)
        /\ Vehicle.x veh = 0).
    { eexists. split; [reflexivity|]. split; reflexivity. }
    split; [|split; [|split; [|split; [|split; [|split; [|split]]]]]].
    + split; [intros _; exact Happended | reflexivity].
    + split; [reflexivity | intros _; exact Happended].
    + exact Hemptiest.
    + exact Hiff.
    + discriminate.
    + split; [intros _; now apply Hvehicles | intros _; exact Happended].
    + intros _. now apply Hchosen.
    + intros l c. apply Hfreest.
  - cbn [fst vehicles timeSinceLastSpawn set_timeSinceLastSpawn].
    assert (Hnot : ~ exists veh,
                     vehicles this = vehicles this ++ [veh]
                     /\ Vehicle.lane veh = bestLaneOf (lastPos this)
                     /\ Vehicle.x veh = 0).
    { intros (veh & Hveh & _). symmetry in Hveh.
      now apply app_one_neq in Hveh. }
    split; [|split; [|split; [|split; [|split; [|split; [|split]]]]]].
    + split; [lra | intros Happ; now apply Hnot in Happ].
    + split; [intros Happ; now apply Hnot in Happ | discriminate].
    + exact Hemptiest.
    + exact Hiff.
    + intros _. split; [reflexivity|].
      intros dt' r' Hdt' Hr'.
      rewrite attempts_positive_inflow by exact Hq.
      cbn [timeSinceLastSpawn set_timeSinceLastSpawn].
      apply Rltb_true. nra.
    + split; [intros Happ; now apply Hnot in Happ|].
      intros Hsome. apply Hvehicles in Hsome. discriminate.
    + intros Happ. now apply Hnot in Happ.
    + intros l c. apply Hfreest.
Qed.

Lemma bestLaneOf_busyEntry : bestLaneOf (lastPos busyEntry) = 1%Z.
Proof.
  assert (Hps : lastPos busyEntry = [Fin 10; Fin 100; Fin 30]).
  { unfold lastPos, busyEntry, lastOf, car. cbn [vehicles set_vehicles
      set_timeSinceLastSpawn map filter Vehicle.lane Z.eqb fold_left
      Vehicle.x]. reflexivity. }
  rewrite Hps, bestLaneOf_three. unfold xgtb, xltb.
  rewrite (proj2 (Rltb_iff_false 100 10)) by lra.
  rewrite (proj2 (Rltb_iff 30 100)) by lra. reflexivity.
Qed.

Lemma spawn_attempt_resets_iff_spawned_witness :
  attempts DT baseline busyEntry (zeros 0%nat) = true
  /\ bestLaneOf (lastPos busyEntry) = 1%Z
  /\ (let this' := fst (handleSpawning DT baseline busyEntry zeros 0%nat) in
      (exists veh, vehicles this' = vehicles busyEntry ++ [veh]
                   /\ Vehicle.lane veh = bestLaneOf (lastPos busyEntry)
                   /\ Vehicle.x veh = 0)
      /\ timeSinceLastSpawn this' = 0
      /\ forall v, In v (vehicles busyEntry) ->
           Vehicle.lane v = bestLaneOf (lastPos busyEntry) ->
           40 < Vehicle.x v).
Proof.
  assert (Hattempt : attempts DT baseline busyEntry (zeros 0%nat) = true).
  { rewrite attempts_positive_inflow by (simpl; lra).
    unfold zeros, DT, baseline, busyEntry. simpl.
    apply Rltb_true. lra. }
  split; [exact Hattempt|]. split; [exact bestLaneOf_busyEntry|].
  destruct (spawn_attempt_resets_iff_spawned DT baseline busyEntry zeros 0%nat)
    as (Hreset & _ & _ & _ & _ & Hsome & Hclear & _);
    [simpl; lra | unfold zeros; lra | exact Hattempt |].
  cbv zeta.
  assert (Happended :
    exists veh,
      vehicles (fst (handleSpawning DT baseline busyEntry zeros 0%nat))
      = vehicles busyEntry ++ [veh]
      /\ Vehicle.lane veh = bestLaneOf (lastPos busyEntry)
      /\ Vehicle.x veh = 0).
  { apply Hsome. exists 1%Z. split; [simpl; auto|].
    intros v [<- | [<- | [<- | []]]]; cbn [car Vehicle.lane Vehicle.x];
      intros Hlane; try discriminate; lra. }
  split; [exact Happended|].
  split; [now apply Hreset | now apply Hclear].
Defined.

(** * The lateral interpolation *)

Lemma integrateVehicle_y (dt : R) (veh : Vehicle) :
  let veh' := integrateVehicle dt veh in
  (offset veh <= 0.05 ->
   Vehicle.y veh' = IZR (Vehicle.lane veh)
   /\ Vehicle.laneChangeDirection veh' = 0%Z)
  /\ (0.05 < offset veh ->
      Vehicle.y veh'
      = Vehicle.y veh
        + Math_sign (IZR (Vehicle.lane veh) - Vehicle.y veh) * 2.5 * dt
      /\ Vehicle.laneChangeDirection veh' = Vehicle.laneChangeDirection veh).
Proof.
  cbv zeta. unfold integrateVehicle, offset.
  cbn [Vehicle.v Vehicle.a Vehicle.set_v].
  destruct (Rltb (Vehicle.v veh + Vehicle.a veh * dt) 0);
    cbn [Vehicle.v Vehicle.x Vehicle.y Vehicle.lane Vehicle.set_v
           Vehicle.set_x];
    unfold Math_abs;
    destruct (Rgtb (Rabs (Vehicle.y veh - IZR (Vehicle.lane veh))) 0.05)
      eqn:Hfar;
    [apply Rgtb_iff in Hfar | apply Rgtb_iff_false in Hfar
    | apply Rgtb_iff in Hfar | apply Rgtb_iff_false in Hfar];
    (split; [intros Hnear | intros Hbeyond]); try lra;
    split; reflexivity.
Qed.

Lemma offset_after_move (dt y lane : R) :
  0 < Rabs (y - lane) ->
  Rabs (y + Math_sign (lane - y) * 2.5 * dt - lane)
  = Rabs (Rabs (y - lane) - 2.5 * dt).
Proof.
  intros Hoff. unfold Math_sign.
  destruct (Rltb 0 (lane - y)) eqn:Hleft;
    [apply Rltb_iff in Hleft | apply Rltb_iff_false in Hleft].
  - rewrite (Rabs_left (y - lane)) by lra.
    replace (y + 1 * 2.5 * dt - lane) with (- (- (y - lane) - 2.5 * dt))
      by ring.
    apply Rabs_Ropp.
  - destruct (Rltb (lane - y) 0) eqn:Hright;
      [apply Rltb_iff in Hright | apply Rltb_iff_false in Hright].
    + rewrite (Rabs_right (y - lane)) by lra. f_equal. ring.
    + replace (y - lane) with 0 in Hoff by lra.
      rewrite Rabs_R0 in Hoff. lra.
Qed.

(** X20: the lateral interpolation of a step.  A vehicle within 0.05 of the
    centre of its lane is put on the centre and its signal is switched off;
    a vehicle further away is moved by [2.5 * dt] towards the centre, its
    signal left as it is, so that its distance [d] from the centre becomes
    [|d - 2.5 * dt|].  When [2.5 * dt] is between 0 and 0.1 the distance
    shrinks by [2.5 * dt] or falls below 0.05. *)
Theorem integrateVehicle_lateral :
  forall (dt : R) (veh : Vehicle),
    let veh' := integrateVehicle dt veh in
    (offset veh <= 0.05 ->
     offset veh' = 0 /\ Vehicle.laneChangeDirection veh' = 0%Z)
    /\ (0.05 < offset veh ->
        offset veh' = Rabs (offset veh - 2.5 * dt)
        /\ Vehicle.laneChangeDirection veh'
           = Vehicle.laneChangeDirection veh)
    /\ (0.05 < offset veh -> 0 <= 2.5 * dt <= 0.1 ->
        offset veh' = offset veh - 2.5 * dt \/ offset veh' < 0.05).
Proof.
  intros dt veh. cbv zeta.
  destruct (integrateVehicle_y dt veh) as [Hnear Hfar]. cbv zeta in *.
  destruct (integrateVehicle_fields dt veh) as (Hlane & _).
  assert (Hmoved : 0.05 < offset veh ->
                   offset (integrateVehicle dt veh)
                   = Rabs (offset veh - 2.5 * dt)).
  { intros Hoff. destruct (Hfar Hoff) as [Hy _].
    unfold offset in *. rewrite Hlane, Hy.
    apply offset_after_move. lra. }
  split; [|split].
  - intros Hoff. destruct (Hnear Hoff) as [Hy Hsignal].
    split; [|exact Hsignal].
    unfold offset. rewrite Hlane, Hy.
    replace (IZR (Vehicle.lane veh) - IZR (Vehicle.lane veh)) with 0 by ring.
    apply Rabs_R0.
  - intros Hoff. split; [now apply Hmoved | now apply Hfar].
  - intros Hoff Hdt. rewrite (Hmoved Hoff).
    destruct (Rle_lt_dec (2.5 * dt) (offset veh)) as [Hle|Hlt].
    + left. apply Rabs_right. lra.
    + right. rewrite Rabs_left by lra. lra.
Qed.

Lemma offset_offCentre : offset offCentre = 0.0625.
Proof.
  unfold offset, offCentre. cbn [Vehicle.y Vehicle.lane car Vehicle.set_y
    Vehicle.set_laneChangeDirection].
  rewrite Rabs_left by lra. lra.
Qed.

Lemma integrateVehicle_lateral_witness :
  offset (integrateVehicle DT offCentre) = offset offCentre - 2.5 * DT
  \/ offset (integrateVehicle DT offCentre) < 0.05.
Proof.
  apply (integrateVehicle_lateral DT offCentre).
  - rewrite offset_offCentre. lra.
  - unfold DT. lra.
Defined.

Lemma decided_y (config : SimulationConfig) (dt : R) (this : TrafficModel)
    (visited : list Vehicle) (veh : Vehicle) (pending : list Vehicle) (r : R) :
  Vehicle.y (decided config dt this visited veh pending r) = Vehicle.y veh.
Proof.
  by_decided_cases config dt this visited veh pending r; reflexivity.
Qed.

Lemma successor_swaying (config : SimulationConfig) (dt : R)
    (this0 : TrafficModel) (visited : list Vehicle) (veh : Vehicle)
    (pending : list Vehicle) (r : R) :
  swaying dt veh
    (integrateVehicle dt (decided config dt this0 visited veh pending r)).
Proof.
  unfold swaying. intros Hband Hkept.
  set (chosen := decided config dt this0 visited veh pending r) in *.
  destruct (integrateVehicle_fields dt chosen) as (Hlane & _).
  cbv zeta in Hlane. rewrite Hlane in Hkept.
  assert (Hoffset : offset chosen = offset veh).
  { unfold offset. rewrite Hkept. unfold chosen. now rewrite decided_y. }
  assert (Hsignal : Vehicle.laneChangeDirection chosen
                    = Vehicle.laneChangeDirection veh).
  { subst chosen. clear Hlane Hoffset. revert Hkept.
    by_decided_cases config dt this0 visited veh pending r;
      try reflexivity.
    cbn [Vehicle.lane Vehicle.set_laneChangeDirection
           Vehicle.set_laneChangeTimer Vehicle.set_lane Vehicle.set_a].
    lia. }
  destruct (integrateVehicle_y dt chosen) as [_ Hfar]. cbv zeta in Hfar.
  destruct Hfar as [Hy Hsame]; [rewrite Hoffset; lra|].
  assert (Hnew : offset (integrateVehicle dt chosen)
                 = 2.5 * dt - offset veh).
  { unfold offset at 1. rewrite Hlane, Hy.
    rewrite offset_after_move by (fold (offset chosen); rewrite Hoffset; lra).
    fold (offset chosen). rewrite Hoffset. rewrite Rabs_left by lra. lra. }
  rewrite Hnew, Hsame, Hsignal. repeat split; lra.
Qed.

(** X21: a lane change that never completes.  When the lateral move of a
    step, [2.5 * dt], exceeds 0.1, a vehicle whose distance [d] from the
    centre of its lane lies strictly between 0.05 and [2.5 * dt - 0.05] and
    that keeps its lane is thrown to the other side of the centre, at the
    distance [2.5 * dt - d], which lies in the same band: the step neither
    centres the vehicle nor switches its signal off, and so does every
    later step in which the vehicle keeps its lane. *)
Theorem step_keeps_swaying :
  forall (config : SimulationConfig) (this : TrafficModel)
         (rnd : nat -> R) (pos : nat),
    stepRelates (swaying (DT * timeScale config)) config this rnd pos.
Proof.
  intros config this rnd pos. apply step_relates.
  intros this0 visited veh pending r. apply successor_swaying.
Qed.

Lemma step_keeps_swaying_witness :
  exists veh',
    endOfIntegration hasty (roadWith offCentre) zeros 0%nat = [veh']
    /\ (Vehicle.lane veh' = 2%Z ->
        offset veh' = 0.125
        /\ Vehicle.laneChangeDirection veh' = 1%Z).
Proof.
  destruct (step_keeps_swaying hasty (roadWith offCentre) zeros 0%nat)
    as [Hsucc _].
  change (sortByXDescending (vehicles (roadWith offCentre)))
    with [offCentre] in Hsucc.
  inversion Hsucc as [|veh veh' before moved Hsway Hrest Hbefore Hmoved].
  inversion Hrest. subst.
  exists veh'. split; [reflexivity|]. intros Hlane.
  destruct Hsway as (Hoff & _ & Hsignal).
  - rewrite offset_offCentre. unfold DT. simpl. lra.
  - exact Hlane.
  - split; [|exact Hsignal].
    rewrite Hoff, offset_offCentre. unfold DT. simpl. lra.
Defined.

(** * MOBIL on the models in use *)












(** * Incidents and colours *)

Lemma step_Forall (P : Vehicle -> Prop) (config : SimulationConfig)
    (this : TrafficModel) (rnd : nat -> R) (pos : nat) :
  (forall veh veh', sameIdentity veh veh' -> P veh -> P veh') ->
  (forall lane ratio model r1 r2, P (spawned lane ratio model r1 r2)) ->
  Forall P (vehicles this) ->
  Forall P (vehicles (fst (step config this rnd pos))).
Proof.
  intros Hkeeps Hspawned Hthis.
  assert (Hmoved : Forall P (endOfIntegration config this rnd pos)).
  { pose proof (endOfIntegration_Forall2 sameIdentity config this rnd pos
                  (fun this0 visited veh pending r =>
                     successor_sameIdentity config _ this0 visited veh
                       pending r)) as Hsucc.
    assert (Hsorted : Forall P (sortByXDescending (vehicles this))).
    { rewrite Forall_forall in *. intros veh Hin. apply Hthis.
      eapply Permutation_in; [|exact Hin].
      apply Permutation_sym, sortByXDescending_Permutation. }
    revert Hsorted. induction Hsucc as [|veh veh' l l' Hsame _ IH];
      intros Hsorted; constructor; inversion Hsorted; subst; eauto. }
  rewrite step_from_spawning. cbv zeta. cbn [fst].
  match goal with
  | |- context [collectData ?dt ?m] =>
      destruct (collectData_frame dt m) as (-> & _ & _)
  end.
  match goal with
  | |- context [handleSpawning ?dt ?c ?m ?r ?p] =>
      destruct (handleSpawning_vehicles dt c m r p) as (_ & _ & [-> | ->])
  end; cbn [beforeSpawning vehicles set_vehicles].
  - rewrite Forall_forall in *. intros veh Hin.
    apply filter_In in Hin. now apply Hmoved.
  - apply Forall_app. split; [|constructor; [apply Hspawned | constructor]].
    rewrite Forall_forall in *. intros veh Hin.
    apply filter_In in Hin. now apply Hmoved.
Qed.

Lemma livery_spawned (lane : Z) (ratio : R) (model : TrafficModel)
    (r1 r2 : R) :
  Vehicle.color (spawned lane ratio model r1 r2)
  = livery (spawned lane ratio model r1 r2).
Proof.
  unfold livery, spawned.
  cbn [Vehicle.color Vehicle.isCrashed Vehicle.type Vehicle.targetSpeed].
  destruct (Rltb r1 ratio); reflexivity.
Qed.

Lemma livery_sameIdentity (veh veh' : Vehicle) :
  sameIdentity veh veh' ->
  Vehicle.color veh = livery veh -> Vehicle.color veh' = livery veh'.
Proof.
  intros (_ & Htype & _ & _ & Hcolor & Hspeed & Hcrashed) Hveh.
  unfold livery in *. now rewrite Htype, Hcolor, Hspeed, Hcrashed.
Qed.

(** X22: in every model the program can be in, the colour of a vehicle is
    told by its state: red while it is crashed, otherwise purple for a
    truck and, for a car, the colour getCarColor gives its desired speed;
    step, triggerAccident and the callback of its timer keep any model
    so. *)
Theorem reachable_liveried :
  (forall this : TrafficModel, reachable this -> liveried this)
  /\ (forall this : TrafficModel,
        liveried this ->
        (forall config rnd pos, liveried (fst (step config this rnd pos)))
        /\ liveried (fst (triggerAccident this))
        /\ forall place, liveried (fireTimeout place this)).
Proof.
  assert (Hstep : forall this config rnd pos,
             liveried this -> liveried (fst (step config this rnd pos))).
  { intros this config rnd pos Hthis. apply step_Forall;
      [exact livery_sameIdentity | exact livery_spawned | exact Hthis]. }
  assert (Htrigger : forall this,
             liveried this -> liveried (fst (triggerAccident this))).
  { intros this Hthis. unfold liveried, triggerAccident.
    destruct (find isCandidate (vehicles this)); [|exact Hthis].
    cbn [fst vehicles]. apply crashFirst_Forall; [|exact Hthis].
    intros veh _. reflexivity. }
  assert (Hfire : forall this place,
             liveried this -> liveried (fireTimeout place this)).
  { intros this place Hthis. unfold liveried.
    destruct place as [place|]; cbn [fireTimeout vehicles]; [|exact Hthis].
    apply restoreAt_Forall; [|exact Hthis]. intros veh _. reflexivity. }
  split; [|intros this Hthis; repeat split; auto].
  induction 1 as [len Hlen
                 | this config rnd pos _ IH _ _
                 | this _ IH | this _ IH | this place _ IH].
  - constructor.
  - now apply Hstep.
  - constructor.
  - now apply Htrigger.
  - now apply Hfire.
Qed.

Lemma livery_car (id : Z) (x : R) (lane : Z) :
  Vehicle.color (car id x lane 30) = livery (car id x lane 30).
Proof.
  unfold livery, car, getCarColor.
  cbn [Vehicle.color Vehicle.isCrashed Vehicle.type Vehicle.targetSpeed].
  rewrite (proj2 (Rgtb_iff_false 30 32)) by lra.
  rewrite (proj2 (Rgtb_iff 30 28)) by lra. reflexivity.
Qed.

Lemma color_entrant : Vehicle.color entrant = "#f59e0b"%string.
Proof.
  unfold entrant, spawned, getCarColor. cbn [Vehicle.color].
  rewrite (proj2 (Rltb_iff_false 0 0)) by lra.
  rewrite (proj2 (Rgtb_iff_false _ 32)) by lra.
  rewrite (proj2 (Rgtb_iff_false _ 28)) by lra. reflexivity.
Qed.

Lemma reachable_liveried_witness :
  (liveried restarted /\ vehicles restarted = [entrant]
   /\ Vehicle.color entrant = "#f59e0b"%string)
  /\ (liveried (fst (triggerAccident overtaking))
      /\ vehicles (fst (triggerAccident overtaking))
         = [car 2 3000 0 30; stopped]
      /\ Vehicle.color stopped = "#ef4444"%string).
Proof.
  destruct reachable_liveried as [Hreachable Hkept].
  split.
  - split; [|split; [exact (proj1 restarted_holds) | exact color_entrant]].
    apply Hreachable. apply (reachableBy_reachable panel).
    + intros config Hpanel.
      destruct (panel_drivable config Hpanel) as [Hscale _]. exact Hscale.
    + apply reachableBy_restarted, panel_brisk.
  - split; [|split; [rewrite triggerAccident_overtaking | ]; reflexivity].
    apply Hkept. unfold liveried, overtaking.
    cbn [vehicles set_vehicles]. repeat constructor; apply livery_car.
Defined.

Lemma restore_crash (veh : Vehicle) :
  Vehicle.isCrashed veh = false -> Vehicle.color veh = livery veh ->
  restore (crash veh) = Vehicle.set_v veh 0.
Proof.
  unfold livery. intros Hsound Hcolor. rewrite Hsound in Hcolor.
  destruct veh. cbn in *. subst. reflexivity.
Qed.

Lemma restoreAt_crashFirst (vs : list Vehicle) :
  Forall (fun veh => Vehicle.isCrashed veh = false
                     /\ Vehicle.color veh = livery veh) vs ->
  match placeOf vs with
  | Some i => restoreAt i (crashFirst vs)
  | None => crashFirst vs
  end = haltFirst vs.
Proof.
  induction 1 as [|veh rest [Hsound Hcolor] _ IH]; [reflexivity|].
  cbn [placeOf crashFirst haltFirst].
  destruct (isCandidate veh).
  - cbn [restoreAt]. now rewrite restore_crash.
  - destruct (placeOf rest) as [i|]; cbn [option_map restoreAt];
      now rewrite IH.
Qed.

Lemma placeOf_find (vs : list Vehicle) :
  placeOf vs = None <-> find isCandidate vs = None.
Proof.
  induction vs as [|veh rest IH]; [tauto|].
  cbn [placeOf find]. destruct (isCandidate veh); [split; discriminate|].
  destruct (placeOf rest); cbn [option_map]; split; intros H;
    try discriminate; try tauto.
  apply IH in H. discriminate.
Qed.

(** X23: an incident and its end.  In a model with no crashed vehicle and
    no blockage recorded, whose vehicles wear their colours, triggering an
    accident and then running the callback of its timer, the held vehicle
    being where [find] found it, leaves the model as it was but for the
    speed of that vehicle, which is 0. *)
Theorem incident_round_trip :
  forall this : TrafficModel,
    unobstructed this -> liveried this ->
    fireTimeout (placeOf (vehicles this)) (fst (triggerAccident this))
    = set_vehicles this (haltFirst (vehicles this)).
Proof.
  intros this (Hsound & Hlane & Hlocation) Hcolors.
  assert (Hall : Forall (fun veh => Vehicle.isCrashed veh = false
                                    /\ Vehicle.color veh = livery veh)
                   (vehicles this)).
  { unfold liveried in Hcolors. rewrite Forall_forall in *.
    intros veh Hin. split; [now apply Hsound | now apply Hcolors]. }
  pose proof (restoreAt_crashFirst (vehicles this) Hall) as Htrip.
  pose proof (placeOf_find (vehicles this)) as Hplace.
  unfold triggerAccident, fireTimeout, set_vehicles.
  destruct (find isCandidate (vehicles this)) as [candidate|] eqn:Hfind;
    cbn [fst vehicles roadLength lanes nextId timeSinceLastSpawn fdPoints
           statsTimer].
  - destruct (placeOf (vehicles this)) as [i|].
    + rewrite Htrip, Hlane, Hlocation. reflexivity.
    + destruct Hplace as [Hplace _]. now specialize (Hplace eq_refl).
  - destruct (placeOf (vehicles this)) as [i|] eqn:Hi.
    + destruct Hplace as [_ Hplace]. now specialize (Hplace eq_refl).
    + assert (Hsame : haltFirst (vehicles this) = vehicles this).
      { clear -Hfind. induction (vehicles this) as [|veh rest IH];
          [reflexivity|].
        cbn [find haltFirst] in *. destruct (isCandidate veh);
          [discriminate | now rewrite IH]. }
      rewrite Hsame, Hlane, Hlocation. reflexivity.
Qed.

Lemma incident_round_trip_witness :
  fireTimeout (placeOf (vehicles convoy)) (fst (triggerAccident convoy))
  = set_vehicles convoy (haltFirst (vehicles convoy)).
Proof.
  apply (incident_round_trip convoy).
  - repeat split. repeat constructor.
  - assert (Hcar : forall id x lane,
              Vehicle.color (car id x lane 30) = livery (car id x lane 30)).
    { intros id x lane. unfold livery, car, getCarColor.
      cbn [Vehicle.color Vehicle.isCrashed Vehicle.type Vehicle.targetSpeed].
      rewrite (proj2 (Rgtb_iff_false 30 32)) by lra.
      rewrite (proj2 (Rgtb_iff 30 28)) by lra. reflexivity. }
    unfold liveried, convoy. cbn [vehicles].
    repeat constructor; apply Hcar.
Defined.

(** * Leaders and followers *)

Lemma getLeader_nearest (this : TrafficModel) (vehicle : Vehicle)
    (targetLane : Z) :
  nearestFirst (vehicles this)
    (eligible vehicle targetLane (distAhead vehicle)) (distAhead vehicle)
    (getLeader this vehicle targetLane).
Proof.
  unfold getLeader. rewrite getLeader_nearest_loop.
  apply (nearest_loop_spec vehicle targetLane (distAhead vehicle)
           (vehicles this) [] PInf None).
  simpl. split; [reflexivity | intros o []].
Qed.

Lemma getFollower_nearest (this : TrafficModel) (vehicle : Vehicle)
    (targetLane : Z) :
  nearestFirst (vehicles this)
    (eligible vehicle targetLane (distBehind vehicle)) (distBehind vehicle)
    (getFollower this vehicle targetLane).
Proof.
  unfold getFollower. rewrite getFollower_nearest_loop.
  apply (nearest_loop_spec vehicle targetLane (distBehind vehicle)
           (vehicles this) [] PInf None).
  simpl. split; [reflexivity | intros o []].
Qed.

Lemma nearestFirst_least (vs : list Vehicle) (ok : Vehicle -> Prop)
    (dist : Vehicle -> R) (l : Vehicle) :
  nearestFirst vs ok dist (Some l) ->
  In l vs /\ ok l /\ forall o, In o vs -> ok o -> dist l <= dist o.
Proof.
  intros (before & after & -> & Hok & Hbefore & Hafter).
  split; [apply in_elt|]. split; [exact Hok|].
  intros o Hin Hoko. apply in_app_or in Hin.
  destruct Hin as [Hin | [<- | Hin]];
    [specialize (Hbefore o Hin Hoko); lra | lra | now apply Hafter].
Qed.

Lemma same_id_same_vehicle (vs : list Vehicle) (a b : Vehicle) :
  NoDup (map Vehicle.id vs) -> In a vs -> In b vs ->
  Vehicle.id a = Vehicle.id b -> a = b.
Proof.
  induction vs as [|v rest IH]; [intros _ []|].
  cbn [map]. intros Hnodup Ha Hb Hid.
  inversion Hnodup as [|? ? Hnotin Hrest]; subst.
  destruct Ha as [<- | Ha], Hb as [<- | Hb]; [reflexivity | | | now apply IH].
  - exfalso. apply Hnotin. rewrite Hid. now apply in_map.
  - exfalso. apply Hnotin. rewrite <- Hid. now apply in_map.
Qed.

(** X24: leaders and followers answer to each other.  When no two vehicles
    of the array share an id and [l] is the leader of a vehicle of the
    array on its own lane, the follower of [l] on that lane exists and is
    level with the vehicle: it is the vehicle or one at the same [x] on the
    lane.  The same holds with leader and follower exchanged. *)
Theorem leader_follower_dual :
  forall (this : TrafficModel) (veh : Vehicle),
    NoDup (map Vehicle.id (vehicles this)) -> In veh (vehicles this) ->
    (forall l, getLeader this veh (Vehicle.lane veh) = Some l ->
       exists f, getFollower this l (Vehicle.lane veh) = Some f
                 /\ In f (vehicles this)
                 /\ Vehicle.lane f = Vehicle.lane veh
                 /\ Vehicle.x f = Vehicle.x veh)
    /\ (forall f, getFollower this veh (Vehicle.lane veh) = Some f ->
          exists l, getLeader this f (Vehicle.lane veh) = Some l
                    /\ In l (vehicles this)
                    /\ Vehicle.lane l = Vehicle.lane veh
                    /\ Vehicle.x l = Vehicle.x veh).
Proof.
  intros this veh Hnodup Hveh. split.
  - intros l Hleader.
    pose proof (getLeader_nearest this veh (Vehicle.lane veh)) as Hl.
    rewrite Hleader in Hl. apply nearestFirst_least in Hl.
    destruct Hl as (Hlin & (Hlid & Hllane & Hlpos) & Hlleast).
    unfold distAhead in *.
    pose proof (getFollower_nearest this l (Vehicle.lane veh)) as Hf.
    destruct (getFollower this l (Vehicle.lane veh)) as [f|].
    + apply nearestFirst_least in Hf.
      destruct Hf as (Hfin & (Hfid & Hflane & Hfpos) & Hfleast).
      unfold distBehind in *.
      exists f. repeat split; try assumption.
      assert (Hge : Vehicle.x l - Vehicle.x f <= Vehicle.x l - Vehicle.x veh).
      { apply Hfleast; [exact Hveh|]. unfold eligible.
        repeat split; [congruence | lra]. }
      destruct (Rle_lt_dec (Vehicle.x f) (Vehicle.x veh)) as [Hle|Hlt];
        [lra|].
      assert (Hahead : Vehicle.x l - Vehicle.x veh
                       <= Vehicle.x f - Vehicle.x veh).
      { apply Hlleast; [exact Hfin|]. unfold eligible.
        repeat split; [|exact Hflane | lra].
        intros Hid.
        pose proof (same_id_same_vehicle _ _ _ Hnodup Hfin Hveh Hid).
        subst f. lra. }
      lra.
    + exfalso. apply (Hf veh Hveh). unfold eligible, distBehind.
      repeat split; [congruence | lra].
  - intros f Hfollower.
    pose proof (getFollower_nearest this veh (Vehicle.lane veh)) as Hf.
    rewrite Hfollower in Hf. apply nearestFirst_least in Hf.
    destruct Hf as (Hfin & (Hfid & Hflane & Hfpos) & Hfleast).
    unfold distBehind in *.
    pose proof (getLeader_nearest this f (Vehicle.lane veh)) as Hl.
    destruct (getLeader this f (Vehicle.lane veh)) as [l|].
    + apply nearestFirst_least in Hl.
      destruct Hl as (Hlin & (Hlid & Hllane & Hlpos) & Hlleast).
      unfold distAhead in *.
      exists l. repeat split; try assumption.
      assert (Hge : Vehicle.x l - Vehicle.x f <= Vehicle.x veh - Vehicle.x f).
      { apply Hlleast; [exact Hveh|]. unfold eligible.
        repeat split; [congruence | lra]. }
      destruct (Rle_lt_dec (Vehicle.x veh) (Vehicle.x l)) as [Hle|Hlt];
        [lra|].
      assert (Hbehind : Vehicle.x veh - Vehicle.x f
                        <= Vehicle.x veh - Vehicle.x l).
      { apply Hfleast; [exact Hlin|]. unfold eligible.
        repeat split; [|exact Hllane | lra].
        intros Hid.
        pose proof (same_id_same_vehicle _ _ _ Hnodup Hlin Hveh Hid).
        subst l. lra. }
      lra.
    + exfalso. apply (Hl veh Hveh). unfold eligible, distAhead.
      repeat split; [congruence | lra].
Qed.

Lemma leader_follower_dual_witness :
  (forall l, getLeader tieModel (car 3 0 0 30) 0 = Some l ->
     exists f, getFollower tieModel l 0 = Some f
               /\ In f (vehicles tieModel)
               /\ Vehicle.lane f = 0%Z
               /\ Vehicle.x f = 0)
  /\ (forall f, getFollower tieModel (car 3 0 0 30) 0 = Some f ->
        exists l, getLeader tieModel f 0 = Some l
                  /\ In l (vehicles tieModel)
                  /\ Vehicle.lane l = 0%Z
                  /\ Vehicle.x l = 0).
Proof.
  apply (leader_follower_dual tieModel (car 3 0 0 30)).
  - cbn. repeat constructor; simpl; intuition lia.
  - cbn. auto.
Defined.

(** * Statistics *)

Lemma totalV_bounds (lo hi : R) (vs : list Vehicle) (acc : R) :
  Forall (fun veh => lo <= Vehicle.v veh <= hi) vs ->
  acc + INR (List.length vs) * lo
  <= fold_left (fun sum v => sum + Vehicle.v v) vs acc
  <= acc + INR (List.length vs) * hi.
Proof.
  intros Hvs. revert acc.
  induction Hvs as [|veh rest Hveh _ IH]; intros acc.
  - cbn [fold_left List.length INR]. lra.
  - cbn [fold_left List.length]. rewrite S_INR.
    specialize (IH (acc + Vehicle.v veh)). lra.
Qed.

(** X25: the statistics of a road that is not empty.  [count] is the number
    of vehicles; the average speed, in km/h, lies between the speed of the
    slowest and of the fastest vehicle, taken in m/s and multiplied by 3.6;
    the flow is the density times the average speed; on a road of positive
    length the density is the count per kilometre and is positive. *)
Theorem getStats_average :
  forall (this : TrafficModel) (lo hi : R),
    vehicles this <> [] ->
    Forall (fun veh => lo <= Vehicle.v veh <= hi) (vehicles this) ->
    let stats := getStats this in
    count stats = List.length (vehicles this)
    /\ lo * 3.6 <= avgSpeed stats <= hi * 3.6
    /\ flow stats = density stats * avgSpeed stats
    /\ points stats = fdPoints this
    /\ (0 < roadLength this ->
        density stats * roadLength this
        = INR (List.length (vehicles this)) * 1000
        /\ 0 < density stats).
Proof.
  intros this lo hi Hsome Hspeeds. cbv zeta. unfold getStats.
  destruct (vehicles this) as [|veh rest] eqn:Hvs; [congruence|].
  change (List.length (veh :: rest) =? 0)%nat with false.
  cbn [count avgSpeed flow density points].
  set (n := List.length (veh :: rest)).
  assert (Hn : 0 < INR n) by (apply lt_0_INR; subst n; cbn; lia).
  pose proof (totalV_bounds lo hi (veh :: rest) 0 Hspeeds) as Htotal.
  fold n in Htotal.
  set (totalV := fold_left (fun sum v => sum + Vehicle.v v) (veh :: rest) 0)
    in *.
  assert (Havg : lo <= totalV / INR n <= hi).
  { split; apply Rmult_le_reg_r with (INR n); try exact Hn;
      unfold Rdiv; rewrite Rmult_assoc, Rinv_l by lra; lra. }
  split; [reflexivity|]. split; [lra|]. split; [reflexivity|].
  split; [reflexivity|].
  intros Hroad. split.
  - field. lra.
  - apply Rdiv_lt_0_compat; lra.
Qed.

Lemma getStats_average_witness :
  count (getStats convoy) = 2%nat
  /\ 30 * 3.6 <= avgSpeed (getStats convoy) <= 30 * 3.6.
Proof.
  destruct (getStats_average convoy 30 30) as (Hcount & Havg & _).
  - discriminate.
  - repeat constructor; cbn; lra.
  - split; [exact Hcount | exact Havg].
Defined.

(** * The canvas and the application shell *)

Lemma Math_min_Rmin (a b : R) : Math_min a b = Rmin a b.
Proof.
  unfold Math_min, Rmin, Rltb.
  destruct (Rlt_dec b a), (Rle_dec a b); try reflexivity; lra.
Qed.

(** X26: the viewport after a wheel event is never before the start of the
    road and, on a road of 100 m or more, never beyond 100 m before its
    end; within these bounds it is the old offset plus the two deltas of
    the event; on a road shorter than 100 m it is 0. *)
Theorem handleWheel_clamped :
  forall (roadLength deltaY deltaX prev : R),
    let offset' := handleWheel roadLength deltaY deltaX prev in
    0 <= offset'
    /\ (100 <= roadLength -> offset' <= roadLength - 100)
    /\ (roadLength <= 100 -> offset' = 0)
    /\ (0 <= prev + deltaY + deltaX <= roadLength - 100 ->
        offset' = prev + deltaY + deltaX).
Proof.
  intros roadLength deltaY deltaX prev. cbv zeta. unfold handleWheel.
  rewrite Math_max_Rmax, Math_min_Rmin.
  unfold Rmax, Rmin.
  destruct (Rle_dec (prev + (deltaY + deltaX) * 1.0) (roadLength - 100));
    match goal with
    | |- context [Rle_dec 0 ?m] => destruct (Rle_dec 0 m)
    end; repeat split; intros; lra.
Qed.

Lemma handleWheel_clamped_witness :
  handleWheel 5000 120 0 4850 <= 5000 - 100
  /\ handleWheel 5000 120 0 30 = 30 + 120 + 0.
Proof.
  destruct (handleWheel_clamped 5000 120 0 4850) as (_ & Hend & _).
  destruct (handleWheel_clamped 5000 120 0 30) as (_ & _ & _ & Hfree).
  split; [apply Hend | apply Hfree]; lra.
Defined.

(** X27: the intensity of the brake lights lies between 0 and 1; it is 0
    exactly when the acceleration is -0.1 or more, 1 exactly when it is
    -3 or less, and it exceeds 0.5, the level from which the lights glow,
    exactly when the acceleration is below -1.5. *)
Theorem brakeIntensity_range :
  forall a : R,
    0 <= brakeIntensity a <= 1
    /\ (brakeIntensity a = 0 <-> -0.1 <= a)
    /\ (brakeIntensity a = 1 <-> a <= -3)
    /\ (brakeIntensity a > 0.5 <-> a < -1.5).
Proof.
  intros a. unfold brakeIntensity.
  destruct (Rltb a (-0.1)) eqn:Hbrake;
    [apply Rltb_iff in Hbrake | apply Rltb_iff_false in Hbrake].
  - rewrite Math_min_Rmin. unfold Math_abs.
    rewrite Rabs_left by lra. unfold Rmin.
    destruct (Rle_dec 1 (- a / 3)); repeat split; intros; lra.
  - repeat split; intros; lra.
Qed.

(** X28: the flow history of the application never holds more than 100
    entries once it holds no more: the new entry, with the flow of the
    stats, goes to the end, and when the history was full the oldest entry
    is dropped. *)
Theorem handleStatsUpdate_bounded :
  forall (now : R) (newStats : SimulationStats) (prev : list HistoryPoint),
    (List.length prev <= 100)%nat ->
    let history := handleStatsUpdate now newStats prev in
    let entry := {| time := now; historyFlow := flow newStats |} in
    (List.length history <= 100)%nat
    /\ ((List.length prev < 100)%nat -> history = prev ++ [entry])
    /\ (List.length prev = 100%nat -> history = tl prev ++ [entry]).
Proof.
  intros now newStats prev Hlen. cbv zeta. unfold handleStatsUpdate.
  rewrite length_app. cbn [List.length].
  destruct (100 <? List.length prev + 1)%nat eqn:Hfull;
    [apply Nat.ltb_lt in Hfull | apply Nat.ltb_ge in Hfull].
  - destruct prev as [|oldest prev]; [cbn in Hfull; lia|].
    cbn [app tl List.length] in *. rewrite length_app. cbn [List.length].
    split; [lia|]. split; [lia | reflexivity].
  - rewrite length_app. cbn [List.length].
    split; [lia|]. split; [reflexivity | lia].
Qed.

Lemma length_fullHistory : List.length fullHistory = 100%nat.
Proof. unfold fullHistory. cbn [List.length]. now rewrite repeat_length. Qed.

Lemma handleStatsUpdate_bounded_witness :
  List.length fullHistory = 100%nat
  /\ (List.length (handleStatsUpdate 2 (getStats convoy) fullHistory)
      <= 100)%nat
  /\ handleStatsUpdate 2 (getStats convoy) fullHistory
     = repeat {| time := 1; historyFlow := 2 |} 99
       ++ [{| time := 2; historyFlow := flow (getStats convoy) |}]
  /\ handleStatsUpdate 0 (getStats convoy) []
     = [{| time := 0; historyFlow := flow (getStats convoy) |}].
Proof.
  split; [exact length_fullHistory|].
  destruct (handleStatsUpdate_bounded 2 (getStats convoy) fullHistory)
    as (Hlen & _ & Hfull); [rewrite length_fullHistory; lia|].
  destruct (handleStatsUpdate_bounded 0 (getStats convoy) [])
    as (_ & Hfree & _); [cbn; lia|].
  split; [exact Hlen|].
  split; [exact (Hfull length_fullHistory) | apply Hfree; cbn; lia].
Defined.
